(** * Messaging data layer of the react-native-true-sheet example app

    A shallow embedding of [messageService] (dataset generation, the two
    process-wide caches, forward and backward pagination, message sending)
    and of the [ConversationSheet] handlers that drive it
    ([loadMoreChatMessages], [handleSendMessage]), followed by the
    [MessagesExampleSheet] handlers, the row label of [MessageItem], the
    send button of [ChatInput] and the item count of [TestScreen].

    Conventions of the model:
    - a JavaScript number that is used as an index or a cursor is either
      [NaN] or an exact integer [Int z]; doubles agree with this on the
      safe-integer range (up to [MAX_SAFE_INTEGER] in magnitude), which
      every index derived from an array length lies in; a statement about
      a cursor supplied by the caller either keeps the cursor within that
      range or is about a result that the array length clamps, so that it
      does not depend on how a larger number is rounded;
    - a [count] (an item count, an array length) is a natural number: the
      sheets ask for 20 messages, or for the item count of the test screen,
      which starts at 20 and moves by steps of 5 without going below 5;
    - a string is a sequence of 8-bit code units;
    - [Math.random], [Date.now] and the base-36 rendering of a double
      are oracles carried by the state and consumed in program order;
    - the body of an [async] function after its single [await delay(..)]
      runs without interruption, as one step of the state monad. *)

From Stdlib Require Import ZArith QArith Qround Lia List Ascii String.
From Stdlib Require Import DecimalString DecimalNat.
From stdpp Require Import gmap strings list.

Local Open Scope string_scope.
Local Open Scope Z_scope.

(** ** JavaScript numbers used as indices *)

Inductive num : Type :=
  | NaN : num
  | Int (z : Z) : num.

Definition num_add (a b : num) : num :=
  match a, b with
  | Int x, Int y => Int (x + y)
  | _, _ => NaN
  end.

Definition num_sub (a b : num) : num :=
  match a, b with
  | Int x, Int y => Int (x - y)
  | _, _ => NaN
  end.

(** [Math.min] and [Math.max]: [NaN] as soon as one argument is [NaN]. *)
Definition Math_min (a b : num) : num :=
  match a, b with
  | Int x, Int y => Int (Z.min x y)
  | _, _ => NaN
  end.

Definition Math_max (a b : num) : num :=
  match a, b with
  | Int x, Int y => Int (Z.max x y)
  | _, _ => NaN
  end.

(** [a < b] and [a > b]: false as soon as one operand is [NaN]. *)
Definition num_lt (a b : num) : bool :=
  match a, b with
  | Int x, Int y => x <? y
  | _, _ => false
  end.

Definition num_gt (a b : num) : bool := num_lt b a.

(** [Number.MAX_SAFE_INTEGER]: up to this magnitude a double is the
    integer it stands for, [parseInt] reads a decimal numeral exactly,
    sums and differences that stay within it are exact, and [toString]
    gives plain decimal digits.  Beyond it a double is rounded, and from
    [1e21] on [toString] switches to the exponent form: [Int z] then no
    longer tells what the program computes. *)
Definition MAX_SAFE_INTEGER : Z := 2 ^ 53 - 1.

(** ** Strings: decimal rendering, [parseInt], [trim] *)

Definition digits_of_nat (n : nat) : string :=
  NilZero.string_of_uint (Nat.to_uint n).

(** [Number.prototype.toString()] on an integer. *)
Definition toString (z : Z) : string :=
  match z with
  | Zneg p => String "-" (digits_of_nat (Pos.to_nat p))
  | _ => digits_of_nat (Z.to_nat z)
  end.

Definition num_toString (n : num) : string :=
  match n with
  | NaN => "NaN"
  | Int z => toString z
  end.

(** White space and line terminators among the code units below 256. *)
Definition isWhiteSpace (c : ascii) : bool :=
  let n := nat_of_ascii c in
  ((n =? 9) || (n =? 10) || (n =? 11) || (n =? 12) || (n =? 13)
   || (n =? 32) || (n =? 160))%nat.

Fixpoint trimStart (s : string) : string :=
  match s with
  | String c s' => if isWhiteSpace c then trimStart s' else s
  | EmptyString => EmptyString
  end.

Definition trimEnd (s : string) : string :=
  String.rev (trimStart (String.rev s)).

Definition trim (s : string) : string := trimEnd (trimStart s).

Definition digit_of (c : ascii) : option Z :=
  let n := nat_of_ascii c in
  if ((48 <=? n) && (n <=? 57))%nat then Some (Z.of_nat (n - 48)) else None.

(** The longest prefix of decimal digits, read left to right; [None] when
    that prefix is empty. *)
Fixpoint parse_digits (s : string) (acc : option Z) : option Z :=
  match s with
  | String c s' =>
      match digit_of c with
      | Some d => parse_digits s' (Some (10 * default 0 acc + d))
      | None => acc
      end
  | EmptyString => acc
  end.

(** [parseInt(s, 10)]. *)
Definition parseInt (s : string) : num :=
  let t := trimStart s in
  let '(sign, body) :=
    match t with
    | String "-" r => (-1, r)
    | String "+" r => (1, r)
    | _ => (1, t)
    end in
  match parse_digits body None with
  | Some n => Int (sign * n)
  | None => NaN
  end.

(** Truthiness of an optional string: [undefined] and the empty string are
    falsy. *)
Definition truthy (s : option string) : option string :=
  match s with
  | Some EmptyString => None
  | _ => s
  end.

(** ** [Array.prototype.slice] *)

Definition toIntegerOrInfinity (n : num) : Z :=
  match n with
  | NaN => 0
  | Int z => z
  end.

Definition relative_index (len r : Z) : Z :=
  if r <? 0 then Z.max (len + r) 0 else Z.min r len.

Definition slice {A} (l : list A) (s e : num) : list A :=
  let len := Z.of_nat (length l) in
  let k := relative_index len (toIntegerOrInfinity s) in
  let final := relative_index len (toIntegerOrInfinity e) in
  take (Z.to_nat (final - k)) (drop (Z.to_nat k) l).

(** The items of [l] at the indices [i] with [a <= i < b], in the order of
    [l]: the half-open index interval, which has no item at a negative
    index. *)
Definition interval {A} (l : list A) (a b : Z) : list A :=
  take (Z.to_nat b - Z.to_nat a) (drop (Z.to_nat a) l).

(** ** Data model *)

Module User.
Record t : Type := { id : string; name : string; avatar : string }.
End User.

Module MessagePreview.
Record t : Type := {
  id : string;
  user : User.t;
  lastMessage : string;
  timestamp : Z;
  unreadCount : Z
}.
End MessagePreview.

Module ChatMessage.
Record t : Type := {
  id : string;
  conversationId : string;
  senderId : string;
  text : string;
  timestamp : Z;
  isSent : bool
}.
End ChatMessage.

Record PaginatedResponse (T : Type) : Type := {
  data : list T;
  hasMore : bool;
  nextCursor : option string
}.
Arguments data {T} _.
Arguments hasMore {T} _.
Arguments nextCursor {T} _.

Definition NAMES : list string :=
  [ "Alice Johnson"; "Bob Smith"; "Charlie Brown"; "Diana Prince";
    "Eve Williams"; "Frank Miller"; "Grace Lee"; "Henry Davis";
    "Ivy Chen"; "Jack Wilson"; "Kate Turner"; "Leo Martinez" ].

Definition MESSAGE_SNIPPETS : list string :=
  [ "Hey, how are you doing?"; "Did you see the game last night?";
    "Can we meet tomorrow at 3pm?"; "Thanks for the help earlier!";
    "Let me know when you are free"; "That sounds great, count me in!";
    "I just finished the project"; "Have you tried the new restaurant?";
    "Happy birthday! Hope you have a great day";
    "Quick question about the meeting"; "Just wanted to check in";
    "See you at the office!" ].

Definition CHAT_MESSAGES : list string :=
  [ "Hello!"; "Hey there!"; "How are you doing today?";
    "I am doing great, thanks for asking!";
    "What are you up to this weekend?"; "Not much, just relaxing. You?";
    "Same here. Maybe catch a movie?"; "Sounds like a plan!";
    "Which movie were you thinking?"; "How about that new action film?";
    "Perfect, I heard it is really good";
    "Great, let us plan for Saturday then"; "Works for me!";
    "See you then!"; "Can not wait!" ].

(** ** The state of the service and its monad *)

(** What the platform supplies: the successive results of [Math.random()],
    the successive readings of the clock ([Date.now()], [new Date()]) and
    [Number.prototype.toString(36)]. *)
Record Runtime : Type := {
  mathRandom : nat -> Q;
  dateNow : nat -> Z;
  radix36 : Q -> string
}.

Record State : Type := {
  runtime : Runtime;
  drawn : nat;
  clockReads : nat;
  messageCache : gmap string (list MessagePreview.t);
  chatCache : gmap string (list ChatMessage.t)
}.

Definition M (A : Type) : Type := State -> A * State.

Definition ret {A} (a : A) : M A := fun s => (a, s).

Definition bind {A B} (m : M A) (k : A -> M B) : M B :=
  fun s => let '(a, s') := m s in k a s'.

Notation "x <- m ;; k" := (bind m (fun x => k))
  (at level 100, m at next level, right associativity).
Notation "m ;;; k" := (bind m (fun _ => k))
  (at level 100, k at level 200, right associativity).

Definition Math_random : M Q :=
  fun s =>
    (mathRandom (runtime s) (drawn s),
     {| runtime := runtime s; drawn := S (drawn s);
        clockReads := clockReads s;
        messageCache := messageCache s; chatCache := chatCache s |}).

Definition Date_now : M Z :=
  fun s =>
    (dateNow (runtime s) (clockReads s),
     {| runtime := runtime s; drawn := drawn s;
        clockReads := S (clockReads s);
        messageCache := messageCache s; chatCache := chatCache s |}).

Definition messageCache_get (k : string) : M (option (list MessagePreview.t)) :=
  fun s => (messageCache s !! k, s).

Definition messageCache_set (k : string) (v : list MessagePreview.t) : M unit :=
  fun s =>
    (tt, {| runtime := runtime s; drawn := drawn s;
            clockReads := clockReads s;
            messageCache := <[k := v]> (messageCache s);
            chatCache := chatCache s |}).

Definition chatCache_get (k : string) : M (option (list ChatMessage.t)) :=
  fun s => (chatCache s !! k, s).

Definition chatCache_set (k : string) (v : list ChatMessage.t) : M unit :=
  fun s =>
    (tt, {| runtime := runtime s; drawn := drawn s;
            clockReads := clockReads s;
            messageCache := messageCache s;
            chatCache := <[k := v]> (chatCache s) |}).

(** ** Helpers *)

(** [delay(ms)] followed by [await]: the timer only postpones the rest of
    the function. *)
Definition delay (ms : Q) : M unit := ret tt.

Definition Math_floor (q : Q) : Z := Qfloor q.

(** [await delay(base + Math.random() * spread)]: the draw happens when
    the function is called, the rest of the function when the timer
    fires. *)
Definition simulateLatency (base spread : Q) : M unit :=
  r <- Math_random ;;
  delay (base + r * spread)%Q.

(** [arr[index]], with [d] standing for [undefined]. *)
Definition getRandomItem {A} (d : A) (arr : list A) : M A :=
  r <- Math_random ;;
  let index := Math_floor (r * inject_Z (Z.of_nat (length arr)))%Q in
  ret (if index <? 0 then d else nth (Z.to_nat index) arr d).

Definition toString36 (q : Q) : M string :=
  fun s => (radix36 (runtime s) q, s).

(** [Math.random().toString(36).substring(2, 11)]. *)
Definition generateId : M string :=
  r <- Math_random ;;
  digits <- toString36 r ;;
  ret (substring 2 9 digits).

Definition getAvatarUrl (index : nat) : string :=
  "https://i.pravatar.cc/150?img=" +:+ toString (Z.of_nat index mod 70 + 1).

(** [Array.from({ length: n }, (_, i) => f i)]: [f] is run for
    [i = 0, .., n-1] in that order. *)
Fixpoint Array_from_at {A} (f : nat -> M A) (i n : nat) : M (list A) :=
  match n with
  | O => ret []
  | S n' =>
      x <- f i ;;
      xs <- Array_from_at f (S i) n' ;;
      ret (x :: xs)
  end.

Definition Array_from {A} (n : nat) (f : nat -> M A) : M (list A) :=
  Array_from_at f 0 n.

(** ** Dataset generation *)

Definition generateMessagePreviews (count : nat) : M (list MessagePreview.t) :=
  now <- Date_now ;;
  cacheId <- generateId ;;
  Array_from count (fun i =>
    let user :=
      {| User.id := "user-" +:+ cacheId +:+ "-" +:+ toString (Z.of_nat i);
         User.name := nth (i mod length NAMES)%nat NAMES "";
         User.avatar := getAvatarUrl i |} in
    lastMessage <- getRandomItem "" MESSAGE_SNIPPETS ;;
    r <- Math_random ;;
    unreadCount <-
      (if Qlt_le_dec (7 # 10) r
       then r' <- Math_random ;; ret (Math_floor (r' * 5)%Q + 1)
       else ret 0) ;;
    ret {| MessagePreview.id :=
             "preview-" +:+ cacheId +:+ "-" +:+ toString (Z.of_nat i);
           MessagePreview.user := user;
           MessagePreview.lastMessage := lastMessage;
           MessagePreview.timestamp := now - Z.of_nat i * 1000 * 60 * 30;
           MessagePreview.unreadCount := unreadCount |}).

Definition chatMessageAt (now : Z) (cacheId conversationId : string)
    (count i : nat) : ChatMessage.t :=
  {| ChatMessage.id := "msg-" +:+ cacheId +:+ "-" +:+ toString (Z.of_nat i);
     ChatMessage.conversationId := conversationId;
     ChatMessage.senderId :=
       if (i mod 2 =? 0)%nat then "current-user" else "other-user";
     ChatMessage.text := nth (i mod length CHAT_MESSAGES)%nat CHAT_MESSAGES "";
     ChatMessage.timestamp :=
       now - (Z.of_nat count - 1 - Z.of_nat i) * 1000 * 60 * 2;
     ChatMessage.isSent := (i mod 2 =? 0)%nat |}.

Definition generateChatMessages (conversationId : string) (count : nat)
    : M (list ChatMessage.t) :=
  now <- Date_now ;;
  cacheId <- generateId ;;
  Array_from count (fun i => ret (chatMessageAt now cacheId conversationId count i)).

(** ** Pagination *)

(** [cursor ? parseInt(cursor, 10) : fallback]. *)
Definition cursorIndex (cursor : option string) (fallback : num) : num :=
  match truthy cursor with
  | Some c => parseInt c
  | None => fallback
  end.

(** Lines 223-232: the page cut out of the cached array. *)
Definition previewsPage {T} (allMessages : list T) (count : nat)
    (cursor : option string) : PaginatedResponse T :=
  let length := Int (Z.of_nat (length allMessages)) in
  let startIndex := cursorIndex cursor (Int 0) in
  let pageSize := Math_min (Int (Z.of_nat count)) (Int 20) in
  let endIndex := Math_min (num_add startIndex pageSize) length in
  {| data := slice allMessages startIndex endIndex;
     hasMore := num_lt endIndex length;
     nextCursor :=
       if num_lt endIndex length then Some (num_toString endIndex) else None |}.

(** Lines 250-259. *)
Definition chatPage {T} (allMessages : list T) (count : nat)
    (cursor : option string) : PaginatedResponse T :=
  let length := Int (Z.of_nat (length allMessages)) in
  let endIndex := cursorIndex cursor length in
  let pageSize := Math_min (Int (Z.of_nat count)) (Int 20) in
  let startIndex := Math_max (num_sub endIndex pageSize) (Int 0) in
  {| data := slice allMessages startIndex endIndex;
     hasMore := num_gt startIndex (Int 0);
     nextCursor :=
       if num_gt startIndex (Int 0) then Some (num_toString startIndex)
       else None |}.

Definition previewsKey (count : nat) : string :=
  "previews-" +:+ toString (Z.of_nat count).

Definition chatKey (conversationId : string) : string :=
  "chat-" +:+ conversationId.

(** The part of [fetchMessagePreviews] that runs once the timer has
    fired. *)
Definition fetchMessagePreviews_resume (count : nat) (cursor : option string)
    : M (PaginatedResponse MessagePreview.t) :=
  let cacheKey := previewsKey count in
  cached <- messageCache_get cacheKey ;;
  (if cached is None
   then generated <- generateMessagePreviews (count * 3) ;;
        messageCache_set cacheKey generated
   else ret tt) ;;;
  allMessages <- messageCache_get cacheKey ;;
  ret (previewsPage (default [] allMessages) count cursor).

Definition fetchMessagePreviews (count : nat) (cursor : option string)
    : M (PaginatedResponse MessagePreview.t) :=
  simulateLatency 300 200 ;;;
  fetchMessagePreviews_resume count cursor.

Definition fetchChatMessages_resume (conversationId : string) (count : nat)
    (cursor : option string) : M (PaginatedResponse ChatMessage.t) :=
  let cacheKey := chatKey conversationId in
  cached <- chatCache_get cacheKey ;;
  (if cached is None
   then generated <- generateChatMessages conversationId (count * 3) ;;
        chatCache_set cacheKey generated
   else ret tt) ;;;
  allMessages <- chatCache_get cacheKey ;;
  ret (chatPage (default [] allMessages) count cursor).

Definition fetchChatMessages (conversationId : string) (count : nat)
    (cursor : option string) : M (PaginatedResponse ChatMessage.t) :=
  simulateLatency 200 300 ;;;
  fetchChatMessages_resume conversationId count cursor.

(** ** Sending *)

Definition sendMessage_resume (conversationId text : string)
    : M ChatMessage.t :=
  id <- generateId ;;
  timestamp <- Date_now ;;
  let newMessage :=
    {| ChatMessage.id := id;
       ChatMessage.conversationId := conversationId;
       ChatMessage.senderId := "current-user";
       ChatMessage.text := text;
       ChatMessage.timestamp := timestamp;
       ChatMessage.isSent := true |} in
  let cacheKey := chatKey conversationId in
  cached <- chatCache_get cacheKey ;;
  (if cached is Some messages
   then chatCache_set cacheKey (messages ++ [newMessage])%list
   else ret tt) ;;;
  ret newMessage.

Definition sendMessage (conversationId text : string) : M ChatMessage.t :=
  simulateLatency 100 100 ;;;
  sendMessage_resume conversationId text.

Definition clearCache : M unit :=
  fun s =>
    (tt, {| runtime := runtime s; drawn := drawn s;
            clockReads := clockReads s;
            messageCache := ∅; chatCache := ∅ |}).

(** ** Following a cursor chain

    A caller that keeps asking for the next page with the cursor it was
    given, until a page says [hasMore = false].  [None] when the fuel runs
    out before that. *)

Fixpoint previewsChain (fuel count : nat) (cursor : option string)
    : M (option (list (PaginatedResponse MessagePreview.t))) :=
  match fuel with
  | O => ret None
  | S fuel' =>
      page <- fetchMessagePreviews count cursor ;;
      if hasMore page
      then rest <- previewsChain fuel' count (nextCursor page) ;;
           ret (cons page <$> rest)
      else ret (Some [page])
  end.

Fixpoint chatChain (fuel : nat) (conversationId : string) (count : nat)
    (cursor : option string)
    : M (option (list (PaginatedResponse ChatMessage.t))) :=
  match fuel with
  | O => ret None
  | S fuel' =>
      page <- fetchChatMessages conversationId count cursor ;;
      if hasMore page
      then rest <- chatChain fuel' conversationId count (nextCursor page) ;;
           ret (cons page <$> rest)
      else ret (Some [page])
  end.

(** Pages appended in fetch order. *)
Definition appended {T} (pages : list (PaginatedResponse T)) : list T :=
  foldl (fun items page => (items ++ data page)%list) [] pages.

(** Each fetched page put in front of what is already there. *)
Definition prepended {T} (pages : list (PaginatedResponse T)) : list T :=
  foldl (fun items page => (data page ++ items)%list) [] pages.

(** The final cursor a chain handed out. *)
Definition lastCursor {T} (pages : list (PaginatedResponse T)) : option string :=
  last (omap nextCursor pages).

(** ** The conversation sheet *)

(** The two versions of the sheet: the inverted list, newest message first
    (part_001), and the chronological list, newest message last
    (part_002). *)
Inductive Convention : Type := Inverted | Chronological.

Record Sheet : Type := {
  chatLoadingMoreRef : bool;
  selectedConversation : option MessagePreview.t;
  chatMessages : list ChatMessage.t;
  chatLoading : bool;
  chatLoadingMore : bool;
  chatHasMore : bool;
  chatCursor : option string;
  inputText : string
}.

Definition initialSheet : Sheet :=
  {| chatLoadingMoreRef := false; selectedConversation := None;
     chatMessages := []; chatLoading := false; chatLoadingMore := false;
     chatHasMore := true; chatCursor := None; inputText := "" |}.

Definition set_chatLoadingMoreRef (v : bool) (sh : Sheet) : Sheet :=
  {| chatLoadingMoreRef := v;
     selectedConversation := selectedConversation sh;
     chatMessages := chatMessages sh; chatLoading := chatLoading sh;
     chatLoadingMore := chatLoadingMore sh; chatHasMore := chatHasMore sh;
     chatCursor := chatCursor sh; inputText := inputText sh |}.

Definition setSelectedConversation (v : option MessagePreview.t) (sh : Sheet)
    : Sheet :=
  {| chatLoadingMoreRef := chatLoadingMoreRef sh;
     selectedConversation := v;
     chatMessages := chatMessages sh; chatLoading := chatLoading sh;
     chatLoadingMore := chatLoadingMore sh; chatHasMore := chatHasMore sh;
     chatCursor := chatCursor sh; inputText := inputText sh |}.

Definition setChatMessages (f : list ChatMessage.t -> list ChatMessage.t)
    (sh : Sheet) : Sheet :=
  {| chatLoadingMoreRef := chatLoadingMoreRef sh;
     selectedConversation := selectedConversation sh;
     chatMessages := f (chatMessages sh); chatLoading := chatLoading sh;
     chatLoadingMore := chatLoadingMore sh; chatHasMore := chatHasMore sh;
     chatCursor := chatCursor sh; inputText := inputText sh |}.

Definition setChatLoading (v : bool) (sh : Sheet) : Sheet :=
  {| chatLoadingMoreRef := chatLoadingMoreRef sh;
     selectedConversation := selectedConversation sh;
     chatMessages := chatMessages sh; chatLoading := v;
     chatLoadingMore := chatLoadingMore sh; chatHasMore := chatHasMore sh;
     chatCursor := chatCursor sh; inputText := inputText sh |}.

Definition setChatLoadingMore (v : bool) (sh : Sheet) : Sheet :=
  {| chatLoadingMoreRef := chatLoadingMoreRef sh;
     selectedConversation := selectedConversation sh;
     chatMessages := chatMessages sh; chatLoading := chatLoading sh;
     chatLoadingMore := v; chatHasMore := chatHasMore sh;
     chatCursor := chatCursor sh; inputText := inputText sh |}.

Definition setChatHasMore (v : bool) (sh : Sheet) : Sheet :=
  {| chatLoadingMoreRef := chatLoadingMoreRef sh;
     selectedConversation := selectedConversation sh;
     chatMessages := chatMessages sh; chatLoading := chatLoading sh;
     chatLoadingMore := chatLoadingMore sh; chatHasMore := v;
     chatCursor := chatCursor sh; inputText := inputText sh |}.

Definition setChatCursor (v : option string) (sh : Sheet) : Sheet :=
  {| chatLoadingMoreRef := chatLoadingMoreRef sh;
     selectedConversation := selectedConversation sh;
     chatMessages := chatMessages sh; chatLoading := chatLoading sh;
     chatLoadingMore := chatLoadingMore sh; chatHasMore := chatHasMore sh;
     chatCursor := v; inputText := inputText sh |}.

Definition setInputText (v : string) (sh : Sheet) : Sheet :=
  {| chatLoadingMoreRef := chatLoadingMoreRef sh;
     selectedConversation := selectedConversation sh;
     chatMessages := chatMessages sh; chatLoading := chatLoading sh;
     chatLoadingMore := chatLoadingMore sh; chatHasMore := chatHasMore sh;
     chatCursor := chatCursor sh; inputText := v |}.

(** How an awaited promise settles. *)
Inductive Settled (A : Type) : Type :=
  | Resolved (a : A)
  | Rejected.
Arguments Resolved {A} _.
Arguments Rejected {A}.

(** A call to [fetchChatMessages]: conversation id, count, cursor. *)
Definition FetchCall : Type := string * nat * option string.

(** Each handler is cut at its [await]: [_call] runs up to the point where
    the request is issued (and says which request, if any), [_settle] is
    the rest, run with the way the promise settled.  A handler reads the
    state of the render it belongs to; the model takes that to be the
    current state. *)

Definition loadChatMessages_call (conversationId : string) (sh : Sheet)
    : Sheet * FetchCall :=
  (setChatCursor None (setChatMessages (fun _ => []) (setChatLoading true sh)),
   (conversationId, 20%nat, None)).

Definition loadChatMessages_settle (c : Convention)
    (outcome : Settled (PaginatedResponse ChatMessage.t)) (sh : Sheet) : Sheet :=
  let sh' :=
    match outcome with
    | Resolved response =>
        let shown :=
          match c with
          | Inverted => reverse (data response)
          | Chronological => data response
          end in
        setChatCursor (nextCursor response)
          (setChatHasMore (hasMore response)
             (setChatMessages (fun _ => shown) sh))
    | Rejected => sh
    end in
  setChatLoading false sh'.

Definition loadMoreChatMessages_call (sh : Sheet) : Sheet * option FetchCall :=
  match chatLoadingMoreRef sh, chatHasMore sh,
        truthy (chatCursor sh), selectedConversation sh with
  | false, true, Some cursor, Some conversation =>
      (setChatLoadingMore true (set_chatLoadingMoreRef true sh),
       Some (MessagePreview.id conversation, 20%nat, Some cursor))
  | _, _, _, _ => (sh, None)
  end.

Definition loadMoreChatMessages_settle (c : Convention)
    (outcome : Settled (PaginatedResponse ChatMessage.t)) (sh : Sheet) : Sheet :=
  let sh' :=
    match outcome with
    | Resolved response =>
        let merge prev :=
          match c with
          | Inverted => (prev ++ reverse (data response))%list
          | Chronological => (data response ++ prev)%list
          end in
        setChatCursor (nextCursor response)
          (setChatHasMore (hasMore response) (setChatMessages merge sh))
    | Rejected => sh
    end in
  set_chatLoadingMoreRef false (setChatLoadingMore false sh').

(** A call to [sendMessage]: conversation id and text. *)
Definition SendCall : Type := string * string.

Definition handleSendMessage_call (sh : Sheet) : Sheet * option SendCall :=
  match trim (inputText sh), selectedConversation sh with
  | EmptyString, _ => (sh, None)
  | _, None => (sh, None)
  | text, Some conversation =>
      (setInputText "" sh, Some (MessagePreview.id conversation, text))
  end.

Definition handleSendMessage_settle (c : Convention) (text : string)
    (outcome : Settled ChatMessage.t) (sh : Sheet) : Sheet :=
  match outcome with
  | Resolved newMessage =>
      let merge prev :=
        match c with
        | Inverted => newMessage :: prev
        | Chronological => (prev ++ [newMessage])%list
        end in
      setChatMessages merge sh
  | Rejected => setInputText text sh
  end.

(** ** The sheet together with the service

    The sheet, the service state, the requests that are in flight (their
    timers have not fired yet), and the log of the calls made to
    [fetchChatMessages]. *)

Inductive Task : Type :=
  | LoadChatTask (call : FetchCall)
  | LoadMoreTask (call : FetchCall)
  | SendTask (call : SendCall).

Record App : Type := {
  sheet : Sheet;
  service : State;
  inflight : list Task;
  fetchChatCalls : list FetchCall
}.

Inductive Event : Type :=
  | Present (conversation : MessagePreview.t)
  | EndReached
  | ChangeText (text : string)
  | PressSend
  | TimerFires (n : nat) (fails : bool).

Definition settleTask (c : Convention) (task : Task) (fails : bool)
    (sh : Sheet) (sv : State) : Sheet * State :=
  match task with
  | LoadChatTask (conversationId, count, cursor) =>
      if fails then (loadChatMessages_settle c Rejected sh, sv)
      else
        let '(response, sv') :=
          fetchChatMessages_resume conversationId count cursor sv in
        (loadChatMessages_settle c (Resolved response) sh, sv')
  | LoadMoreTask (conversationId, count, cursor) =>
      if fails then (loadMoreChatMessages_settle c Rejected sh, sv)
      else
        let '(response, sv') :=
          fetchChatMessages_resume conversationId count cursor sv in
        (loadMoreChatMessages_settle c (Resolved response) sh, sv')
  | SendTask (conversationId, text) =>
      if fails then (handleSendMessage_settle c text Rejected sh, sv)
      else
        let '(newMessage, sv') := sendMessage_resume conversationId text sv in
        (handleSendMessage_settle c text (Resolved newMessage) sh, sv')
  end.

Definition step (c : Convention) (a : App) (e : Event) : App :=
  match e with
  | Present conversation =>
      let sh := setSelectedConversation (Some conversation) (sheet a) in
      let '(sh', call) :=
        loadChatMessages_call (MessagePreview.id conversation) sh in
      {| sheet := sh';
         service := snd (simulateLatency 200 300 (service a));
         inflight := (inflight a ++ [LoadChatTask call])%list;
         fetchChatCalls := (fetchChatCalls a ++ [call])%list |}
  | EndReached =>
      match loadMoreChatMessages_call (sheet a) with
      | (sh', Some call) =>
          {| sheet := sh';
             service := snd (simulateLatency 200 300 (service a));
             inflight := (inflight a ++ [LoadMoreTask call])%list;
             fetchChatCalls := (fetchChatCalls a ++ [call])%list |}
      | (sh', None) =>
          {| sheet := sh'; service := service a; inflight := inflight a;
             fetchChatCalls := fetchChatCalls a |}
      end
  | ChangeText text =>
      {| sheet := setInputText text (sheet a); service := service a;
         inflight := inflight a; fetchChatCalls := fetchChatCalls a |}
  | PressSend =>
      match handleSendMessage_call (sheet a) with
      | (sh', Some call) =>
          {| sheet := sh';
             service := snd (simulateLatency 100 100 (service a));
             inflight := (inflight a ++ [SendTask call])%list;
             fetchChatCalls := fetchChatCalls a |}
      | (sh', None) =>
          {| sheet := sh'; service := service a; inflight := inflight a;
             fetchChatCalls := fetchChatCalls a |}
      end
  | TimerFires n fails =>
      match inflight a !! n with
      | Some task =>
          let '(sh', sv') := settleTask c task fails (sheet a) (service a) in
          {| sheet := sh'; service := sv'; inflight := delete n (inflight a);
             fetchChatCalls := fetchChatCalls a |}
      | None => a
      end
  end.

Definition run (c : Convention) (a : App) (events : list Event) : App :=
  foldl (step c) a events.

(** The guard of [loadMoreChatMessages] spelled out: a load is in flight,
    or there is nothing more, or there is no cursor, or no conversation is
    selected. *)
Definition loadMoreBlocked (sh : Sheet) : bool :=
  chatLoadingMoreRef sh || negb (chatHasMore sh)
  || negb (bool_decide (is_Some (truthy (chatCursor sh))))
  || negb (bool_decide (is_Some (selectedConversation sh))).

(** ** Definitions used by the statements and the proofs *)

Definition starts_with_digit (s : string) : Prop :=
  match s with
  | String c _ => is_Some (digit_of c)
  | EmptyString => False
  end.

(** A computation that leaves both caches and the platform alone. *)
Definition frame (s s' : State) : Prop :=
  runtime s' = runtime s /\ messageCache s' = messageCache s
  /\ chatCache s' = chatCache s.

Definition pure_of_caches {A} (m : M A) : Prop :=
  forall s, frame s (snd (m s)).

(** The state once the latency of a call has been drawn. *)
Definition afterLatency (st : State) : State := snd (Math_random st).

(** The array a call on [st] pages through: the cached one, or else the
    one this very call generates. *)
Definition previewsBacking (count : nat) (st : State) : list MessagePreview.t :=
  match messageCache st !! previewsKey count with
  | Some allMessages => allMessages
  | None => fst (generateMessagePreviews (count * 3) (afterLatency st))
  end.

Definition chatBacking (conversationId : string) (count : nat) (st : State)
    : list ChatMessage.t :=
  match chatCache st !! chatKey conversationId with
  | Some allMessages => allMessages
  | None => fst (generateChatMessages conversationId (count * 3) (afterLatency st))
  end.

(** A platform and states to run the service on. *)
Definition demoRuntime : Runtime :=
  {| mathRandom := fun n => (Z.of_nat (n mod 10) # 10)%Q;
     dateNow := fun n => 1700000000000 + Z.of_nat n;
     radix36 := fun _ => "0.k3j9x2m5p7q" |}.

Definition demoState : State :=
  {| runtime := demoRuntime; drawn := 0; clockReads := 0;
     messageCache := ∅; chatCache := ∅ |}.

Definition demoPreview (n : string) : MessagePreview.t :=
  {| MessagePreview.id := n;
     MessagePreview.user :=
       {| User.id := "u" +:+ n; User.name := "Alice Johnson";
          User.avatar := getAvatarUrl 0 |};
     MessagePreview.lastMessage := "Hello!";
     MessagePreview.timestamp := 1700000000000;
     MessagePreview.unreadCount := 0 |}.

Definition demoMessage (n : string) : ChatMessage.t :=
  {| ChatMessage.id := n; ChatMessage.conversationId := "c1";
     ChatMessage.senderId := "other-user"; ChatMessage.text := "Hello!";
     ChatMessage.timestamp := 1700000000000; ChatMessage.isSent := false |}.

(** A state whose caches hold five previews under [previews-2] and five
    messages under [chat-c1]. *)
Definition demoLoaded : State :=
  {| runtime := demoRuntime; drawn := 3; clockReads := 1;
     messageCache :=
       {[ previewsKey 2 := demoPreview <$> ["a"; "b"; "c"; "d"; "e"] ]};
     chatCache :=
       {[ chatKey "c1" := demoMessage <$> ["m0"; "m1"; "m2"; "m3"; "m4"] ]} |}.

(** A platform on which [Math.random()] returns one half every time (in
    base 36 that is "0.i"), and a state of it with one message under
    [chat-c1]. *)
Definition sameDrawRuntime : Runtime :=
  {| mathRandom := fun _ => (1 # 2)%Q;
     dateNow := fun n => 1700000000000 + Z.of_nat n;
     radix36 := fun _ => "0.i" |}.

Definition sameDrawLoaded : State :=
  {| runtime := sameDrawRuntime; drawn := 0; clockReads := 0;
     messageCache := ∅;
     chatCache := {[ chatKey "c1" := demoMessage <$> ["m0"] ]} |}.

(** The cursor as the specification reads it: absent, standing for
    [absent], or a string that parses to [z]. *)
Definition cursorAt (cursor : option string) (absent z : Z) : Prop :=
  match cursor with
  | None => z = absent
  | Some c => parseInt c = Int z
  end.

(** The calls a client can make, and the state they leave. *)
Inductive Call : Type :=
  | FetchPreviews (count : nat) (cursor : option string)
  | FetchChat (conversationId : string) (count : nat) (cursor : option string)
  | Send (conversationId text : string)
  | ClearCache.

Definition perform (st : State) (call : Call) : State :=
  match call with
  | FetchPreviews count cursor => snd (fetchMessagePreviews count cursor st)
  | FetchChat conversationId count cursor =>
      snd (fetchChatMessages conversationId count cursor st)
  | Send conversationId text => snd (sendMessage conversationId text st)
  | ClearCache => snd (clearCache st)
  end.

Definition performAll (st : State) (calls : list Call) : State :=
  foldl perform st calls.

Definition demoSheet (typed : string) : Sheet :=
  {| chatLoadingMoreRef := false;
     selectedConversation := Some (demoPreview "c1");
     chatMessages := demoMessage <$> ["m3"; "m4"];
     chatLoading := false; chatLoadingMore := false;
     chatHasMore := true; chatCursor := Some "3"; inputText := typed |}.

Definition demoApp (typed : string) : App :=
  {| sheet := demoSheet typed; service := demoLoaded; inflight := [];
     fetchChatCalls := [] |}.

(** ** The message row, the chat input, the test screen *)

(** [formatTime] of [MessageItem]: the age of a preview as shown in its
    row.  [toLocaleDateString] is the platform's rendering of a date. *)
Definition formatTime (toLocaleDateString : Z -> string) (date : Z) : M string :=
  now <- Date_now ;;
  let diff := now - date in
  let minutes := diff / 60000 in
  let hours := diff / 3600000 in
  let days := diff / 86400000 in
  ret (if minutes <? 1 then "Now"
       else if minutes <? 60 then toString minutes +:+ "m"
       else if hours <? 24 then toString hours +:+ "h"
       else if days <? 7 then toString days +:+ "d"
       else toLocaleDateString date).

(** The unread badge of a row is drawn when [unreadCount > 0]. *)
Definition showsBadge (message : MessagePreview.t) : bool :=
  0 <? MessagePreview.unreadCount message.

(** [ChatInput]: [canSend], which enables the send button and the submit
    key. *)
Definition canSend (value : string) : bool :=
  (0 <? String.length (trim value))%nat.

(** [TestScreen]: the two buttons that change [itemCount]. *)
Inductive ItemCountButton : Type := Minus5 | Plus5.

Definition initialItemCount : Z := 20.

Definition pressItemCount (itemCount : Z) (b : ItemCountButton) : Z :=
  match b with
  | Minus5 => Z.max 5 (itemCount - 5)
  | Plus5 => itemCount + 5
  end.

(** ** The messages sheet *)

Record MessagesSheet : Type := {
  messagesLoadingRef : bool;
  messages : list MessagePreview.t;
  messagesLoading : bool;
  messagesHasMore : bool;
  messagesCursor : option string
}.

Definition initialMessagesSheet : MessagesSheet :=
  {| messagesLoadingRef := false; messages := []; messagesLoading := false;
     messagesHasMore := true; messagesCursor := None |}.

(** A call to [fetchMessagePreviews]: count and cursor. *)
Definition PreviewsCall : Type := nat * option string.

(** [loadMessages] up to its [await]; [clearCache()] is run by the caller
    of this function, between it and the request. *)
Definition loadMessages_call (itemCount : nat) (sh : MessagesSheet)
    : MessagesSheet * PreviewsCall :=
  ({| messagesLoadingRef := false; messages := messages sh;
      messagesLoading := true; messagesHasMore := messagesHasMore sh;
      messagesCursor := messagesCursor sh |},
   (itemCount, None)).

Definition loadMessages_settle
    (outcome : Settled (PaginatedResponse MessagePreview.t))
    (sh : MessagesSheet) : MessagesSheet :=
  match outcome with
  | Resolved response =>
      {| messagesLoadingRef := messagesLoadingRef sh;
         messages := data response; messagesLoading := false;
         messagesHasMore := hasMore response;
         messagesCursor := nextCursor response |}
  | Rejected =>
      {| messagesLoadingRef := messagesLoadingRef sh;
         messages := messages sh; messagesLoading := false;
         messagesHasMore := messagesHasMore sh;
         messagesCursor := messagesCursor sh |}
  end.

Definition loadMoreMessages_call (itemCount : nat) (sh : MessagesSheet)
    : MessagesSheet * option PreviewsCall :=
  match messagesLoadingRef sh, messagesHasMore sh,
        truthy (messagesCursor sh) with
  | false, true, Some cursor =>
      ({| messagesLoadingRef := true; messages := messages sh;
          messagesLoading := true; messagesHasMore := messagesHasMore sh;
          messagesCursor := messagesCursor sh |},
       Some (itemCount, Some cursor))
  | _, _, _ => (sh, None)
  end.

Definition loadMoreMessages_settle
    (outcome : Settled (PaginatedResponse MessagePreview.t))
    (sh : MessagesSheet) : MessagesSheet :=
  match outcome with
  | Resolved response =>
      {| messagesLoadingRef := false;
         messages := (messages sh ++ data response)%list;
         messagesLoading := false;
         messagesHasMore := hasMore response;
         messagesCursor := nextCursor response |}
  | Rejected =>
      {| messagesLoadingRef := false; messages := messages sh;
         messagesLoading := false; messagesHasMore := messagesHasMore sh;
         messagesCursor := messagesCursor sh |}
  end.

(** The messages sheet together with the service: the sheet, its
    [itemCount] prop, the service state, the requests in flight and the
    log of the calls made to [fetchMessagePreviews]. *)
Inductive ListTask : Type :=
  | LoadMessagesTask (call : PreviewsCall)
  | LoadMoreMessagesTask (call : PreviewsCall).

Record ListApp : Type := {
  listSheet : MessagesSheet;
  itemCount : nat;
  listService : State;
  listInflight : list ListTask;
  previewsCalls : list PreviewsCall
}.

(** [ItemCount n]: the sheet is mounted with [itemCount = n], or its
    [itemCount] changes to [n]; the effect then runs [loadMessages]. *)
Inductive ListEvent : Type :=
  | ItemCount (n : nat)
  | ListEndReached
  | ListTimerFires (n : nat) (fails : bool).

Definition settleListTask (task : ListTask) (fails : bool)
    (sh : MessagesSheet) (sv : State) : MessagesSheet * State :=
  match task with
  | LoadMessagesTask (count, cursor) =>
      if fails then (loadMessages_settle Rejected sh, sv)
      else
        let '(response, sv') := fetchMessagePreviews_resume count cursor sv in
        (loadMessages_settle (Resolved response) sh, sv')
  | LoadMoreMessagesTask (count, cursor) =>
      if fails then (loadMoreMessages_settle Rejected sh, sv)
      else
        let '(response, sv') := fetchMessagePreviews_resume count cursor sv in
        (loadMoreMessages_settle (Resolved response) sh, sv')
  end.

Definition listStep (a : ListApp) (e : ListEvent) : ListApp :=
  match e with
  | ItemCount n =>
      let '(sh', call) := loadMessages_call n (listSheet a) in
      {| listSheet := sh'; itemCount := n;
         listService :=
           snd (simulateLatency 300 200 (snd (clearCache (listService a))));
         listInflight := (listInflight a ++ [LoadMessagesTask call])%list;
         previewsCalls := (previewsCalls a ++ [call])%list |}
  | ListEndReached =>
      match loadMoreMessages_call (itemCount a) (listSheet a) with
      | (sh', Some call) =>
          {| listSheet := sh'; itemCount := itemCount a;
             listService := snd (simulateLatency 300 200 (listService a));
             listInflight := (listInflight a ++ [LoadMoreMessagesTask call])%list;
             previewsCalls := (previewsCalls a ++ [call])%list |}
      | (sh', None) =>
          {| listSheet := sh'; itemCount := itemCount a;
             listService := listService a; listInflight := listInflight a;
             previewsCalls := previewsCalls a |}
      end
  | ListTimerFires n fails =>
      match listInflight a !! n with
      | Some task =>
          let '(sh', sv') :=
            settleListTask task fails (listSheet a) (listService a) in
          {| listSheet := sh'; itemCount := itemCount a; listService := sv';
             listInflight := delete n (listInflight a);
             previewsCalls := previewsCalls a |}
      | None => a
      end
  end.

Definition listRun (a : ListApp) (events : list ListEvent) : ListApp :=
  foldl listStep a events.

(** The messages of the sheet, oldest first. *)
Definition shown (c : Convention) (sh : Sheet) : list ChatMessage.t :=
  match c with
  | Inverted => reverse (chatMessages sh)
  | Chronological => chatMessages sh
  end.

Definition isLoadMore (t : Task) : bool :=
  match t with
  | LoadMoreTask _ => true
  | _ => false
  end.

(** A request in flight that belongs to the open conversation: a send to
    it, or the load of the page before the sheet's cursor. *)
Definition taskFor (conversationId : string) (sh : Sheet) (t : Task) : Prop :=
  match t with
  | SendTask (cid, _) => cid = conversationId
  | LoadMoreTask call =>
      call = (conversationId, 20%nat, chatCursor sh) /\ is_Some (chatCursor sh)
  | LoadChatTask _ => False
  end.

(** The sheet is in step with the cache: it shows the cached history of
    the open conversation from index [e] on, [e] being what its cursor
    encodes (0 when it has none); the requests in flight are for this
    conversation, with a load in flight exactly when the guard flag is
    set. *)
Definition inSync (c : Convention) (conversation : MessagePreview.t) (a : App)
    : Prop :=
  selectedConversation (sheet a) = Some conversation
  /\ Forall (taskFor (MessagePreview.id conversation) (sheet a)) (inflight a)
  /\ length (List.filter isLoadMore (inflight a))
     = (if chatLoadingMoreRef (sheet a) then 1 else 0)%nat
  /\ exists (allMessages : list ChatMessage.t) (e : nat),
       chatCache (service a) !! chatKey (MessagePreview.id conversation)
       = Some allMessages
       /\ (e <= length allMessages)%nat
       /\ shown c (sheet a) = drop e allMessages
       /\ match chatCursor (sheet a) with
          | Some cursor =>
              cursor = toString (Z.of_nat e) /\ (0 < e)%nat
              /\ chatHasMore (sheet a) = true
          | None => e = 0%nat /\ chatHasMore (sheet a) = false
          end.

Definition isPresent (e : Event) : bool :=
  match e with
  | Present _ => true
  | _ => false
  end.

(** The sheet shows the first [e] previews of the cached array
    [allMessages] of its item count; its cursor encodes [e], or is absent
    once everything is shown; a load of the next page is in flight exactly
    when the guard flag is set. *)
Definition listAt (n : nat) (allMessages : list MessagePreview.t) (e : nat)
    (a : ListApp) : Prop :=
  itemCount a = n
  /\ messageCache (listService a) !! previewsKey n = Some allMessages
  /\ (e <= length allMessages)%nat
  /\ messages (listSheet a) = take e allMessages
  /\ match messagesCursor (listSheet a) with
     | Some cursor =>
         cursor = toString (Z.of_nat e) /\ (e < length allMessages)%nat
         /\ messagesHasMore (listSheet a) = true
     | None => e = length allMessages /\ messagesHasMore (listSheet a) = false
     end
  /\ listInflight a
     = (if messagesLoadingRef (listSheet a)
        then [LoadMoreMessagesTask (n, messagesCursor (listSheet a))]
        else [])
  /\ (messagesLoadingRef (listSheet a) = true ->
      is_Some (messagesCursor (listSheet a))).

Definition isItemCount (e : ListEvent) : bool :=
  match e with
  | ItemCount _ => true
  | _ => false
  end.

(** [k] times: the list reaches its end, and the load resolves. *)
Definition loadMoreRounds (k : nat) : list ListEvent :=
  concat (replicate k [ListEndReached; ListTimerFires 0 false]).

Definition demoListApp : ListApp :=
  {| listSheet := initialMessagesSheet; itemCount := 20;
     listService := demoLoaded; listInflight := []; previewsCalls := [] |}.

Ltac list_state :=
  unfold listAt;
  cbn [listSheet listService listInflight itemCount loadMoreMessages_settle
       messages messagesCursor messagesHasMore messagesLoadingRef
       delete list_delete].

(** A messages sheet that shows the first two of the five cached previews
    of item count 2. *)
Definition demoListLoaded : ListApp :=
  {| listSheet :=
       {| messagesLoadingRef := false;
          messages := demoPreview <$> ["a"; "b"];
          messagesLoading := false; messagesHasMore := true;
          messagesCursor := Some "2" |};
     itemCount := 2; listService := demoLoaded; listInflight := [];
     previewsCalls := [] |}.

(** * Properties *)

(** *** The string and array primitives on examples *)

Example toString_examples :
  toString 0 = "0" /\ toString 20 = "20" /\ toString (-5) = "-5".
Proof. repeat split; reflexivity. Qed.

Example parseInt_examples :
  parseInt "40" = Int 40 /\ parseInt " -7px" = Int (-7) /\
  parseInt "abc" = NaN /\ parseInt "" = NaN /\ parseInt "+" = NaN.
Proof. repeat split; reflexivity. Qed.

Example trim_examples : trim "  hi there " = "hi there" /\ trim "   " = "".
Proof. split; reflexivity. Qed.

Example slice_examples :
  slice [1;2;3;4;5] (Int 1) (Int 3) = [2;3] /\
  slice [1;2;3;4;5] (Int (-2)) (Int 9) = [4;5] /\
  slice [1;2;3;4;5] (Int 0) (Int (-1)) = [1;2;3;4] /\
  slice [1;2;3;4;5] NaN NaN = [] /\
  slice [1;2;3;4;5] (Int 4) (Int 2) = [].
Proof. repeat split; reflexivity. Qed.

(** *** Decimal strings *)

Lemma parse_digits_uint (d : Decimal.uint) (acc : nat) :
  parse_digits (NilEmpty.string_of_uint d) (Some (Z.of_nat acc))
  = Some (Z.of_nat (Nat.of_uint_acc d acc)).
Proof.
  revert acc.
  induction d; intros acc; cbn [NilEmpty.string_of_uint parse_digits Nat.of_uint_acc];
    [reflexivity | ..];
    (match goal with
     | |- context [digit_of ?c] =>
         change (digit_of c) with (Some (Z.of_nat (nat_of_ascii c - 48)))
     end);
    cbn [default from_option id]; rewrite <- IHd; do 2 f_equal;
    rewrite Nat.tail_mul_spec;
    (match goal with
     | |- context [Z.of_nat (nat_of_ascii ?c - 48)] =>
         let v := eval vm_compute in (Z.of_nat (nat_of_ascii c - 48)) in
         change (Z.of_nat (nat_of_ascii c - 48)) with v
     end); lia.
Qed.

Lemma parse_digits_start (d : Decimal.uint) :
  d <> Decimal.Nil ->
  parse_digits (NilEmpty.string_of_uint d) None
  = parse_digits (NilEmpty.string_of_uint d) (Some 0).
Proof. destruct d; [congruence | reflexivity ..]. Qed.

Lemma parse_digits_of_nat (n : nat) :
  parse_digits (digits_of_nat n) None = Some (Z.of_nat n).
Proof.
  unfold digits_of_nat.
  pose proof (Unsigned.of_to n) as Hn. unfold Nat.of_uint in Hn.
  destruct (Nat.to_uint n) as [| d | d | d | d | d | d | d | d | d | d] eqn:E;
    [cbn in *; subst; reflexivity | ..];
    unfold NilZero.string_of_uint; rewrite parse_digits_start by discriminate;
    change 0 with (Z.of_nat 0); rewrite parse_digits_uint, Hn; reflexivity.
Qed.

Lemma digits_of_nat_starts (n : nat) : starts_with_digit (digits_of_nat n).
Proof.
  unfold digits_of_nat.
  destruct (Nat.to_uint n); cbn; eexists; reflexivity.
Qed.

Lemma parseInt_digits (s : string) :
  starts_with_digit s ->
  parseInt s = match parse_digits s None with Some n => Int n | None => NaN end.
Proof.
  destruct s as [| c s]; [intros [] |].
  intros [d Hd]. unfold parseInt.
  destruct c as [[] [] [] [] [] [] [] []]; try discriminate Hd;
    cbn [trimStart isWhiteSpace]; cbv beta iota.
  all: match goal with
       | |- context [isWhiteSpace ?c] =>
           let v := eval vm_compute in (isWhiteSpace c) in
           change (isWhiteSpace c) with v
       end; cbv beta iota zeta.
  all: destruct (parse_digits _ None); [f_equal; lia | reflexivity].
Qed.

Lemma parseInt_toString (z : Z) : parseInt (toString z) = Int z.
Proof.
  destruct z as [| p | p]; cbn [toString].
  - reflexivity.
  - rewrite parseInt_digits by apply digits_of_nat_starts.
    rewrite parse_digits_of_nat. f_equal. lia.
  - unfold parseInt. cbn [trimStart].
    change (isWhiteSpace "-") with false. cbv beta iota zeta.
    rewrite parse_digits_of_nat. f_equal. lia.
Qed.

Lemma toString_truthy (z : Z) : truthy (Some (toString z)) = Some (toString z).
Proof.
  destruct z as [| p | p]; cbn [toString]; try reflexivity.
  pose proof (digits_of_nat_starts (Z.to_nat (Z.pos p))) as H.
  destruct (digits_of_nat (Z.to_nat (Z.pos p))); [destruct H | reflexivity].
Qed.

Lemma cursorIndex_toString (z : Z) (fallback : num) :
  cursorIndex (Some (toString z)) fallback = Int z.
Proof. unfold cursorIndex. rewrite toString_truthy. apply parseInt_toString. Qed.

(** *** Slices *)

Lemma slice_nonneg {A} (l : list A) (a b : Z) :
  0 <= a -> 0 <= b ->
  slice l (Int a) (Int b) = take (Z.to_nat b - Z.to_nat a) (drop (Z.to_nat a) l).
Proof.
  intros Ha Hb. unfold slice, relative_index. cbn [toIntegerOrInfinity].
  destruct (Z.ltb_spec a 0); [lia |]. destruct (Z.ltb_spec b 0); [lia |].
  set (len := length l).
  destruct (Z.le_gt_cases a (Z.of_nat len)) as [Hal | Hal].
  - rewrite (Z.min_l a) by lia.
    destruct (Z.le_gt_cases b (Z.of_nat len)) as [Hbl | Hbl].
    + rewrite (Z.min_l b) by lia. f_equal. lia.
    + rewrite (Z.min_r b) by lia.
      rewrite !take_ge; [reflexivity | rewrite length_drop; lia ..].
  - rewrite (Z.min_r a) by lia.
    rewrite !drop_ge by lia. by rewrite !take_nil.
Qed.

Lemma slice_lookup {A} (l : list A) (a b : Z) (i : nat) :
  0 <= a -> 0 <= b ->
  slice l (Int a) (Int b) !! i
  = if decide (a + Z.of_nat i < b) then l !! Z.to_nat (a + Z.of_nat i) else None.
Proof.
  intros Ha Hb. rewrite slice_nonneg by done.
  rewrite lookup_take. case_decide; case_decide; try lia.
  - rewrite lookup_drop. f_equal. lia.
  - reflexivity.
Qed.

Lemma slice_length {A} (l : list A) (a b : Z) :
  0 <= a <= b -> b <= Z.of_nat (length l) ->
  length (slice l (Int a) (Int b)) = Z.to_nat (b - a).
Proof.
  intros Ha Hb. rewrite slice_nonneg by lia.
  rewrite length_take, length_drop. lia.
Qed.

Lemma slice_NaN {A} (l : list A) : slice l NaN NaN = [].
Proof. unfold slice. cbn. rewrite Z.sub_diag. apply take_0. Qed.

(** [interval] position by position, and [slice] on indices that are not
    negative. *)
Lemma interval_lookup {A} (l : list A) (a b : Z) (i : nat) :
  interval l a b !! i
  = if decide (Z.max a 0 + Z.of_nat i < b)
    then l !! Z.to_nat (Z.max a 0 + Z.of_nat i) else None.
Proof.
  unfold interval. rewrite lookup_take. case_decide; case_decide; try lia.
  - rewrite lookup_drop. f_equal. lia.
  - reflexivity.
Qed.

Lemma slice_interval {A} (l : list A) (a b : Z) :
  0 <= a -> 0 <= b -> slice l (Int a) (Int b) = interval l a b.
Proof. apply slice_nonneg. Qed.

(** *** Running the monad *)

Lemma frame_refl s : frame s s.
Proof. by repeat split. Qed.

Lemma frame_trans s1 s2 s3 : frame s1 s2 -> frame s2 s3 -> frame s1 s3.
Proof. intros (?&?&?) (?&?&?). repeat split; congruence. Qed.

Lemma pure_ret {A} (a : A) : pure_of_caches (ret a).
Proof. intros s. apply frame_refl. Qed.

Lemma pure_bind {A B} (m : M A) (k : A -> M B) :
  pure_of_caches m -> (forall a, pure_of_caches (k a)) ->
  pure_of_caches (bind m k).
Proof.
  intros Hm Hk s. unfold bind. specialize (Hm s).
  destruct (m s) as [a s1]. eapply frame_trans; [exact Hm | apply Hk].
Qed.

Lemma pure_Math_random : pure_of_caches Math_random.
Proof. intros s. by repeat split. Qed.

Lemma pure_Date_now : pure_of_caches Date_now.
Proof. intros s. by repeat split. Qed.

Lemma pure_toString36 q : pure_of_caches (toString36 q).
Proof. intros s. apply frame_refl. Qed.

Lemma pure_simulateLatency a b : pure_of_caches (simulateLatency a b).
Proof. apply pure_bind; [apply pure_Math_random | intros; apply pure_ret]. Qed.

Lemma pure_generateId : pure_of_caches generateId.
Proof.
  apply pure_bind; [apply pure_Math_random | intros r].
  apply pure_bind; [apply pure_toString36 | intros; apply pure_ret].
Qed.

Lemma pure_Array_from_at {A} (f : nat -> M A) (i n : nat) :
  (forall j, pure_of_caches (f j)) -> pure_of_caches (Array_from_at f i n).
Proof.
  intros Hf. revert i. induction n as [| n IH]; intros i; cbn [Array_from_at].
  - apply pure_ret.
  - apply pure_bind; [apply Hf | intros x].
    apply pure_bind; [apply IH | intros; apply pure_ret].
Qed.

Lemma Array_from_at_length {A} (f : nat -> M A) (i n : nat) (s : State) :
  length (fst (Array_from_at f i n s)) = n.
Proof.
  revert i s. induction n as [| n IH]; intros i s; cbn [Array_from_at].
  - reflexivity.
  - unfold bind. destruct (f i s) as [x s1].
    specialize (IH (S i) s1). destruct (Array_from_at f (S i) n s1) as [xs s2].
    cbn in *. by rewrite IH.
Qed.

Lemma Array_from_at_ret {A} (g : nat -> A) (i n : nat) (s : State) :
  Array_from_at (fun j => ret (g j)) i n s = (g <$> seq i n, s).
Proof.
  revert i. induction n as [| n IH]; intros i; cbn [Array_from_at seq fmap list_fmap].
  - reflexivity.
  - unfold bind at 1. cbn [ret]. unfold bind. rewrite IH. reflexivity.
Qed.

Lemma pure_getRandomItem {A} (d : A) arr : pure_of_caches (getRandomItem d arr).
Proof. apply pure_bind; [apply pure_Math_random | intros; apply pure_ret]. Qed.

Lemma pure_generateMessagePreviews count :
  pure_of_caches (generateMessagePreviews count).
Proof.
  apply pure_bind; [apply pure_Date_now | intros now].
  apply pure_bind; [apply pure_generateId | intros cacheId].
  apply pure_Array_from_at. intros j.
  apply pure_bind; [apply pure_getRandomItem | intros].
  apply pure_bind; [apply pure_Math_random | intros r].
  apply pure_bind; [| intros; apply pure_ret].
  destruct (Qlt_le_dec _ _); [| apply pure_ret].
  apply pure_bind; [apply pure_Math_random | intros; apply pure_ret].
Qed.

Lemma generateMessagePreviews_length count s :
  length (fst (generateMessagePreviews count s)) = count.
Proof.
  unfold generateMessagePreviews, bind.
  destruct (Date_now s) as [now s1]. destruct (generateId s1) as [cacheId s2].
  apply Array_from_at_length.
Qed.

Lemma generateChatMessages_run conversationId count s :
  generateChatMessages conversationId count s
  = let '(now, s1) := Date_now s in
    let '(cacheId, s2) := generateId s1 in
    (chatMessageAt now cacheId conversationId count <$> seq 0 count, s2).
Proof.
  unfold generateChatMessages, bind.
  destruct (Date_now s) as [now s1]. destruct (generateId s1) as [cacheId s2].
  apply Array_from_at_ret.
Qed.

Lemma pure_generateChatMessages conversationId count :
  pure_of_caches (generateChatMessages conversationId count).
Proof.
  apply pure_bind; [apply pure_Date_now | intros now].
  apply pure_bind; [apply pure_generateId | intros cacheId].
  apply pure_Array_from_at. intros; apply pure_ret.
Qed.

Lemma generateChatMessages_length conversationId count s :
  length (fst (generateChatMessages conversationId count s)) = count.
Proof.
  unfold generateChatMessages, bind.
  destruct (Date_now s) as [now s1]. destruct (generateId s1) as [cacheId s2].
  apply Array_from_at_length.
Qed.

(** *** One call to a fetch function *)

Lemma simulateLatency_run a b st : simulateLatency a b st = (tt, afterLatency st).
Proof. reflexivity. Qed.

Lemma frame_afterLatency st : frame st (afterLatency st).
Proof. apply pure_Math_random. Qed.

Lemma fetchMessagePreviews_hit count cursor st allMessages :
  messageCache st !! previewsKey count = Some allMessages ->
  fetchMessagePreviews count cursor st
  = (previewsPage allMessages count cursor, afterLatency st).
Proof.
  intros H. unfold fetchMessagePreviews, fetchMessagePreviews_resume.
  unfold bind, simulateLatency, bind, delay, ret, messageCache_get. cbn.
  rewrite H. cbn. rewrite H. reflexivity.
Qed.

Lemma fetchMessagePreviews_miss count cursor st :
  messageCache st !! previewsKey count = None ->
  fetchMessagePreviews count cursor st
  = let '(generated, st1) := generateMessagePreviews (count * 3) (afterLatency st) in
    (previewsPage generated count cursor,
     snd (messageCache_set (previewsKey count) generated st1)).
Proof.
  intros H. unfold fetchMessagePreviews, fetchMessagePreviews_resume.
  unfold bind, simulateLatency, bind, delay, ret, messageCache_get.
  unfold afterLatency, Math_random.
  cbn -[generateMessagePreviews previewsPage]. rewrite H.
  destruct (generateMessagePreviews _ _) as [generated st1].
  cbn -[previewsPage]. rewrite lookup_insert_eq. reflexivity.
Qed.

Lemma fetchChatMessages_hit conversationId count cursor st allMessages :
  chatCache st !! chatKey conversationId = Some allMessages ->
  fetchChatMessages conversationId count cursor st
  = (chatPage allMessages count cursor, afterLatency st).
Proof.
  intros H. unfold fetchChatMessages, fetchChatMessages_resume.
  unfold bind, simulateLatency, bind, delay, ret, chatCache_get. cbn.
  rewrite H. cbn. rewrite H. reflexivity.
Qed.

Lemma fetchChatMessages_miss conversationId count cursor st :
  chatCache st !! chatKey conversationId = None ->
  fetchChatMessages conversationId count cursor st
  = let '(generated, st1) :=
      generateChatMessages conversationId (count * 3) (afterLatency st) in
    (chatPage generated count cursor,
     snd (chatCache_set (chatKey conversationId) generated st1)).
Proof.
  intros H. unfold fetchChatMessages, fetchChatMessages_resume.
  unfold bind, simulateLatency, bind, delay, ret, chatCache_get.
  unfold afterLatency, Math_random.
  cbn -[generateChatMessages chatPage]. rewrite H.
  destruct (generateChatMessages _ _ _) as [generated st1].
  cbn -[chatPage]. rewrite lookup_insert_eq. reflexivity.
Qed.

(** Whatever the cache held, a call answers with a page of the backing
    array and leaves that array in the cache. *)
Lemma fetchMessagePreviews_backing count cursor st :
  let '(page, st') := fetchMessagePreviews count cursor st in
  page = previewsPage (previewsBacking count st) count cursor
  /\ messageCache st' !! previewsKey count = Some (previewsBacking count st)
  /\ (forall k, k <> previewsKey count ->
        messageCache st' !! k = messageCache st !! k)
  /\ chatCache st' = chatCache st.
Proof.
  unfold previewsBacking.
  destruct (messageCache st !! previewsKey count) as [allMessages |] eqn:E.
  - rewrite (fetchMessagePreviews_hit _ _ _ _ E).
    cbn. by repeat split.
  - rewrite (fetchMessagePreviews_miss _ _ _ E).
    pose proof (pure_generateMessagePreviews (count * 3) (afterLatency st)) as Hg.
    destruct (generateMessagePreviews _ _) as [generated st1].
    destruct Hg as (_ & Hm & Hc). cbn in Hm, Hc |- *. rewrite Hm, Hc.
    repeat split.
    + apply lookup_insert_eq.
    + intros k Hk. by rewrite lookup_insert_ne.
Qed.

Lemma fetchChatMessages_backing conversationId count cursor st :
  let '(page, st') := fetchChatMessages conversationId count cursor st in
  page = chatPage (chatBacking conversationId count st) count cursor
  /\ chatCache st' !! chatKey conversationId
     = Some (chatBacking conversationId count st)
  /\ (forall k, k <> chatKey conversationId ->
        chatCache st' !! k = chatCache st !! k)
  /\ messageCache st' = messageCache st.
Proof.
  unfold chatBacking.
  destruct (chatCache st !! chatKey conversationId) as [allMessages |] eqn:E.
  - rewrite (fetchChatMessages_hit _ _ _ _ _ E).
    cbn. by repeat split.
  - rewrite (fetchChatMessages_miss _ _ _ _ E).
    pose proof (pure_generateChatMessages conversationId (count * 3)
                  (afterLatency st)) as Hg.
    destruct (generateChatMessages _ _ _) as [generated st1].
    destruct Hg as (_ & Hm & Hc). cbn in Hm, Hc |- *. rewrite Hm, Hc.
    repeat split.
    + apply lookup_insert_eq.
    + intros k Hk. by rewrite lookup_insert_ne.
Qed.

(** *** Putting pages together *)

Lemma appended_from {T} (pages : list (PaginatedResponse T)) (items : list T) :
  foldl (fun items page => (items ++ data page)%list) items pages
  = (items ++ appended pages)%list.
Proof.
  unfold appended. revert items.
  induction pages as [| p pages IH]; intros items; cbn [foldl].
  - by rewrite app_nil_r.
  - rewrite (IH (items ++ data p)%list), (IH ([] ++ data p)%list).
    cbn. by rewrite app_assoc.
Qed.

Lemma appended_cons {T} (p : PaginatedResponse T) pages :
  appended (p :: pages) = (data p ++ appended pages)%list.
Proof. unfold appended at 1. cbn. apply appended_from. Qed.

Lemma prepended_from {T} (pages : list (PaginatedResponse T)) (items : list T) :
  foldl (fun items page => (data page ++ items)%list) items pages
  = (prepended pages ++ items)%list.
Proof.
  unfold prepended. revert items.
  induction pages as [| p pages IH]; intros items; cbn [foldl].
  - reflexivity.
  - rewrite (IH (data p ++ items)%list), (IH (data p ++ [])%list).
    by rewrite app_nil_r, app_assoc.
Qed.

Lemma prepended_cons {T} (p : PaginatedResponse T) pages :
  prepended (p :: pages) = (prepended pages ++ data p)%list.
Proof.
  unfold prepended at 1. cbn. rewrite prepended_from. by rewrite app_nil_r.
Qed.

Lemma lastCursor_cons {T} (p : PaginatedResponse T) pages :
  lastCursor (p :: pages)
  = match lastCursor pages with
    | Some c => Some c
    | None => nextCursor p
    end.
Proof.
  unfold lastCursor. cbn [omap list_omap].
  destruct (nextCursor p) as [c |]; [| by destruct (last _)].
  rewrite last_cons. reflexivity.
Qed.

Lemma slice_then_drop {A} (l : list A) (a b : Z) :
  0 <= a <= b ->
  (slice l (Int a) (Int b) ++ drop (Z.to_nat b) l)%list = drop (Z.to_nat a) l.
Proof.
  intros H. rewrite slice_nonneg by lia.
  replace (Z.to_nat b) with (Z.to_nat a + (Z.to_nat b - Z.to_nat a))%nat at 2 by lia.
  rewrite <- drop_drop. apply take_drop.
Qed.

Lemma take_then_slice {A} (l : list A) (a b : Z) :
  0 <= a <= b ->
  (take (Z.to_nat a) l ++ slice l (Int a) (Int b))%list = take (Z.to_nat b) l.
Proof.
  intros H. rewrite slice_nonneg by lia.
  rewrite take_take_drop. f_equal. lia.
Qed.

(** *** Forward chains *)

Lemma previewsPage_at {T} (l : list T) (n : nat) cursor (s : Z) :
  cursorIndex cursor (Int 0) = Int s ->
  let e := Z.min (s + Z.min (Z.of_nat n) 20) (Z.of_nat (length l)) in
  previewsPage l n cursor
  = {| data := slice l (Int s) (Int e);
       hasMore := e <? Z.of_nat (length l);
       nextCursor :=
         if e <? Z.of_nat (length l) then Some (toString e) else None |}.
Proof. intros H. unfold previewsPage. rewrite H. reflexivity. Qed.

Section ForwardChain.
Variable count : nat.
Variable allMessages : list MessagePreview.t.
Local Abbreviation L := (Z.of_nat (length allMessages)).
Local Abbreviation pageSize := (Z.min (Z.of_nat count) 20).
Hypothesis progress : length allMessages = 0%nat \/ (1 <= count)%nat.

Lemma previewsChain_run (fuel : nat) :
  forall st cursor s,
    previewsBacking count st = allMessages ->
    cursorIndex cursor (Int 0) = Int s ->
    0 <= s <= L ->
    L - s < Z.of_nat fuel ->
    exists pages st',
      previewsChain fuel count cursor st = (Some pages, st')
      /\ messageCache st' !! previewsKey count = Some allMessages
      /\ appended pages = drop (Z.to_nat s) allMessages
      /\ last pages
         = Some (previewsPage allMessages count
                   (match lastCursor pages with
                    | Some c => Some c
                    | None => cursor
                    end))
      /\ (forall c, lastCursor pages = Some c ->
            exists z, c = toString z /\ s < z < L)
      /\ (s + pageSize < L -> is_Some (lastCursor pages))
      /\ (forall p, last pages = Some p -> hasMore p = false).
Proof.
  induction fuel as [| fuel IH]; intros st cursor s Hback Hcur Hs Hfuel; [lia |].
  cbn [previewsChain]. unfold bind at 1.
  pose proof (fetchMessagePreviews_backing count cursor st) as Hf.
  destruct (fetchMessagePreviews count cursor st) as [page st1].
  destruct Hf as (Hpage & Hcache & _ & _). rewrite Hback in Hpage, Hcache.
  pose proof (previewsPage_at allMessages count cursor s Hcur) as Hat.
  cbv zeta in Hat.
  set (e := Z.min (s + pageSize) L) in *.
  assert (He : 0 <= e <= L) by (subst e; lia).
  destruct (Z.ltb_spec e L) as [Hlt | Hge].
  - assert (Hps : 1 <= pageSize <= 20) by (subst e; lia).
    assert (Hhas : hasMore page = true) by (rewrite Hpage, Hat; done).
    assert (Hnext : nextCursor page = Some (toString e)) by (rewrite Hpage, Hat; done).
    rewrite Hhas, Hnext. unfold bind.
    destruct (IH st1 (Some (toString e)) e) as (pages & st' & Hrun & Hc' & Happ & Hlast & Hcs & _ & Hfin).
    + unfold previewsBacking. by rewrite Hcache.
    + apply cursorIndex_toString.
    + lia.
    + subst e. lia.
    + rewrite Hrun. exists (page :: pages), st'. cbn [fmap option_fmap option_map].
      split; [reflexivity |]. split; [exact Hc' |].
      split; [| split; [| split; [| split]]].
      * rewrite appended_cons, Happ, Hpage, Hat. cbn [data].
        apply slice_then_drop. subst e. lia.
      * rewrite lastCursor_cons, Hnext.
        assert (pages <> []) as Hne by (intros ->; discriminate Hlast).
        rewrite last_cons. rewrite Hlast.
        by destruct (lastCursor pages).
      * intros c. rewrite lastCursor_cons, Hnext.
        destruct (lastCursor pages) as [c' |] eqn:E.
        -- intros [= <-]. destruct (Hcs c' eq_refl) as (z & -> & Hz).
           exists z. split; [done |]. subst e; lia.
        -- intros [= <-]. exists e. split; [done |]. subst e; lia.
      * intros _. rewrite lastCursor_cons, Hnext. by destruct (lastCursor pages).
      * intros p. rewrite last_cons.
        destruct (last pages) as [q |] eqn:E; [| discriminate Hlast].
        intros [= <-]. by apply Hfin.
  - assert (e = L) as HeL by lia.
    assert (Hhas : hasMore page = false) by (rewrite Hpage, Hat; done).
    assert (Hnext : nextCursor page = None) by (rewrite Hpage, Hat; done).
    rewrite Hhas. exists [page], st1. split; [reflexivity |].
    split; [exact Hcache |]. split; [| split; [| split; [| split]]].
    + unfold appended. cbn. rewrite Hpage, Hat. cbn [data]. rewrite HeL.
      rewrite <- (slice_then_drop allMessages s L) by lia.
      rewrite Nat2Z.id, drop_all. by rewrite app_nil_r.
    + unfold lastCursor. cbn. rewrite Hnext. cbn. by rewrite Hpage.
    + unfold lastCursor. cbn. rewrite Hnext. discriminate.
    + subst e. lia.
    + intros p [= <-]. exact Hhas.
Qed.
End ForwardChain.

(** *** Backward chains *)

Lemma chatPage_at {T} (l : list T) (n : nat) cursor (e : Z) :
  cursorIndex cursor (Int (Z.of_nat (length l))) = Int e ->
  let s := Z.max (e - Z.min (Z.of_nat n) 20) 0 in
  chatPage l n cursor
  = {| data := slice l (Int s) (Int e);
       hasMore := 0 <? s;
       nextCursor := if 0 <? s then Some (toString s) else None |}.
Proof. intros H. unfold chatPage. rewrite H. reflexivity. Qed.

Section BackwardChain.
Variable conversationId : string.
Variable count : nat.
Variable allMessages : list ChatMessage.t.
Local Abbreviation L := (Z.of_nat (length allMessages)).
Local Abbreviation pageSize := (Z.min (Z.of_nat count) 20).
Hypothesis progress : length allMessages = 0%nat \/ (1 <= count)%nat.

Lemma chatChain_run (fuel : nat) :
  forall st cursor e,
    chatBacking conversationId count st = allMessages ->
    cursorIndex cursor (Int L) = Int e ->
    0 <= e <= L ->
    e < Z.of_nat fuel ->
    exists pages st',
      chatChain fuel conversationId count cursor st = (Some pages, st')
      /\ chatCache st' !! chatKey conversationId = Some allMessages
      /\ prepended pages = take (Z.to_nat e) allMessages
      /\ last pages
         = Some (chatPage allMessages count
                   (match lastCursor pages with
                    | Some c => Some c
                    | None => cursor
                    end))
      /\ (forall c, lastCursor pages = Some c ->
            exists z, c = toString z /\ 0 < z < e)
      /\ (pageSize < e -> is_Some (lastCursor pages))
      /\ (forall p, last pages = Some p -> hasMore p = false).
Proof.
  induction fuel as [| fuel IH]; intros st cursor e Hback Hcur He Hfuel; [lia |].
  cbn [chatChain]. unfold bind at 1.
  pose proof (fetchChatMessages_backing conversationId count cursor st) as Hf.
  destruct (fetchChatMessages conversationId count cursor st) as [page st1].
  destruct Hf as (Hpage & Hcache & _ & _). rewrite Hback in Hpage, Hcache.
  pose proof (chatPage_at allMessages count cursor e Hcur) as Hat.
  cbv zeta in Hat.
  set (s := Z.max (e - pageSize) 0) in *.
  assert (Hs : 0 <= s <= e) by (subst s; lia).
  destruct (Z.ltb_spec 0 s) as [Hlt | Hge].
  - assert (Hps : 1 <= pageSize <= 20) by (subst s; lia).
    assert (Hhas : hasMore page = true) by (rewrite Hpage, Hat; done).
    assert (Hnext : nextCursor page = Some (toString s)) by (rewrite Hpage, Hat; done).
    rewrite Hhas, Hnext. unfold bind.
    destruct (IH st1 (Some (toString s)) s)
      as (pages & st' & Hrun & Hc' & Hpre & Hlast & Hcs & _ & Hfin).
    + unfold chatBacking. by rewrite Hcache.
    + apply cursorIndex_toString.
    + lia.
    + subst s. lia.
    + rewrite Hrun. exists (page :: pages), st'. cbn [fmap option_fmap option_map].
      split; [reflexivity |]. split; [exact Hc' |].
      split; [| split; [| split; [| split]]].
      * rewrite prepended_cons, Hpre, Hpage, Hat. cbn [data].
        apply take_then_slice. lia.
      * rewrite lastCursor_cons, Hnext.
        assert (pages <> []) as Hne by (intros ->; discriminate Hlast).
        rewrite last_cons. rewrite Hlast.
        by destruct (lastCursor pages).
      * intros c. rewrite lastCursor_cons, Hnext.
        destruct (lastCursor pages) as [c' |] eqn:E.
        -- intros [= <-]. destruct (Hcs c' eq_refl) as (z & -> & Hz).
           exists z. split; [done |]. subst s; lia.
        -- intros [= <-]. exists s. split; [done |]. subst s; lia.
      * intros _. rewrite lastCursor_cons, Hnext. by destruct (lastCursor pages).
      * intros p. rewrite last_cons.
        destruct (last pages) as [q |] eqn:E; [| discriminate Hlast].
        intros [= <-]. by apply Hfin.
  - assert (s = 0) as Hs0 by lia.
    assert (Hhas : hasMore page = false) by (rewrite Hpage, Hat; done).
    assert (Hnext : nextCursor page = None) by (rewrite Hpage, Hat; done).
    rewrite Hhas. exists [page], st1. split; [reflexivity |].
    split; [exact Hcache |]. split; [| split; [| split; [| split]]].
    + unfold prepended. cbn. rewrite Hpage, Hat. cbn [data]. rewrite Hs0.
      rewrite slice_nonneg by lia. cbn. rewrite app_nil_r. f_equal. lia.
    + unfold lastCursor. cbn. rewrite Hnext. cbn. by rewrite Hpage.
    + unfold lastCursor. cbn. rewrite Hnext. discriminate.
    + subst s. lia.
    + intros p [= <-]. exact Hhas.
Qed.
End BackwardChain.

Lemma cursorAt_index cursor absent z :
  cursorAt cursor absent z -> cursorIndex cursor (Int absent) = Int z.
Proof.
  destruct cursor as [[| a c] |]; cbn; unfold cursorIndex; cbn.
  - discriminate.
  - done.
  - congruence.
Qed.

(** C9: [generateChatMessages] always returns, with exactly [count]
    messages; timestamps go up by two minutes from one message to the
    next, hence never decrease along the array; the message at an even
    index is outgoing (sent by ['current-user']) and the one at an odd
    index is incoming. *)
Theorem generateChatMessages_shape (conversationId : string) (count : nat)
    (st : State) :
  let messages := fst (generateChatMessages conversationId count st) in
  length messages = count
  /\ (forall i m, messages !! i = Some m ->
        ChatMessage.conversationId m = conversationId
        /\ ChatMessage.isSent m = Nat.even i
        /\ ChatMessage.senderId m
           = if Nat.even i then "current-user" else "other-user")
  /\ (forall i m m', messages !! i = Some m -> messages !! S i = Some m' ->
        ChatMessage.timestamp m' = ChatMessage.timestamp m + 2 * 60 * 1000)
  /\ (forall i j m m', (i <= j)%nat ->
        messages !! i = Some m -> messages !! j = Some m' ->
        ChatMessage.timestamp m <= ChatMessage.timestamp m').
Proof.
  cbv zeta. rewrite generateChatMessages_run.
  destruct (Date_now st) as [now s1]. destruct (generateId s1) as [cacheId s2].
  cbn [fst].
  assert (Hget : forall i m,
             (chatMessageAt now cacheId conversationId count <$> seq 0 count) !! i
             = Some m ->
             m = chatMessageAt now cacheId conversationId count i).
  { intros i m. rewrite list_lookup_fmap.
    destruct (seq 0 count !! i) as [k |] eqn:E; [| discriminate].
    apply lookup_seq in E as [-> _]. by intros [= <-]. }
  assert (Hpar : forall i, (i mod 2 =? 0)%nat = Nat.even i).
  { intros i.
    destruct (Nat.even i) eqn:Ev.
    - apply Nat.even_spec in Ev as [k ->]. apply Nat.eqb_eq.
      rewrite Nat.mul_comm. apply Nat.Div0.mod_mul.
    - apply Nat.eqb_neq. intros H.
      apply Nat.Div0.mod_divides in H as [k ->].
      rewrite Nat.even_mul in Ev. discriminate. }
  split; [by rewrite length_fmap, length_seq |].
  split; [| split].
  - intros i m Hm. apply Hget in Hm as ->. unfold chatMessageAt.
    cbn [ChatMessage.conversationId ChatMessage.isSent ChatMessage.senderId].
    by rewrite Hpar.
  - intros i m m' Hm Hm'. apply Hget in Hm as ->. apply Hget in Hm' as ->.
    unfold chatMessageAt. cbn [ChatMessage.timestamp]. lia.
  - intros i j m m' Hij Hm Hm'. apply Hget in Hm as ->. apply Hget in Hm' as ->.
    unfold chatMessageAt. cbn [ChatMessage.timestamp]. lia.
Qed.

Lemma generateChatMessages_shape_witness :
  length (fst (generateChatMessages "c1" 4 demoState)) = 4%nat
  /\ ChatMessage.senderId
       (chatMessageAt 1700000000000 "k3j9x2m5p" "c1" 4 1) = "other-user"
  /\ ChatMessage.timestamp (chatMessageAt 1700000000000 "k3j9x2m5p" "c1" 4 1)
     = ChatMessage.timestamp (chatMessageAt 1700000000000 "k3j9x2m5p" "c1" 4 0)
       + 2 * 60 * 1000
  /\ ChatMessage.timestamp (chatMessageAt 1700000000000 "k3j9x2m5p" "c1" 4 0)
     <= ChatMessage.timestamp (chatMessageAt 1700000000000 "k3j9x2m5p" "c1" 4 3).
Proof.
  destruct (generateChatMessages_shape "c1" 4 demoState)
    as (Hlen & Hsender & Hstep & Hmono).
  split; [exact Hlen |]. split; [| split].
  - apply (Hsender 1%nat _ eq_refl).
  - apply (Hstep 0%nat _ _ eq_refl eq_refl).
  - apply (Hmono 0%nat 3%nat _ _ ltac:(lia) eq_refl eq_refl).
Defined.

(** What [sendMessage] does to the caches. *)
Lemma sendMessage_caches (conversationId text : string) (st : State) :
  let '(newMessage, st') := sendMessage conversationId text st in
  chatCache st' !! chatKey conversationId
  = (fun messages => (messages ++ [newMessage])%list)
      <$> chatCache st !! chatKey conversationId
  /\ (forall k, k <> chatKey conversationId ->
        chatCache st' !! k = chatCache st !! k)
  /\ messageCache st' = messageCache st.
Proof.
  unfold sendMessage, sendMessage_resume, bind, simulateLatency, bind, delay,
    ret, generateId, bind, Math_random, Date_now, toString36, ret,
    chatCache_get, chatCache_set.
  cbn -[substring chatKey].
  destruct (chatCache st !! chatKey conversationId) as [messages |] eqn:E;
    cbn -[substring chatKey].
  - split; [by rewrite lookup_insert_eq |]. split; [| done].
    intros k Hk. by rewrite lookup_insert_ne.
  - by rewrite E.
Qed.

(** C8, amended: [sendMessage] returns the message it builds: outgoing,
    from ['current-user'], for the given conversation, with the given
    text, and with an id made of the characters 2 to 10 of the base-36
    rendering of a [Math.random()] value that this call draws (its second
    draw, after the one for the latency; the call consumes both).  In the
    chat cache only the entry of that conversation can change: if it
    exists the message is added at its end, if it does not exist nothing
    is created; the preview cache is not touched. *)
Theorem sendMessage_effect (conversationId text : string) (st : State) :
  let '(newMessage, st') := sendMessage conversationId text st in
  ChatMessage.isSent newMessage = true
  /\ ChatMessage.senderId newMessage = "current-user"
  /\ ChatMessage.conversationId newMessage = conversationId
  /\ ChatMessage.text newMessage = text
  /\ ChatMessage.id newMessage
     = substring 2 9 (radix36 (runtime st)
                        (mathRandom (runtime st) (S (drawn st))))
  /\ (runtime st' = runtime st /\ drawn st' = S (S (drawn st)))
  /\ chatCache st' !! chatKey conversationId
     = (fun messages => (messages ++ [newMessage])%list)
         <$> chatCache st !! chatKey conversationId
  /\ (chatCache st !! chatKey conversationId = None ->
      chatCache st' = chatCache st)
  /\ (forall k, k <> chatKey conversationId ->
        chatCache st' !! k = chatCache st !! k)
  /\ messageCache st' = messageCache st.
Proof.
  unfold sendMessage, sendMessage_resume, bind, simulateLatency, bind, delay,
    ret, generateId, bind, Math_random, Date_now, toString36, ret,
    chatCache_get, chatCache_set.
  cbn -[substring chatKey].
  destruct (chatCache st !! chatKey conversationId) as [messages |] eqn:E;
    cbn -[substring chatKey].
  - repeat split; try done.
    + by rewrite lookup_insert_eq.
    + intros k Hk. by rewrite lookup_insert_ne.
  - repeat split; done.
Qed.

Lemma sendMessage_effect_witness :
  chatCache (snd (sendMessage "c2" "hi" demoLoaded)) = chatCache demoLoaded
  /\ chatCache (snd (sendMessage "c1" "hi" demoLoaded)) !! chatKey "c1"
     = Some ((demoMessage <$> ["m0"; "m1"; "m2"; "m3"; "m4"])
             ++ [fst (sendMessage "c1" "hi" demoLoaded)])%list
  /\ ChatMessage.id (fst (sendMessage "c1" "hi" demoLoaded)) = "k3j9x2m5p".
Proof.
  pose proof (sendMessage_effect "c2" "hi" demoLoaded) as Habsent.
  pose proof (sendMessage_effect "c1" "hi" demoLoaded) as Hpresent.
  destruct (sendMessage "c2" "hi" demoLoaded) as [m2 st2].
  destruct (sendMessage "c1" "hi" demoLoaded) as [m1 st1].
  destruct Habsent as (_ & _ & _ & _ & _ & _ & _ & Hsame & _).
  destruct Hpresent as (_ & _ & _ & _ & Hid & _ & Hkey & _).
  split; [exact (Hsame eq_refl) |]. split; [exact Hkey | exact Hid].
Defined.

(** C8 as stated fails on the id: it is made from a random draw and
    nothing compares it with the ids already in use.  When [Math.random()]
    returns one half twice, two messages sent to the same conversation
    both get the id "i", and the second one joins the first in the cache
    entry. *)
Lemma sent_ids_collide :
  let '(first, st1) := sendMessage "c1" "hi" sameDrawLoaded in
  let '(second, st2) := sendMessage "c1" "again" st1 in
  chatCache st1 !! chatKey "c1" = Some [demoMessage "m0"; first]
  /\ ChatMessage.id first = "i"
  /\ ChatMessage.id second = "i"
  /\ chatCache st2 !! chatKey "c1" = Some [demoMessage "m0"; first; second]
  /\ ~ (ChatMessage.id second
        ∉ ChatMessage.id <$> default [] (chatCache st1 !! chatKey "c1")).
Proof.
  vm_compute.
  split; [reflexivity |]. split; [reflexivity |]. split; [reflexivity |].
  split; [reflexivity |].
  intros H. apply H. right. left.
Qed.

(** C10, amended: for a cursor that is not the empty string and on which
    [parseInt] yields [NaN], both fetch functions return the empty page:
    no data, [hasMore = false], no next cursor. *)
Theorem unparsable_cursor_page (cursor conversationId : string) (count : nat)
    (st : State) :
  cursor <> "" ->
  parseInt cursor = NaN ->
  fst (fetchMessagePreviews count (Some cursor) st)
  = {| data := []; hasMore := false; nextCursor := None |}
  /\ fst (fetchChatMessages conversationId count (Some cursor) st)
     = {| data := []; hasMore := false; nextCursor := None |}.
Proof.
  intros Hne Hnan.
  assert (Hidx : forall fallback, cursorIndex (Some cursor) fallback = NaN).
  { intros fallback. unfold cursorIndex. destruct cursor; [done | exact Hnan]. }
  split.
  - pose proof (fetchMessagePreviews_backing count (Some cursor) st) as H.
    destruct (fetchMessagePreviews _ _ _) as [page st']. destruct H as (-> & _).
    cbn [fst]. unfold previewsPage. rewrite Hidx. cbn. by rewrite slice_NaN.
  - pose proof (fetchChatMessages_backing conversationId count (Some cursor) st) as H.
    destruct (fetchChatMessages _ _ _ _) as [page st']. destruct H as (-> & _).
    cbn [fst]. unfold chatPage. rewrite Hidx. cbn. by rewrite slice_NaN.
Qed.

Lemma unparsable_cursor_page_witness :
  fst (fetchMessagePreviews 2 (Some "next") demoLoaded)
  = {| data := []; hasMore := false; nextCursor := None |}
  /\ fst (fetchChatMessages "c1" 2 (Some "next") demoLoaded)
     = {| data := []; hasMore := false; nextCursor := None |}.
Proof.
  apply (unparsable_cursor_page "next" "c1" 2 demoLoaded).
  - discriminate.
  - reflexivity.
Defined.

(** C10 as stated fails on the empty string: [parseInt] yields [NaN] on
    it, yet the call is answered with the first page. *)
Lemma empty_cursor_served :
  parseInt "" = NaN
  /\ data (fst (fetchMessagePreviews 2 (Some "") demoLoaded))
     = demoPreview <$> ["a"; "b"]
  /\ hasMore (fst (fetchMessagePreviews 2 (Some "") demoLoaded)) = true
  /\ data (fst (fetchChatMessages "c1" 2 (Some "") demoLoaded))
     = demoMessage <$> ["m3"; "m4"]
  /\ hasMore (fst (fetchChatMessages "c1" 2 (Some "") demoLoaded)) = true
  /\ ~ (parseInt "" = NaN ->
        fst (fetchMessagePreviews 2 (Some "") demoLoaded)
        = {| data := []; hasMore := false; nextCursor := None |}
        /\ fst (fetchChatMessages "c1" 2 (Some "") demoLoaded)
           = {| data := []; hasMore := false; nextCursor := None |}).
Proof.
  repeat split; try (vm_compute; reflexivity).
  intros H. destruct (H eq_refl) as [H1 _]. vm_compute in H1. discriminate H1.
Qed.

(** C1, amended: a call served from the cache entry [allMessages] of
    length [L], with no cursor or with a cursor that parses to an integer
    [start >= 0], answers with the items of [allMessages] at the indices
    from [start] up to [e - 1], where [e = min(start + min(count, 20), L)]
    (no item when [start >= L], however large [start] is); [hasMore] says
    whether [e < L], and [nextCursor] is [e] in decimal when [hasMore] and
    undefined otherwise.  From an empty preview cache, three calls with
    [count = 20] chained through the cursors give 20 items and cursor
    "20", 20 items and cursor "40", then 20 items, [hasMore = false] and
    no cursor. *)
Theorem fetchMessagePreviews_page (count : nat) (cursor : option string)
    (st : State) (allMessages : list MessagePreview.t) (start : Z) :
  messageCache st !! previewsKey count = Some allMessages ->
  cursorAt cursor 0 start ->
  0 <= start ->
  let L := Z.of_nat (length allMessages) in
  let e := Z.min (start + Z.min (Z.of_nat count) 20) L in
  let page := fst (fetchMessagePreviews count cursor st) in
  (data page = interval allMessages start e
   /\ (forall i : nat,
         data page !! i
         = if decide (start + Z.of_nat i < e)
           then allMessages !! Z.to_nat (start + Z.of_nat i) else None)
   /\ (hasMore page = true <-> e < L)
   /\ nextCursor page = (if hasMore page then Some (toString e) else None))
  /\ (forall st0, messageCache st0 = ∅ ->
        let '(page1, st1) := fetchMessagePreviews 20 None st0 in
        let '(page2, st2) := fetchMessagePreviews 20 (nextCursor page1) st1 in
        let '(page3, st3) := fetchMessagePreviews 20 (nextCursor page2) st2 in
        (length (data page1) = 20%nat /\ hasMore page1 = true
         /\ nextCursor page1 = Some "20")
        /\ (length (data page2) = 20%nat /\ hasMore page2 = true
            /\ nextCursor page2 = Some "40")
        /\ (length (data page3) = 20%nat /\ hasMore page3 = false
            /\ nextCursor page3 = None)).
Proof.
  intros Hhit Hcur Hstart. cbv zeta. split.
  - rewrite (fetchMessagePreviews_hit _ _ _ _ Hhit). cbn [fst].
    rewrite (previewsPage_at allMessages count cursor start)
      by (by apply cursorAt_index).
    cbn [data hasMore nextCursor].
    split; [apply slice_interval; lia |]. split; [| split].
    + intros i. apply slice_lookup; lia.
    + apply Z.ltb_lt.
    + reflexivity.
  - clear. intros st0 Hempty.
    assert (Hmiss : messageCache st0 !! previewsKey 20 = None)
      by (rewrite Hempty; apply lookup_empty).
    rewrite (fetchMessagePreviews_miss _ _ _ Hmiss).
    pose proof (generateMessagePreviews_length (20 * 3) (afterLatency st0)) as Hlen.
    destruct (generateMessagePreviews _ _) as [generated st']. cbn [fst] in Hlen.
    assert (Hc : messageCache (snd (messageCache_set (previewsKey 20) generated st'))
                 !! previewsKey 20 = Some generated) by apply lookup_insert_eq.
    set (st1 := snd (messageCache_set (previewsKey 20) generated st')) in *.
    rewrite (previewsPage_at generated 20 None 0 eq_refl).
    rewrite Hlen. cbn [nextCursor].
    change (Z.min (0 + Z.min (Z.of_nat 20) 20) (Z.of_nat (20 * 3))) with 20.
    change (20 <? Z.of_nat (20 * 3)) with true. cbv iota.
    rewrite (fetchMessagePreviews_hit _ _ _ _ Hc).
    rewrite (previewsPage_at generated 20 (Some (toString 20)) 20)
      by apply cursorIndex_toString.
    rewrite Hlen. cbn [nextCursor].
    change (Z.min (20 + Z.min (Z.of_nat 20) 20) (Z.of_nat (20 * 3))) with 40.
    change (40 <? Z.of_nat (20 * 3)) with true. cbv iota.
    assert (Hc' : messageCache (afterLatency st1) !! previewsKey 20 = Some generated)
      by exact Hc.
    rewrite (fetchMessagePreviews_hit _ _ _ _ Hc').
    rewrite (previewsPage_at generated 20 (Some (toString 40)) 40)
      by apply cursorIndex_toString.
    rewrite Hlen.
    change (Z.min (40 + Z.min (Z.of_nat 20) 20) (Z.of_nat (20 * 3))) with 60.
    change (60 <? Z.of_nat (20 * 3)) with false. cbv iota.
    cbn [data hasMore nextCursor].
    rewrite !slice_length by (rewrite ?Hlen; lia).
    repeat split; reflexivity.
Qed.

Lemma fetchMessagePreviews_page_witness :
  data (fst (fetchMessagePreviews 2 (Some "2") demoLoaded))
  = demoPreview <$> ["c"; "d"]
  /\ nextCursor (fst (fetchMessagePreviews 2 (Some "2") demoLoaded)) = Some "4"
  /\ nextCursor (fst (fetchMessagePreviews 20 None demoState)) = Some "20".
Proof.
  pose proof (fetchMessagePreviews_page 2 (Some "2") demoLoaded
                (demoPreview <$> ["a"; "b"; "c"; "d"; "e"]) 2
                eq_refl eq_refl ltac:(lia)) as [(Hdata & _ & Hmore & Hnext) Hchain].
  split; [exact Hdata |]. split.
  - rewrite Hnext. destruct Hmore as [_ Hmore]. rewrite Hmore; [reflexivity |].
    vm_compute. reflexivity.
  - specialize (Hchain demoState eq_refl).
    destruct (fetchMessagePreviews 20 None demoState) as [page1 st1].
    destruct (fetchMessagePreviews 20 (nextCursor page1) st1) as [page2 st2].
    destruct (fetchMessagePreviews 20 (nextCursor page2) st2) as [page3 st3].
    apply Hchain.
Defined.

(** C1 as stated fails on a cursor that parses to a negative integer:
    [slice] counts a negative index from the end of the array.  With five
    cached previews and [count = 2], the cursor "-3" gives [start = -3]
    and [e = -1]; no index lies in the interval from -3 up to -2, yet the
    call answers with the previews at the indices 2 and 3. *)
Lemma negative_cursor_previews_page :
  messageCache demoLoaded !! previewsKey 2
  = Some (demoPreview <$> ["a"; "b"; "c"; "d"; "e"])
  /\ parseInt "-3" = Int (-3)
  /\ data (fst (fetchMessagePreviews 2 (Some "-3") demoLoaded))
     = demoPreview <$> ["c"; "d"]
  /\ interval (demoPreview <$> ["a"; "b"; "c"; "d"; "e"])
       (-3) (Z.min (-3 + Z.min 2 20) 5) = []
  /\ ~ (data (fst (fetchMessagePreviews 2 (Some "-3") demoLoaded))
        = interval (demoPreview <$> ["a"; "b"; "c"; "d"; "e"])
            (-3) (Z.min (-3 + Z.min 2 20) 5)).
Proof.
  split; [reflexivity |]. split; [reflexivity |].
  split; [vm_compute; reflexivity |]. split; [reflexivity |].
  intros H. vm_compute in H. discriminate H.
Qed.

(** C2, amended: a call served from the cache entry [allMessages] of
    length [L], with no cursor or with a cursor that parses to an integer
    [e] with [0 <= e <= MAX_SAFE_INTEGER], answers with the items of
    [allMessages] at the indices from [s] up to [e - 1], in the order of
    the cache (oldest first), where [e] stands for [L] without a cursor
    and [s = max(e - min(count, 20), 0)]; [hasMore] says whether [s > 0],
    and [nextCursor] is [s] in decimal when [hasMore] and undefined
    otherwise. *)
Theorem fetchChatMessages_page (conversationId : string) (count : nat)
    (cursor : option string) (st : State) (allMessages : list ChatMessage.t)
    (e : Z) :
  chatCache st !! chatKey conversationId = Some allMessages ->
  cursorAt cursor (Z.of_nat (length allMessages)) e ->
  0 <= e <= MAX_SAFE_INTEGER ->
  let s := Z.max (e - Z.min (Z.of_nat count) 20) 0 in
  let page := fst (fetchChatMessages conversationId count cursor st) in
  data page = interval allMessages s e
  /\ (forall i : nat,
        data page !! i
        = if decide (s + Z.of_nat i < e)
          then allMessages !! Z.to_nat (s + Z.of_nat i) else None)
  /\ (hasMore page = true <-> 0 < s)
  /\ nextCursor page = (if hasMore page then Some (toString s) else None).
Proof.
  intros Hhit Hcur He. cbv zeta.
  rewrite (fetchChatMessages_hit _ _ _ _ _ Hhit). cbn [fst].
  rewrite (chatPage_at allMessages count cursor e) by (by apply cursorAt_index).
  cbn [data hasMore nextCursor].
  split; [apply slice_interval; lia |]. split; [| split].
  - intros i. apply slice_lookup; lia.
  - apply Z.ltb_lt.
  - reflexivity.
Qed.

Lemma fetchChatMessages_page_witness :
  data (fst (fetchChatMessages "c1" 2 (Some "3") demoLoaded))
  = demoMessage <$> ["m1"; "m2"]
  /\ nextCursor (fst (fetchChatMessages "c1" 2 (Some "3") demoLoaded)) = Some "1".
Proof.
  pose proof (fetchChatMessages_page "c1" 2 (Some "3") demoLoaded
                (demoMessage <$> ["m0"; "m1"; "m2"; "m3"; "m4"]) 3
                eq_refl eq_refl ltac:(unfold MAX_SAFE_INTEGER; lia))
    as (Hdata & _ & Hmore & Hnext).
  split; [exact Hdata |].
  rewrite Hnext. destruct Hmore as [_ Hmore]. rewrite Hmore; [reflexivity |].
  vm_compute. reflexivity.
Defined.

(** C2 as stated fails on a cursor that parses to a negative integer.
    With five cached messages and [count = 2], the cursor "-1" gives
    [e = -1] and [s = 0]; no index lies in the interval from 0 up to -2,
    yet the call answers with the four oldest messages. *)
Lemma negative_cursor_chat_page :
  chatCache demoLoaded !! chatKey "c1"
  = Some (demoMessage <$> ["m0"; "m1"; "m2"; "m3"; "m4"])
  /\ parseInt "-1" = Int (-1)
  /\ data (fst (fetchChatMessages "c1" 2 (Some "-1") demoLoaded))
     = demoMessage <$> ["m0"; "m1"; "m2"; "m3"]
  /\ interval (demoMessage <$> ["m0"; "m1"; "m2"; "m3"; "m4"])
       (Z.max (-1 - Z.min 2 20) 0) (-1) = []
  /\ ~ (data (fst (fetchChatMessages "c1" 2 (Some "-1") demoLoaded))
        = interval (demoMessage <$> ["m0"; "m1"; "m2"; "m3"; "m4"])
            (Z.max (-1 - Z.min 2 20) 0) (-1)).
Proof.
  split; [reflexivity |]. split; [reflexivity |].
  split; [vm_compute; reflexivity |]. split; [reflexivity |].
  intros H. vm_compute in H. discriminate H.
Qed.

(** More fuel does not change a chain that has completed. *)
Lemma previewsChain_more (fuel : nat) :
  forall fuel' count cursor st pages st',
    (fuel <= fuel')%nat ->
    previewsChain fuel count cursor st = (Some pages, st') ->
    previewsChain fuel' count cursor st = (Some pages, st').
Proof.
  induction fuel as [| fuel IH]; intros fuel' count cursor st pages st' Hle;
    [discriminate |].
  destruct fuel' as [| fuel']; [lia |].
  cbn [previewsChain]. unfold bind at 1 3.
  destruct (fetchMessagePreviews count cursor st) as [page st1].
  destruct (hasMore page); [| done].
  unfold bind.
  destruct (previewsChain fuel count (nextCursor page) st1) as [[rest |] st2] eqn:E;
    [| discriminate].
  rewrite (IH fuel' _ _ _ _ _ ltac:(lia) E). done.
Qed.

Lemma chatChain_more (fuel : nat) :
  forall fuel' conversationId count cursor st pages st',
    (fuel <= fuel')%nat ->
    chatChain fuel conversationId count cursor st = (Some pages, st') ->
    chatChain fuel' conversationId count cursor st = (Some pages, st').
Proof.
  induction fuel as [| fuel IH];
    intros fuel' conversationId count cursor st pages st' Hle; [discriminate |].
  destruct fuel' as [| fuel']; [lia |].
  cbn [chatChain]. unfold bind at 1 3.
  destruct (fetchChatMessages conversationId count cursor st) as [page st1].
  destruct (hasMore page); [| done].
  unfold bind.
  destruct (chatChain fuel conversationId count (nextCursor page) st1)
    as [[rest |] st2] eqn:E; [| discriminate].
  rewrite (IH fuel' _ _ _ _ _ _ ltac:(lia) E). done.
Qed.

Lemma previewsPage_final {T} (l : list T) (n : nat) cursor :
  hasMore (previewsPage l n cursor) = false ->
  nextCursor (previewsPage l n cursor) = None.
Proof. unfold previewsPage. cbn. by intros ->. Qed.

Lemma chatPage_final {T} (l : list T) (n : nat) cursor :
  hasMore (chatPage l n cursor) = false ->
  nextCursor (chatPage l n cursor) = None.
Proof. unfold chatPage. cbn. by intros ->. Qed.

Lemma generated_progress (count n : nat) :
  n = (count * 3)%nat -> n = 0%nat \/ (1 <= count)%nat.
Proof. lia. Qed.

(** The chain of a first visit, forward. *)
Lemma previewsChain_first (count : nat) (st : State) :
  messageCache st !! previewsKey count = None ->
  let generated := fst (generateMessagePreviews (count * 3) (afterLatency st)) in
  exists pages st',
    previewsChain (S (count * 3)) count None st = (Some pages, st')
    /\ messageCache st' !! previewsKey count = Some generated
    /\ appended pages = generated
    /\ last pages
       = Some (previewsPage generated count (lastCursor pages))
    /\ (forall c, lastCursor pages = Some c ->
          exists z, c = toString z /\ 0 < z < Z.of_nat (count * 3))
    /\ ((1 <= count)%nat -> is_Some (lastCursor pages))
    /\ (forall p, last pages = Some p -> hasMore p = false).
Proof.
  intros Hmiss generated.
  assert (Hlen : length generated = (count * 3)%nat)
    by apply generateMessagePreviews_length.
  destruct (previewsChain_run count generated (generated_progress _ _ Hlen)
              (S (count * 3)) st None 0)
    as (pages & st' & Hrun & Hc & Happ & Hlast & Hcs & Hsome & Hfin).
  - unfold previewsBacking. by rewrite Hmiss.
  - reflexivity.
  - lia.
  - lia.
  - exists pages, st'. rewrite Hlen in Hcs, Hsome.
    repeat split; try done.
    + rewrite Hlast. by destruct (lastCursor pages).
    + intros Hcount. apply Hsome. lia.
Qed.

Lemma chatChain_first (conversationId : string) (count : nat) (st : State) :
  chatCache st !! chatKey conversationId = None ->
  let generated :=
    fst (generateChatMessages conversationId (count * 3) (afterLatency st)) in
  exists pages st',
    chatChain (S (count * 3)) conversationId count None st = (Some pages, st')
    /\ chatCache st' !! chatKey conversationId = Some generated
    /\ prepended pages = generated
    /\ last pages
       = Some (chatPage generated count (lastCursor pages))
    /\ (forall c, lastCursor pages = Some c ->
          exists z, c = toString z /\ 0 < z < Z.of_nat (count * 3))
    /\ ((1 <= count)%nat -> is_Some (lastCursor pages))
    /\ (forall p, last pages = Some p -> hasMore p = false).
Proof.
  intros Hmiss generated.
  assert (Hlen : length generated = (count * 3)%nat)
    by apply generateChatMessages_length.
  destruct (chatChain_run conversationId count generated
              (generated_progress _ _ Hlen)
              (S (count * 3)) st None (Z.of_nat (length generated)))
    as (pages & st' & Hrun & Hc & Hpre & Hlast & Hcs & Hsome & Hfin).
  - unfold chatBacking. by rewrite Hmiss.
  - reflexivity.
  - lia.
  - lia.
  - exists pages, st'. rewrite Hlen in Hcs, Hsome.
    repeat split; try done.
    + rewrite Hpre, Nat2Z.id. by apply take_ge.
    + rewrite Hlast. by destruct (lastCursor pages).
    + intros Hcount. apply Hsome. lia.
Qed.

(** C3: from a cache without the entry, following the cursors of
    [fetchMessagePreviews] until [hasMore] is false terminates, and the
    pages appended in fetch order are exactly the generated array, which
    is the one left in the cache; the same for [fetchChatMessages], each
    page being put in front of the earlier ones. *)
Theorem pagination_coverage (conversationId : string) (count : nat) (st : State) :
  (messageCache st !! previewsKey count = None ->
   exists pages st',
     (forall fuel, (count * 3 < fuel)%nat ->
        previewsChain fuel count None st = (Some pages, st'))
     /\ appended pages
        = fst (generateMessagePreviews (count * 3) (afterLatency st))
     /\ messageCache st' !! previewsKey count = Some (appended pages))
  /\ (chatCache st !! chatKey conversationId = None ->
      exists pages st',
        (forall fuel, (count * 3 < fuel)%nat ->
           chatChain fuel conversationId count None st = (Some pages, st'))
        /\ prepended pages
           = fst (generateChatMessages conversationId (count * 3)
                    (afterLatency st))
        /\ chatCache st' !! chatKey conversationId = Some (prepended pages)).
Proof.
  split; intros Hmiss.
  - destruct (previewsChain_first count st Hmiss)
      as (pages & st' & Hrun & Hc & Happ & _).
    exists pages, st'. split; [| split].
    + intros fuel Hfuel. eapply previewsChain_more; [| exact Hrun]. lia.
    + exact Happ.
    + by rewrite Happ.
  - destruct (chatChain_first conversationId count st Hmiss)
      as (pages & st' & Hrun & Hc & Hpre & _).
    exists pages, st'. split; [| split].
    + intros fuel Hfuel. eapply chatChain_more; [| exact Hrun]. lia.
    + exact Hpre.
    + by rewrite Hpre.
Qed.

Lemma pagination_coverage_witness :
  (exists pages st',
      previewsChain 7 2 None demoState = (Some pages, st')
      /\ length (appended pages) = 6%nat)
  /\ (exists pages st',
         chatChain 7 "c1" 2 None demoState = (Some pages, st')
         /\ length (prepended pages) = 6%nat).
Proof.
  destruct (pagination_coverage "c1" 2 demoState) as [Hfwd Hbwd].
  split.
  - destruct (Hfwd eq_refl) as (pages & st' & Hrun & Happ & _).
    exists pages, st'. split; [apply Hrun; lia |].
    rewrite Happ. reflexivity.
  - destruct (Hbwd eq_refl) as (pages & st' & Hrun & Hpre & _).
    exists pages, st'. split; [apply Hrun; lia |].
    rewrite Hpre. reflexivity.
Defined.

(** What a completed forward chain looks like, whatever the fuel it was
    given. *)
Lemma previewsChain_completed (count : nat) (allMessages : list MessagePreview.t)
    (fuel : nat) :
  forall st cursor s pages st',
    previewsBacking count st = allMessages ->
    cursorIndex cursor (Int 0) = Int s ->
    0 <= s ->
    previewsChain fuel count cursor st = (Some pages, st') ->
    messageCache st' !! previewsKey count = Some allMessages
    /\ last pages
       = Some (previewsPage allMessages count
                 (match lastCursor pages with
                  | Some c => Some c
                  | None => cursor
                  end))
    /\ (forall c, lastCursor pages = Some c ->
          exists z, c = toString z /\ 0 <= z < Z.of_nat (length allMessages))
    /\ (forall p, last pages = Some p -> hasMore p = false).
Proof.
  induction fuel as [| fuel IH]; intros st cursor s pages st' Hback Hcur Hs;
    [discriminate |].
  cbn [previewsChain]. unfold bind at 1.
  pose proof (fetchMessagePreviews_backing count cursor st) as Hf.
  destruct (fetchMessagePreviews count cursor st) as [page st1].
  destruct Hf as (Hpage & Hcache & _ & _). rewrite Hback in Hpage, Hcache.
  pose proof (previewsPage_at allMessages count cursor s Hcur) as Hat.
  cbv zeta in Hat.
  set (e := Z.min (s + Z.min (Z.of_nat count) 20) (Z.of_nat (length allMessages))) in *.
  assert (He : 0 <= e) by (subst e; lia).
  destruct (Z.ltb_spec e (Z.of_nat (length allMessages))) as [Hlt | Hge].
  - assert (Hhas : hasMore page = true) by (rewrite Hpage, Hat; done).
    assert (Hnext : nextCursor page = Some (toString e)) by (rewrite Hpage, Hat; done).
    rewrite Hhas, Hnext. unfold bind.
    destruct (previewsChain fuel count (Some (toString e)) st1)
      as [[rest |] st2] eqn:Erun; [| discriminate].
    intros [= <- <-].
    destruct (IH st1 (Some (toString e)) e rest st2)
      as (Hc' & Hlast & Hcs & Hfin).
    + unfold previewsBacking. by rewrite Hcache.
    + apply cursorIndex_toString.
    + exact He.
    + exact Erun.
    + split; [exact Hc' |]. split; [| split].
      * rewrite lastCursor_cons, Hnext.
        assert (rest <> []) as Hne by (intros ->; discriminate Hlast).
        rewrite last_cons. rewrite Hlast.
        by destruct (lastCursor rest).
      * intros c. rewrite lastCursor_cons, Hnext.
        destruct (lastCursor rest) as [c' |] eqn:E.
        -- intros [= <-]. exact (Hcs c' eq_refl).
        -- intros [= <-]. exists e. split; [done | lia].
      * intros p. rewrite last_cons.
        destruct (last rest) as [q |] eqn:E; [| discriminate Hlast].
        intros [= <-]. by apply Hfin.
  - assert (Hhas : hasMore page = false) by (rewrite Hpage, Hat; done).
    assert (Hnext : nextCursor page = None) by (rewrite Hpage, Hat; done).
    rewrite Hhas. intros [= <- <-].
    split; [exact Hcache |]. split; [| split].
    + unfold lastCursor. cbn. rewrite Hnext. cbn. by rewrite Hpage.
    + unfold lastCursor. cbn. rewrite Hnext. discriminate.
    + intros p [= <-]. exact Hhas.
Qed.

Lemma chatChain_completed (conversationId : string) (count : nat)
    (allMessages : list ChatMessage.t) (fuel : nat) :
  forall st cursor e pages st',
    chatBacking conversationId count st = allMessages ->
    cursorIndex cursor (Int (Z.of_nat (length allMessages))) = Int e ->
    0 <= e <= Z.of_nat (length allMessages) ->
    chatChain fuel conversationId count cursor st = (Some pages, st') ->
    chatCache st' !! chatKey conversationId = Some allMessages
    /\ last pages
       = Some (chatPage allMessages count
                 (match lastCursor pages with
                  | Some c => Some c
                  | None => cursor
                  end))
    /\ (forall c, lastCursor pages = Some c ->
          exists z, c = toString z /\ 0 < z <= Z.of_nat (length allMessages))
    /\ (forall p, last pages = Some p -> hasMore p = false).
Proof.
  induction fuel as [| fuel IH]; intros st cursor e pages st' Hback Hcur He;
    [discriminate |].
  cbn [chatChain]. unfold bind at 1.
  pose proof (fetchChatMessages_backing conversationId count cursor st) as Hf.
  destruct (fetchChatMessages conversationId count cursor st) as [page st1].
  destruct Hf as (Hpage & Hcache & _ & _). rewrite Hback in Hpage, Hcache.
  pose proof (chatPage_at allMessages count cursor e Hcur) as Hat.
  cbv zeta in Hat.
  set (s := Z.max (e - Z.min (Z.of_nat count) 20) 0) in *.
  assert (Hs : 0 <= s <= e) by (subst s; lia).
  destruct (Z.ltb_spec 0 s) as [Hlt | Hge].
  - assert (Hhas : hasMore page = true) by (rewrite Hpage, Hat; done).
    assert (Hnext : nextCursor page = Some (toString s)) by (rewrite Hpage, Hat; done).
    rewrite Hhas, Hnext. unfold bind.
    destruct (chatChain fuel conversationId count (Some (toString s)) st1)
      as [[rest |] st2] eqn:Erun; [| discriminate].
    intros [= <- <-].
    destruct (IH st1 (Some (toString s)) s rest st2)
      as (Hc' & Hlast & Hcs & Hfin).
    + unfold chatBacking. by rewrite Hcache.
    + apply cursorIndex_toString.
    + lia.
    + exact Erun.
    + split; [exact Hc' |]. split; [| split].
      * rewrite lastCursor_cons, Hnext.
        assert (rest <> []) as Hne by (intros ->; discriminate Hlast).
        rewrite last_cons. rewrite Hlast.
        by destruct (lastCursor rest).
      * intros c. rewrite lastCursor_cons, Hnext.
        destruct (lastCursor rest) as [c' |] eqn:E.
        -- intros [= <-]. exact (Hcs c' eq_refl).
        -- intros [= <-]. exists s. split; [done | lia].
      * intros p. rewrite last_cons.
        destruct (last rest) as [q |] eqn:E; [| discriminate Hlast].
        intros [= <-]. by apply Hfin.
  - assert (Hhas : hasMore page = false) by (rewrite Hpage, Hat; done).
    assert (Hnext : nextCursor page = None) by (rewrite Hpage, Hat; done).
    rewrite Hhas. intros [= <- <-].
    split; [exact Hcache |]. split; [| split].
    + unfold lastCursor. cbn. rewrite Hnext. cbn. by rewrite Hpage.
    + unfold lastCursor. cbn. rewrite Hnext. discriminate.
    + intros p [= <-]. exact Hhas.
Qed.

(** With [count >= 1] the chain started without a cursor completes on
    every state, with at most one call more than the backing array has
    items, and hands out a cursor as soon as the array is longer than a
    page. *)
Lemma previewsChain_completes (count : nat) (st : State) :
  (1 <= count)%nat ->
  exists pages st',
    (forall fuel, (length (previewsBacking count st) < fuel)%nat ->
       previewsChain fuel count None st = (Some pages, st'))
    /\ (Z.min (Z.of_nat count) 20 < Z.of_nat (length (previewsBacking count st)) ->
        is_Some (lastCursor pages)).
Proof.
  intros Hcount.
  destruct (previewsChain_run count (previewsBacking count st) (or_intror Hcount)
              (S (length (previewsBacking count st))) st None 0)
    as (pages & st' & Hrun & _ & _ & _ & _ & Hsome & _);
    [reflexivity | reflexivity | lia | lia |].
  exists pages, st'. split.
  - intros fuel Hfuel. eapply previewsChain_more; [| exact Hrun]. lia.
  - intros H. apply Hsome. lia.
Qed.

Lemma chatChain_completes (conversationId : string) (count : nat) (st : State) :
  (1 <= count)%nat ->
  exists pages st',
    (forall fuel, (length (chatBacking conversationId count st) < fuel)%nat ->
       chatChain fuel conversationId count None st = (Some pages, st'))
    /\ (Z.min (Z.of_nat count) 20
        < Z.of_nat (length (chatBacking conversationId count st)) ->
        is_Some (lastCursor pages)).
Proof.
  intros Hcount.
  destruct (chatChain_run conversationId count
              (chatBacking conversationId count st) (or_intror Hcount)
              (S (length (chatBacking conversationId count st))) st None
              (Z.of_nat (length (chatBacking conversationId count st))))
    as (pages & st' & Hrun & _ & _ & _ & _ & Hsome & _);
    [reflexivity | reflexivity | lia | lia |].
  exists pages, st'. split.
  - intros fuel Hfuel. eapply chatChain_more; [| exact Hrun]. lia.
  - exact Hsome.
Qed.

(** C7, amended: whatever the cache holds (the entry already there or
    created by the first call), when a chain started without a cursor has
    completed and handed out a cursor, calling again with the last cursor
    returns the final page of the chain once more: the same data, which
    is not empty, [hasMore = false] and no next cursor.  With
    [count >= 1] such a chain does complete, with at most one call more
    than the array has items, and hands out a cursor as soon as the array
    is longer than one page. *)
Theorem last_cursor_replays_final_page (conversationId : string) (count : nat)
    (st : State) :
  (forall fuel pages st' c,
     previewsChain fuel count None st = (Some pages, st') ->
     lastCursor pages = Some c ->
     exists final,
       last pages = Some final
       /\ fst (fetchMessagePreviews count (Some c) st') = final
       /\ data final <> []
       /\ hasMore final = false
       /\ nextCursor final = None)
  /\ (forall fuel pages st' c,
        chatChain fuel conversationId count None st = (Some pages, st') ->
        lastCursor pages = Some c ->
        exists final,
          last pages = Some final
          /\ fst (fetchChatMessages conversationId count (Some c) st') = final
          /\ data final <> []
          /\ hasMore final = false
          /\ nextCursor final = None)
  /\ ((1 <= count)%nat ->
      (exists pages st',
         (forall fuel, (length (previewsBacking count st) < fuel)%nat ->
            previewsChain fuel count None st = (Some pages, st'))
         /\ (Z.min (Z.of_nat count) 20
             < Z.of_nat (length (previewsBacking count st)) ->
             is_Some (lastCursor pages)))
      /\ (exists pages st',
            (forall fuel,
               (length (chatBacking conversationId count st) < fuel)%nat ->
               chatChain fuel conversationId count None st = (Some pages, st'))
            /\ (Z.min (Z.of_nat count) 20
                < Z.of_nat (length (chatBacking conversationId count st)) ->
                is_Some (lastCursor pages)))).
Proof.
  split; [| split].
  - intros fuel pages st' c Hrun Hcur.
    destruct (previewsChain_completed count (previewsBacking count st) fuel
                st None 0 pages st' eq_refl eq_refl ltac:(lia) Hrun)
      as (Hc & Hlast & Hcs & Hfin).
    rewrite Hcur in Hlast. destruct (Hcs c Hcur) as (z & -> & Hz).
    specialize (Hfin _ Hlast).
    eexists. split; [exact Hlast |].
    split; [by rewrite (fetchMessagePreviews_hit _ _ _ _ Hc) |].
    split; [| split; [exact Hfin | by apply previewsPage_final]].
    revert Hfin.
    rewrite (previewsPage_at _ count (Some (toString z)) z)
      by apply cursorIndex_toString.
    cbn [hasMore data].
    intros Hfin%Z.ltb_ge Hnil. apply (f_equal length) in Hnil.
    rewrite slice_length in Hnil by lia.
    cbn in Hnil. lia.
  - intros fuel pages st' c Hrun Hcur.
    destruct (chatChain_completed conversationId count
                (chatBacking conversationId count st) fuel
                st None _ pages st' eq_refl eq_refl ltac:(lia) Hrun)
      as (Hc & Hlast & Hcs & Hfin).
    rewrite Hcur in Hlast. destruct (Hcs c Hcur) as (z & -> & Hz).
    specialize (Hfin _ Hlast).
    eexists. split; [exact Hlast |].
    split; [by rewrite (fetchChatMessages_hit _ _ _ _ _ Hc) |].
    split; [| split; [exact Hfin | by apply chatPage_final]].
    revert Hfin.
    rewrite (chatPage_at _ count (Some (toString z)) z)
      by apply cursorIndex_toString.
    cbn [hasMore data].
    intros Hfin%Z.ltb_ge Hnil. apply (f_equal length) in Hnil.
    rewrite slice_length in Hnil by lia.
    cbn in Hnil. lia.
  - intros Hcount. split.
    + by apply previewsChain_completes.
    + by apply chatChain_completes.
Qed.

Lemma last_cursor_replays_final_page_witness :
  (exists pages st' c final,
      previewsChain 7 2 None demoState = (Some pages, st')
      /\ lastCursor pages = Some c
      /\ last pages = Some final
      /\ fst (fetchMessagePreviews 2 (Some c) st') = final
      /\ data final <> []
      /\ hasMore final = false
      /\ nextCursor final = None)
  /\ (exists pages st' c final,
         chatChain 6 "c1" 2 None demoLoaded = (Some pages, st')
         /\ lastCursor pages = Some c
         /\ last pages = Some final
         /\ fst (fetchChatMessages "c1" 2 (Some c) st') = final
         /\ data final <> []
         /\ hasMore final = false
         /\ nextCursor final = None).
Proof.
  split.
  - destruct (last_cursor_replays_final_page "c1" 2 demoState)
      as (Hreplay & _ & Hcompletes).
    destruct (Hcompletes ltac:(lia)) as [(pages & st' & Hrun & Hsome) _].
    destruct Hsome as [c Hc]; [vm_compute; reflexivity |].
    assert (Hrun7 : previewsChain 7 2 None demoState = (Some pages, st'))
      by (apply Hrun; vm_compute; lia).
    destruct (Hreplay _ _ _ _ Hrun7 Hc) as (final & Hfinal).
    exists pages, st', c, final. split; [exact Hrun7 |]. split; [exact Hc |].
    exact Hfinal.
  - destruct (last_cursor_replays_final_page "c1" 2 demoLoaded)
      as (_ & Hreplay & Hcompletes).
    destruct (Hcompletes ltac:(lia)) as [_ (pages & st' & Hrun & Hsome)].
    destruct Hsome as [c Hc]; [vm_compute; reflexivity |].
    assert (Hrun6 : chatChain 6 "c1" 2 None demoLoaded = (Some pages, st'))
      by (apply Hrun; vm_compute; lia).
    destruct (Hreplay _ _ _ _ Hrun6 Hc) as (final & Hfinal).
    exists pages, st', c, final. split; [exact Hrun6 |]. split; [exact Hc |].
    exact Hfinal.
Defined.

(** C7 as stated fails: with [count = 20] the forward chain hands out
    "20" and "40", the backward chain "40" and "20", and the call made
    again with the last of them is answered with 20 items, not with an
    empty page. *)
Lemma last_cursor_page_not_empty :
  lastCursor (default [] (fst (previewsChain 4 20 None demoState))) = Some "40"
  /\ length (data (fst (fetchMessagePreviews 20 (Some "40")
                          (snd (previewsChain 4 20 None demoState))))) = 20%nat
  /\ lastCursor (default [] (fst (chatChain 4 "c1" 20 None demoState)))
     = Some "20"
  /\ length (data (fst (fetchChatMessages "c1" 20 (Some "20")
                          (snd (chatChain 4 "c1" 20 None demoState))))) = 20%nat
  /\ ~ (length (data (fst (fetchMessagePreviews 20 (Some "40")
                             (snd (previewsChain 4 20 None demoState))))) = 0%nat
        /\ length (data (fst (fetchChatMessages "c1" 20 (Some "20")
                                (snd (chatChain 4 "c1" 20 None demoState)))))
           = 0%nat).
Proof.
  assert (H1 : length (data (fst (fetchMessagePreviews 20 (Some "40")
                 (snd (previewsChain 4 20 None demoState))))) = 20%nat)
    by (vm_compute; reflexivity).
  assert (H2 : length (data (fst (fetchChatMessages "c1" 20 (Some "20")
                 (snd (chatChain 4 "c1" 20 None demoState))))) = 20%nat)
    by (vm_compute; reflexivity).
  split; [vm_compute; reflexivity |]. split; [exact H1 |].
  split; [vm_compute; reflexivity |]. split; [exact H2 |].
  intros [H _]. rewrite H1 in H. discriminate H.
Qed.

(** *** What one call does to the cache entries *)

Lemma chatKey_inj a b : chatKey a = chatKey b -> a = b.
Proof. unfold chatKey. intros H. by simplify_eq/=. Qed.

Lemma perform_messageCache st call k allMessages :
  call <> ClearCache ->
  messageCache st !! k = Some allMessages ->
  messageCache (perform st call) !! k = Some allMessages.
Proof.
  intros Hcall Hk. destruct call as [n c | conv n c | conv text |]; cbn [perform].
  - pose proof (fetchMessagePreviews_backing n c st) as H.
    destruct (fetchMessagePreviews n c st) as [page st']. cbn [snd].
    destruct H as (_ & Hkey & Hother & _).
    destruct (decide (k = previewsKey n)) as [-> | Hne].
    + rewrite Hkey. unfold previewsBacking. by rewrite Hk.
    + by rewrite Hother.
  - pose proof (fetchChatMessages_backing conv n c st) as H.
    destruct (fetchChatMessages conv n c st) as [page st']. cbn [snd].
    destruct H as (_ & _ & _ & ->). exact Hk.
  - pose proof (sendMessage_caches conv text st) as H.
    destruct (sendMessage conv text st) as [m st']. cbn [snd].
    destruct H as (_ & _ & ->). exact Hk.
  - done.
Qed.

Lemma perform_chatCache st call conversationId allMessages :
  call <> ClearCache ->
  chatCache st !! chatKey conversationId = Some allMessages ->
  exists sent,
    chatCache (perform st call) !! chatKey conversationId
    = Some (allMessages ++ sent)%list
    /\ ((forall text, call <> Send conversationId text) -> sent = []).
Proof.
  intros Hcall Hk. destruct call as [n c | conv n c | conv text |]; cbn [perform].
  - pose proof (fetchMessagePreviews_backing n c st) as H.
    destruct (fetchMessagePreviews n c st) as [page st']. cbn [snd].
    destruct H as (_ & _ & _ & ->). exists []. by rewrite app_nil_r.
  - pose proof (fetchChatMessages_backing conv n c st) as H.
    destruct (fetchChatMessages conv n c st) as [page st']. cbn [snd].
    destruct H as (_ & Hkey & Hother & _). exists []. rewrite app_nil_r.
    split; [| done].
    destruct (decide (chatKey conversationId = chatKey conv)) as [Heq | Hne].
    + rewrite Heq, Hkey. unfold chatBacking. by rewrite <- Heq, Hk.
    + by rewrite Hother.
  - pose proof (sendMessage_caches conv text st) as H.
    destruct (sendMessage conv text st) as [m st']. cbn [snd].
    destruct H as (Hkey & Hother & _).
    destruct (decide (chatKey conversationId = chatKey conv)) as [Heq | Hne].
    + exists [m]. rewrite Heq, Hkey, <- Heq, Hk. split; [done |].
      intros Hns. apply chatKey_inj in Heq as ->. by destruct (Hns text).
    + exists []. rewrite app_nil_r. split; [| done]. by rewrite Hother.
  - done.
Qed.

(** C4: the first call for a key stores a generated array of exactly
    [3 * count] items and pages through it; a call that finds the entry
    pages through the stored array, changes neither cache and runs no
    generator (the clock is not read, one number is drawn for the
    latency); and whatever calls follow, short of [clearCache], the entry
    of a preview key stays as it is, while the entry of a conversation
    only grows at its end by the messages sent to that conversation. *)
Theorem cache_entry_created_once (conversationId : string) (count : nat)
    (cursor : option string) (st : State) :
  (messageCache st !! previewsKey count = None ->
   let '(page, st') := fetchMessagePreviews count cursor st in
   exists generated,
     messageCache st' !! previewsKey count = Some generated
     /\ length generated = (3 * count)%nat
     /\ page = previewsPage generated count cursor)
  /\ (forall allMessages,
        messageCache st !! previewsKey count = Some allMessages ->
        let '(page, st') := fetchMessagePreviews count cursor st in
        page = previewsPage allMessages count cursor
        /\ messageCache st' = messageCache st /\ chatCache st' = chatCache st
        /\ clockReads st' = clockReads st /\ drawn st' = S (drawn st))
  /\ (chatCache st !! chatKey conversationId = None ->
      let '(page, st') := fetchChatMessages conversationId count cursor st in
      exists generated,
        chatCache st' !! chatKey conversationId = Some generated
        /\ length generated = (3 * count)%nat
        /\ page = chatPage generated count cursor)
  /\ (forall allMessages,
        chatCache st !! chatKey conversationId = Some allMessages ->
        let '(page, st') := fetchChatMessages conversationId count cursor st in
        page = chatPage allMessages count cursor
        /\ messageCache st' = messageCache st /\ chatCache st' = chatCache st
        /\ clockReads st' = clockReads st /\ drawn st' = S (drawn st))
  /\ (forall calls allMessages,
        ClearCache ∉ calls ->
        messageCache st !! previewsKey count = Some allMessages ->
        messageCache (performAll st calls) !! previewsKey count
        = Some allMessages)
  /\ (forall calls allMessages,
        ClearCache ∉ calls ->
        chatCache st !! chatKey conversationId = Some allMessages ->
        exists sent,
          chatCache (performAll st calls) !! chatKey conversationId
          = Some (allMessages ++ sent)%list
          /\ ((forall text, Send conversationId text ∉ calls) -> sent = [])).
Proof.
  split; [| split; [| split; [| split; [| split]]]].
  - intros Hmiss.
    pose proof (fetchMessagePreviews_backing count cursor st) as H.
    destruct (fetchMessagePreviews count cursor st) as [page st'].
    destruct H as (Hpage & Hkey & _). eexists. split; [exact Hkey |].
    split; [| exact Hpage].
    unfold previewsBacking. rewrite Hmiss.
    rewrite generateMessagePreviews_length. lia.
  - intros allMessages Hhit. rewrite (fetchMessagePreviews_hit _ _ _ _ Hhit).
    by repeat split.
  - intros Hmiss.
    pose proof (fetchChatMessages_backing conversationId count cursor st) as H.
    destruct (fetchChatMessages conversationId count cursor st) as [page st'].
    destruct H as (Hpage & Hkey & _). eexists. split; [exact Hkey |].
    split; [| exact Hpage].
    unfold chatBacking. rewrite Hmiss.
    rewrite generateChatMessages_length. lia.
  - intros allMessages Hhit. rewrite (fetchChatMessages_hit _ _ _ _ _ Hhit).
    by repeat split.
  - intros calls. revert st. unfold performAll.
    induction calls as [| call calls IH]; intros st allMessages Hclear Hk;
      [exact Hk |].
    cbn [foldl]. apply IH.
    + intros Hin. apply Hclear. by right.
    + apply perform_messageCache; [| exact Hk].
      intros ->. apply Hclear. by left.
  - intros calls. revert st. unfold performAll.
    induction calls as [| call calls IH]; intros st allMessages Hclear Hk.
    + exists []. by rewrite app_nil_r.
    + cbn [foldl].
      destruct (perform_chatCache st call conversationId allMessages)
        as (sent1 & Hk1 & Hnone1); [intros ->; apply Hclear; by left | exact Hk |].
      destruct (IH (perform st call) (allMessages ++ sent1)%list)
        as (sent2 & Hk2 & Hnone2); [intros Hin; apply Hclear; by right | exact Hk1 |].
      exists (sent1 ++ sent2)%list. rewrite app_assoc. split; [exact Hk2 |].
      intros Hns. rewrite Hnone1, Hnone2; [done | |].
      * intros text Hin. apply (Hns text). by right.
      * intros text ->. apply (Hns text). by left.
Qed.

Lemma cache_entry_created_once_witness :
  (exists generated,
      messageCache (snd (fetchMessagePreviews 2 None demoState)) !! previewsKey 2
      = Some generated /\ length generated = 6%nat)
  /\ messageCache
       (performAll demoLoaded
          [FetchPreviews 2 (Some "2"); Send "c1" "hi"; FetchPreviews 3 None])
     !! previewsKey 2
     = Some (demoPreview <$> ["a"; "b"; "c"; "d"; "e"]).
Proof.
  destruct (cache_entry_created_once "c1" 2 None demoState)
    as (Hfirst & _ & _ & _ & _ & _).
  destruct (cache_entry_created_once "c1" 2 None demoLoaded)
    as (_ & _ & _ & _ & Hkeep & _).
  split.
  - specialize (Hfirst eq_refl).
    destruct (fetchMessagePreviews 2 None demoState) as [page st'].
    destruct Hfirst as (generated & Hkey & Hlen & _).
    exists generated. by split.
  - apply Hkeep; [| reflexivity].
    intros Hin. repeat (apply elem_of_cons in Hin as [Hin | Hin]; [discriminate |]).
    by apply elem_of_nil in Hin.
Defined.

(** *** The guard of [loadMoreChatMessages] *)

Lemma loadMore_blocked (sh : Sheet) :
  loadMoreBlocked sh = true -> loadMoreChatMessages_call sh = (sh, None).
Proof.
  unfold loadMoreBlocked, loadMoreChatMessages_call.
  destruct (chatLoadingMoreRef sh), (chatHasMore sh),
    (truthy (chatCursor sh)), (selectedConversation sh); cbn;
    done || discriminate.
Qed.

Lemma loadMore_open (sh : Sheet) :
  loadMoreBlocked sh = false ->
  exists conversation cursor,
    selectedConversation sh = Some conversation
    /\ chatCursor sh = Some cursor
    /\ loadMoreChatMessages_call sh
       = (setChatLoadingMore true (set_chatLoadingMoreRef true sh),
          Some (MessagePreview.id conversation, 20%nat, Some cursor)).
Proof.
  unfold loadMoreBlocked, loadMoreChatMessages_call.
  destruct (chatLoadingMoreRef sh), (chatHasMore sh); cbn; try discriminate.
  destruct (chatCursor sh) as [[| ch cursor] |]; cbn; try discriminate.
  destruct (selectedConversation sh) as [conversation |]; cbn; try discriminate.
  intros _. by exists conversation, (String ch cursor).
Qed.

Lemma step_EndReached_blocked c (a : App) :
  loadMoreBlocked (sheet a) = true -> step c a EndReached = a.
Proof.
  intros H. cbn [step]. rewrite (loadMore_blocked _ H). by destruct a.
Qed.

Lemma run_EndReached_blocked c (a : App) (n : nat) :
  loadMoreBlocked (sheet a) = true -> run c a (replicate n EndReached) = a.
Proof.
  intros H. unfold run. induction n as [| n IH]; [done |].
  cbn [replicate foldl]. by rewrite step_EndReached_blocked.
Qed.

(** C5: while the guard of [loadMoreChatMessages] holds (a load is in
    flight, or [chatHasMore] is false, or there is no cursor, or no
    conversation is selected) the handler changes nothing and calls
    nothing; when it does not hold, any number of invocations made before
    the request settles add exactly one call to [fetchChatMessages]; and
    when that request settles, whether it resolves or rejects, the guard
    flag is false again. *)
Theorem loadMore_single_flight (c : Convention) (a : App) :
  (loadMoreBlocked (sheet a) = true -> step c a EndReached = a)
  /\ (loadMoreBlocked (sheet a) = false ->
      exists conversation cursor,
        selectedConversation (sheet a) = Some conversation
        /\ chatCursor (sheet a) = Some cursor
        /\ forall n,
             let a' := run c a (replicate (S n) EndReached) in
             fetchChatCalls a'
             = (fetchChatCalls a
                ++ [(MessagePreview.id conversation, 20%nat, Some cursor)])%list
             /\ inflight a'
                = (inflight a
                   ++ [LoadMoreTask
                         (MessagePreview.id conversation, 20%nat, Some cursor)])%list
             /\ chatLoadingMoreRef (sheet a') = true)
  /\ (forall n call fails,
        inflight a !! n = Some (LoadMoreTask call) ->
        chatLoadingMoreRef (sheet (step c a (TimerFires n fails))) = false).
Proof.
  split; [apply step_EndReached_blocked | split].
  - intros Hopen.
    destruct (loadMore_open _ Hopen) as (conversation & cursor & Hsel & Hcur & Hcall).
    exists conversation, cursor. split; [exact Hsel |]. split; [exact Hcur |].
    intros n. cbv zeta. unfold run. cbn [replicate foldl].
    fold (run c (step c a EndReached) (replicate n EndReached)).
    rewrite run_EndReached_blocked.
    + cbn [step]. rewrite Hcall. by cbn.
    + cbn [step]. rewrite Hcall. by cbn.
  - intros n [[conversationId count] cursor] fails Hn. cbn [step]. rewrite Hn.
    cbn [settleTask]. destruct fails.
    + reflexivity.
    + destruct (fetchChatMessages_resume _ _ _ _) as [response sv']. reflexivity.
Qed.

Lemma loadMore_single_flight_witness :
  fetchChatCalls (run Chronological (demoApp "") [EndReached; EndReached])
  = [("c1", 20%nat, Some "3")]
  /\ chatLoadingMoreRef
       (sheet (run Chronological (demoApp "")
                 [EndReached; EndReached; TimerFires 0 true])) = false
  /\ chatLoadingMoreRef
       (sheet (run Chronological (demoApp "")
                 [EndReached; EndReached; TimerFires 0 false])) = false.
Proof.
  destruct (loadMore_single_flight Chronological (demoApp "")) as (_ & Hone & _).
  destruct (Hone eq_refl) as (conversation & cursor & Hsel & Hcur & Hrun).
  injection Hsel as <-. injection Hcur as <-.
  split; [apply (Hrun 1%nat) |].
  split.
  - apply (proj2 (proj2 (loadMore_single_flight Chronological
                           (run Chronological (demoApp "") [EndReached; EndReached])))
             0%nat ("c1", 20%nat, Some "3") true eq_refl).
  - apply (proj2 (proj2 (loadMore_single_flight Chronological
                           (run Chronological (demoApp "") [EndReached; EndReached])))
             0%nat ("c1", 20%nat, Some "3") false eq_refl).
Defined.

(** C6, amended: with a conversation open and an input that is not blank,
    pressing send empties the input and issues one [sendMessage] call with
    the trimmed text; if that call rejects, the input is set to the
    trimmed text (the typed text when it has no white space at either
    end) and the list of messages is the one from before the send. *)
Theorem send_failure_restores_trimmed (c : Convention) (a : App)
    (conversation : MessagePreview.t) :
  selectedConversation (sheet a) = Some conversation ->
  trim (inputText (sheet a)) <> "" ->
  let typed := inputText (sheet a) in
  let a1 := step c a PressSend in
  let a2 := step c a1 (TimerFires (length (inflight a)) true) in
  inflight a1
  = (inflight a ++ [SendTask (MessagePreview.id conversation, trim typed)])%list
  /\ inputText (sheet a1) = ""
  /\ inputText (sheet a2) = trim typed
  /\ chatMessages (sheet a2) = chatMessages (sheet a)
  /\ (trim typed = typed -> inputText (sheet a2) = typed)
  /\ chatCache (service a2) = chatCache (service a).
Proof.
  intros Hsel Hne. cbv zeta.
  assert (Hcall : handleSendMessage_call (sheet a)
                  = (setInputText "" (sheet a),
                     Some (MessagePreview.id conversation,
                           trim (inputText (sheet a))))).
  { unfold handleSendMessage_call. rewrite Hsel.
    by destruct (trim (inputText (sheet a))). }
  cbn [step]. rewrite Hcall. cbn [sheet inflight service].
  rewrite lookup_app_r by lia. rewrite Nat.sub_diag. cbn [lookup list_lookup].
  cbn [settleTask handleSendMessage_settle].
  cbn [sheet service inputText chatMessages setInputText].
  repeat split; try done.
Qed.

Lemma send_failure_restores_trimmed_witness :
  inputText (sheet (run Inverted (demoApp "  hello ")
                      [PressSend; TimerFires 0 true])) = "hello"
  /\ chatMessages (sheet (run Inverted (demoApp "  hello ")
                            [PressSend; TimerFires 0 true]))
     = demoMessage <$> ["m3"; "m4"].
Proof.
  destruct (send_failure_restores_trimmed Inverted (demoApp "  hello ")
              (demoPreview "c1") eq_refl ltac:(discriminate))
    as (_ & _ & Hin & Hmsgs & _).
  split; [exact Hin | exact Hmsgs].
Defined.

(** C6 as stated fails when the typed text has white space at an end:
    what comes back is the trimmed text. *)
Lemma send_failure_drops_outer_spaces :
  trim "  hello " <> ""
  /\ inputText (sheet (run Chronological (demoApp "  hello ")
                         [PressSend; TimerFires 0 true])) = "hello"
  /\ ~ (trim "  hello " <> "" ->
        inputText (sheet (run Chronological (demoApp "  hello ")
                            [PressSend; TimerFires 0 true])) = "  hello ").
Proof.
  split; [discriminate |]. split; [reflexivity |].
  intros H. specialize (H ltac:(discriminate)). discriminate H.
Qed.

(** * Properties of the rest of the code *)

(** ** Further properties of the service *)

(** A forward page never has more than [n] items when its end is at most
    [n] after its start, wherever the start lies. *)
Lemma slice_forward_bound {A} (l : list A) (a n : Z) :
  0 <= n ->
  Z.of_nat (length (slice l (Int a)
                      (Int (Z.min (a + n) (Z.of_nat (length l)))))) <= n.
Proof.
  intros Hn. unfold slice, relative_index. cbn [toIntegerOrInfinity].
  rewrite length_take, length_drop.
  destruct (Z.ltb_spec a 0);
    destruct (Z.ltb_spec (Z.min (a + n) (Z.of_nat (length l))) 0); lia.
Qed.

Lemma slice_backward_bound {A} (l : list A) (e n : Z) :
  0 <= n -> 0 <= e ->
  Z.of_nat (length (slice l (Int (Z.max (e - n) 0)) (Int e))) <= n.
Proof.
  intros Hn He. unfold slice, relative_index. cbn [toIntegerOrInfinity].
  rewrite length_take, length_drop.
  destruct (Z.ltb_spec (Z.max (e - n) 0) 0); destruct (Z.ltb_spec e 0); lia.
Qed.

Lemma cursorIndex_cases cursor fallback :
  cursorIndex cursor fallback = NaN
  \/ exists z, cursorIndex cursor fallback = Int z.
Proof. destruct (cursorIndex cursor fallback); eauto. Qed.

Lemma previewsPage_NaN {T} (l : list T) (n : nat) cursor :
  cursorIndex cursor (Int 0) = NaN ->
  previewsPage l n cursor = {| data := []; hasMore := false; nextCursor := None |}.
Proof. intros H. unfold previewsPage. rewrite H. cbn. by rewrite slice_NaN. Qed.

Lemma chatPage_NaN {T} (l : list T) (n : nat) cursor :
  cursorIndex cursor (Int (Z.of_nat (length l))) = NaN ->
  chatPage l n cursor = {| data := []; hasMore := false; nextCursor := None |}.
Proof. intros H. unfold chatPage. rewrite H. cbn. by rewrite slice_NaN. Qed.

(** X1: a page has a next cursor exactly when it says [hasMore]; and a
    cursor handed out by either fetch function is never the empty string
    and is read back by [parseInt] as the very index it was made from: the
    end of the page for [fetchMessagePreviews], when the call had no
    cursor or one that parses to at least [- MAX_SAFE_INTEGER], the start
    of the page for [fetchChatMessages], when the call had no cursor or
    one that parses to at most [MAX_SAFE_INTEGER]. *)
Theorem cursor_round_trip (conversationId : string) (count : nat)
    (cursor : option string) (st : State) :
  (let page := fst (fetchMessagePreviews count cursor st) in
   let L := Z.of_nat (length (previewsBacking count st)) in
   (hasMore page = true <-> is_Some (nextCursor page))
   /\ forall start c,
        cursorIndex cursor (Int 0) = Int start ->
        - MAX_SAFE_INTEGER <= start ->
        nextCursor page = Some c ->
        truthy (Some c) = Some c
        /\ parseInt c = Int (Z.min (start + Z.min (Z.of_nat count) 20) L))
  /\ (let page := fst (fetchChatMessages conversationId count cursor st) in
      let L := Z.of_nat (length (chatBacking conversationId count st)) in
      (hasMore page = true <-> is_Some (nextCursor page))
      /\ forall e c,
           cursorIndex cursor (Int L) = Int e ->
           e <= MAX_SAFE_INTEGER ->
           nextCursor page = Some c ->
           truthy (Some c) = Some c
           /\ parseInt c = Int (Z.max (e - Z.min (Z.of_nat count) 20) 0)).
Proof.
  split; cbv zeta.
  - pose proof (fetchMessagePreviews_backing count cursor st) as H.
    destruct (fetchMessagePreviews count cursor st) as [page st'].
    destruct H as (-> & _). cbn [fst].
    destruct (cursorIndex_cases cursor (Int 0)) as [Hnan | [start Hs]].
    + rewrite (previewsPage_NaN _ _ _ Hnan). cbn. split; [| done].
      split; [done | by intros [? ?]].
    + rewrite (previewsPage_at _ _ _ _ Hs). cbn [hasMore nextCursor].
      split.
      * destruct (_ <? _); (split; [by eauto | by intros [? ?]]) || (split; by eauto).
      * intros start' c Hs' _. rewrite Hs in Hs'. injection Hs' as <-.
        destruct (_ <? _); [| done].
        intros [= <-]. split; [apply toString_truthy | apply parseInt_toString].
  - pose proof (fetchChatMessages_backing conversationId count cursor st) as H.
    destruct (fetchChatMessages conversationId count cursor st) as [page st'].
    destruct H as (-> & _). cbn [fst].
    set (L := Z.of_nat (length (chatBacking conversationId count st))).
    destruct (cursorIndex_cases cursor (Int L)) as [Hnan | [e He]].
    + rewrite (chatPage_NaN _ _ _ Hnan). cbn. split; [| done].
      split; [done | by intros [? ?]].
    + rewrite (chatPage_at _ _ _ _ He). cbn [hasMore nextCursor].
      split.
      * destruct (_ <? _); (split; [by eauto | by intros [? ?]]) || (split; by eauto).
      * intros e' c He' _. rewrite He in He'. injection He' as <-.
        destruct (_ <? _); [| done].
        intros [= <-]. split; [apply toString_truthy | apply parseInt_toString].
Qed.

Lemma negative_backward_cursor_example :
  data (fst (fetchChatMessages "c1" 2 (Some "-1") demoLoaded))
  = demoMessage <$> ["m0"; "m1"; "m2"; "m3"].
Proof. vm_compute. reflexivity. Qed.

(** X2: a page of [fetchMessagePreviews] never holds more than
    [min(count, 20)] items, whatever the cursor; a page of
    [fetchChatMessages] neither, unless the cursor parses to a negative
    number. *)
Theorem page_size_bound (conversationId : string) (count : nat)
    (cursor : option string) (st : State) :
  (length (data (fst (fetchMessagePreviews count cursor st)))
   <= Nat.min count 20)%nat
  /\ ((forall c z, cursor = Some c -> parseInt c = Int z -> 0 <= z) ->
      (length (data (fst (fetchChatMessages conversationId count cursor st)))
       <= Nat.min count 20)%nat).
Proof.
  split.
  - pose proof (fetchMessagePreviews_backing count cursor st) as H.
    destruct (fetchMessagePreviews count cursor st) as [page st'].
    destruct H as (-> & _). cbn [fst].
    destruct (cursorIndex_cases cursor (Int 0)) as [Hnan | [start Hs]].
    + rewrite (previewsPage_NaN _ _ _ Hnan). cbn. lia.
    + rewrite (previewsPage_at _ _ _ _ Hs). cbn [data].
      pose proof (slice_forward_bound (previewsBacking count st) start
                    (Z.min (Z.of_nat count) 20) ltac:(lia)). lia.
  - intros Hpos.
    pose proof (fetchChatMessages_backing conversationId count cursor st) as H.
    destruct (fetchChatMessages conversationId count cursor st) as [page st'].
    destruct H as (-> & _). cbn [fst].
    set (l := chatBacking conversationId count st).
    destruct (cursorIndex_cases cursor (Int (Z.of_nat (length l))))
      as [Hnan | [e He]].
    + rewrite (chatPage_NaN _ _ _ Hnan). cbn. lia.
    + assert (0 <= e) as He0.
      { unfold cursorIndex in He. destruct cursor as [[| a c] |]; cbn in He.
        - injection He as <-. lia.
        - by apply (Hpos (String a c) e).
        - injection He as <-. lia. }
      rewrite (chatPage_at _ _ _ _ He). cbn [data].
      pose proof (slice_backward_bound l e (Z.min (Z.of_nat count) 20)
                    ltac:(lia) He0). lia.
Qed.

Lemma page_size_bound_witness :
  (length (data (fst (fetchMessagePreviews 2 (Some "-3") demoLoaded))) <= 2)%nat
  /\ (length (data (fst (fetchChatMessages "c1" 2 (Some "9") demoLoaded)))
      <= 2)%nat.
Proof.
  destruct (page_size_bound "c1" 2 (Some "-3") demoLoaded) as [Hfwd _].
  destruct (page_size_bound "c1" 2 (Some "9") demoLoaded) as [_ Hbwd].
  split; [exact Hfwd |]. apply Hbwd.
  intros c z [= <-] [= <-]. lia.
Defined.

Lemma slice_app_l {A} (l k : list A) (s e : Z) :
  0 <= s <= e -> e <= Z.of_nat (length l) ->
  slice (l ++ k) (Int s) (Int e) = slice l (Int s) (Int e).
Proof.
  intros Hs He. rewrite !slice_nonneg by lia.
  rewrite drop_app_le by lia. apply take_app_le. rewrite length_drop. lia.
Qed.

(** The entry of a conversation after any calls short of [clearCache]. *)
Lemma performAll_chatCache st calls conversationId allMessages :
  ClearCache ∉ calls ->
  chatCache st !! chatKey conversationId = Some allMessages ->
  exists sent,
    chatCache (performAll st calls) !! chatKey conversationId
    = Some (allMessages ++ sent)%list.
Proof.
  revert st allMessages. unfold performAll.
  induction calls as [| call calls IH]; intros st allMessages Hclear Hk.
  - exists []. by rewrite app_nil_r.
  - cbn [foldl].
    destruct (perform_chatCache st call conversationId allMessages)
      as (sent1 & Hk1 & _); [intros ->; apply Hclear; by left | exact Hk |].
    destruct (IH (perform st call) (allMessages ++ sent1)%list)
      as (sent2 & Hk2); [intros Hin; apply Hclear; by right | exact Hk1 |].
    exists (sent1 ++ sent2)%list. by rewrite app_assoc.
Qed.

(** X7: a backward cursor keeps its meaning while messages are sent: for a
    cursor that points into the cached history, [fetchChatMessages]
    returns the same page after any calls short of [clearCache] (sends to
    this or other conversations, other fetches) as before them. *)
Theorem older_page_stable (conversationId : string) (count : nat) (c : string)
    (e : Z) (st : State) (allMessages : list ChatMessage.t) (calls : list Call) :
  chatCache st !! chatKey conversationId = Some allMessages ->
  parseInt c = Int e ->
  0 <= e <= Z.of_nat (length allMessages) ->
  ClearCache ∉ calls ->
  fst (fetchChatMessages conversationId count (Some c) (performAll st calls))
  = fst (fetchChatMessages conversationId count (Some c) st).
Proof.
  intros Hhit Hc He Hclear.
  destruct (performAll_chatCache st calls conversationId allMessages Hclear Hhit)
    as (sent & Hhit').
  rewrite (fetchChatMessages_hit _ _ _ _ _ Hhit),
    (fetchChatMessages_hit _ _ _ _ _ Hhit'). cbn [fst].
  rewrite (chatPage_at allMessages count (Some c) e)
    by (by apply (cursorAt_index (Some c))).
  rewrite (chatPage_at (allMessages ++ sent) count (Some c) e)
    by (by apply (cursorAt_index (Some c))).
  f_equal. apply slice_app_l; lia.
Qed.

Lemma older_page_stable_witness :
  fst (fetchChatMessages "c1" 2 (Some "3")
         (performAll demoLoaded [Send "c1" "hi"; FetchChat "c2" 4 None;
                                 Send "c1" "again"]))
  = fst (fetchChatMessages "c1" 2 (Some "3") demoLoaded).
Proof.
  apply (older_page_stable "c1" 2 "3" 3 demoLoaded
           (demoMessage <$> ["m0"; "m1"; "m2"; "m3"; "m4"])).
  - reflexivity.
  - reflexivity.
  - cbn. lia.
  - intros Hin. repeat (apply elem_of_cons in Hin as [Hin | Hin]; [discriminate |]).
    by apply elem_of_nil in Hin.
Defined.

(** X6: a message sent to a conversation whose history is cached is the
    last item of the newest page: after [sendMessage], a call of
    [fetchChatMessages] without cursor and with [count >= 1] returns the
    tail of the extended history, ending with the message just sent. *)
Theorem sent_message_on_newest_page (conversationId text : string)
    (count : nat) (st : State) (allMessages : list ChatMessage.t) :
  chatCache st !! chatKey conversationId = Some allMessages ->
  (1 <= count)%nat ->
  let '(newMessage, st') := sendMessage conversationId text st in
  let page := fst (fetchChatMessages conversationId count None st') in
  data page
  = drop (S (length allMessages) - Nat.min count 20)
      (allMessages ++ [newMessage])%list
  /\ last (data page) = Some newMessage.
Proof.
  intros Hhit Hcount.
  pose proof (sendMessage_caches conversationId text st) as H.
  destruct (sendMessage conversationId text st) as [newMessage st'].
  destruct H as (Hkey & _). rewrite Hhit in Hkey. cbn in Hkey. cbv zeta.
  rewrite (fetchChatMessages_hit _ _ _ _ _ Hkey). cbn [fst].
  rewrite (chatPage_at _ count None _ eq_refl). cbn [data].
  rewrite length_app. cbn [length].
  rewrite slice_nonneg by lia.
  assert (Hdata :
    take (Z.to_nat (Z.of_nat (length allMessages + 1))
          - Z.to_nat (Z.max (Z.of_nat (length allMessages + 1)
                             - Z.min (Z.of_nat count) 20) 0))
      (drop (Z.to_nat (Z.max (Z.of_nat (length allMessages + 1)
                              - Z.min (Z.of_nat count) 20) 0))
         (allMessages ++ [newMessage]))
    = drop (S (length allMessages) - Nat.min count 20)
        (allMessages ++ [newMessage])%list).
  { rewrite take_ge by (rewrite length_drop, length_app; cbn; lia).
    f_equal. lia. }
  rewrite Hdata. split; [reflexivity |].
  rewrite drop_app_le by lia. apply last_snoc.
Qed.

Lemma sent_message_on_newest_page_witness :
  last (data (fst (fetchChatMessages "c1" 2 None
                     (snd (sendMessage "c1" "hi" demoLoaded)))))
  = Some (fst (sendMessage "c1" "hi" demoLoaded)).
Proof.
  pose proof (sent_message_on_newest_page "c1" "hi" 2 demoLoaded
                (demoMessage <$> ["m0"; "m1"; "m2"; "m3"; "m4"])
                eq_refl ltac:(lia)) as H.
  destruct (sendMessage "c1" "hi" demoLoaded) as [newMessage st'].
  apply H.
Defined.

(** ** The generated data *)

Lemma Array_from_at_lookup {A} (I : State -> Prop) (P : nat -> A -> Prop)
    (f : nat -> M A) :
  (forall j s, I s -> P j (fst (f j s)) /\ I (snd (f j s))) ->
  forall n i s, I s ->
    forall k x, fst (Array_from_at f i n s) !! k = Some x -> P (i + k)%nat x.
Proof.
  intros Hf. induction n as [| n IH]; intros i s Hs k x; cbn [Array_from_at].
  - discriminate.
  - unfold bind. destruct (Hf i s Hs) as [Hp Hi].
    destruct (f i s) as [y s1]. cbn [fst snd] in Hp, Hi.
    specialize (IH (S i) s1 Hi).
    destruct (Array_from_at f (S i) n s1) as [ys s2]. cbn [fst] in IH |- *.
    destruct k as [| k]; cbn.
    + intros [= <-]. by rewrite Nat.add_0_r.
    + intros Hk. replace (i + S k)%nat with (S i + k)%nat by lia. by apply IH.
Qed.

Lemma append_inj_l (s a b : string) : s +:+ a = s +:+ b -> a = b.
Proof. induction s as [| ch s IH]; cbn; [done |]. intros [= H]. by apply IH. Qed.

Lemma toString_of_nat_inj (i j : nat) :
  toString (Z.of_nat i) = toString (Z.of_nat j) -> i = j.
Proof.
  intros H. apply (f_equal parseInt) in H. rewrite !parseInt_toString in H.
  injection H. lia.
Qed.

Lemma indexed_id_inj (prefix cacheId : string) (i j : nat) :
  prefix +:+ cacheId +:+ "-" +:+ toString (Z.of_nat i)
  = prefix +:+ cacheId +:+ "-" +:+ toString (Z.of_nat j) -> i = j.
Proof.
  intros H. do 3 apply append_inj_l in H. by apply toString_of_nat_inj.
Qed.

Lemma NoDup_indexed {A} (l : list A) (key : A -> string) (F : nat -> string) :
  (forall i j, F i = F j -> i = j) ->
  (forall i x, l !! i = Some x -> key x = F i) ->
  NoDup (key <$> l).
Proof.
  intros Hinj Hkey. apply NoDup_alt. intros i j s.
  rewrite !list_lookup_fmap.
  destruct (l !! i) as [x |] eqn:Ei; [| discriminate].
  destruct (l !! j) as [y |] eqn:Ej; [| discriminate].
  cbn. intros [= <-] [= Hy]. apply Hinj.
  by rewrite <- (Hkey _ _ Ei), <- (Hkey _ _ Ej).
Qed.

Lemma getAvatarUrl_range (i : nat) :
  exists k, 1 <= k <= 70
            /\ getAvatarUrl i = "https://i.pravatar.cc/150?img=" +:+ toString k.
Proof.
  exists (Z.of_nat i mod 70 + 1). split; [| reflexivity].
  pose proof (Z.mod_pos_bound (Z.of_nat i) 70 ltac:(lia)). lia.
Qed.

Lemma nth_mod_In (l : list string) (i : nat) :
  l <> [] -> In (nth (i mod length l)%nat l "") l.
Proof.
  intros Hl. apply nth_In. apply Nat.mod_upper_bound.
  by destruct l.
Qed.

(** What the deterministic fields of the preview at index [i] are. *)
Lemma generateMessagePreviews_lookup (count : nat) (st : State) (i : nat)
    (p : MessagePreview.t) :
  fst (generateMessagePreviews count st) !! i = Some p ->
  let now := dateNow (runtime st) (clockReads st) in
  let cacheId := fst (generateId (snd (Date_now st))) in
  MessagePreview.id p = "preview-" +:+ cacheId +:+ "-" +:+ toString (Z.of_nat i)
  /\ User.id (MessagePreview.user p)
     = "user-" +:+ cacheId +:+ "-" +:+ toString (Z.of_nat i)
  /\ User.name (MessagePreview.user p) = nth (i mod length NAMES)%nat NAMES ""
  /\ User.avatar (MessagePreview.user p) = getAvatarUrl i
  /\ MessagePreview.timestamp p = now - Z.of_nat i * 1000 * 60 * 30.
Proof.
  intros Hp now cacheId. subst now cacheId.
  unfold generateMessagePreviews, bind at 1 2 in Hp.
  destruct (Date_now st) as [now s1] eqn:E.
  assert (now = dateNow (runtime st) (clockReads st)) as <-
    by (unfold Date_now in E; by injection E).
  cbn [snd]. destruct (generateId s1) as [cacheId s2]. cbn [fst] in Hp |- *.
  unfold Array_from in Hp.
  eapply (Array_from_at_lookup (fun _ => True)
            (fun j q =>
               MessagePreview.id q
               = "preview-" +:+ cacheId +:+ "-" +:+ toString (Z.of_nat j)
               /\ User.id (MessagePreview.user q)
                  = "user-" +:+ cacheId +:+ "-" +:+ toString (Z.of_nat j)
               /\ User.name (MessagePreview.user q)
                  = nth (j mod length NAMES)%nat NAMES ""
               /\ User.avatar (MessagePreview.user q) = getAvatarUrl j
               /\ MessagePreview.timestamp q
                  = now - Z.of_nat j * 1000 * 60 * 30)) in Hp;
    [exact Hp | | done].
  intros j s _. split; [| done]. unfold bind.
  destruct (getRandomItem "" MESSAGE_SNIPPETS s) as [lastMessage s3].
  destruct (Math_random s3) as [r s4].
  destruct (Qlt_le_dec (7 # 10) r).
  - destruct (Math_random s4) as [r' s5]. by cbn.
  - by cbn.
Qed.

(** X3: [generateMessagePreviews] returns exactly [count] previews; the
    one at index [i] is dated [i] times 30 minutes before the clock
    reading, so the list runs from newest to strictly older; its user name
    is the entry [i mod 12] of [NAMES] and its avatar is one of the images
    1 to 70. *)
Theorem generateMessagePreviews_shape (count : nat) (st : State) :
  let previews := fst (generateMessagePreviews count st) in
  let now := dateNow (runtime st) (clockReads st) in
  length previews = count
  /\ (forall i p, previews !! i = Some p ->
        MessagePreview.timestamp p = now - Z.of_nat i * (30 * 60 * 1000)
        /\ User.name (MessagePreview.user p) = nth (i mod 12)%nat NAMES ""
        /\ In (User.name (MessagePreview.user p)) NAMES
        /\ exists k, 1 <= k <= 70
             /\ User.avatar (MessagePreview.user p)
                = "https://i.pravatar.cc/150?img=" +:+ toString k)
  /\ (forall i j p q, (i < j)%nat ->
        previews !! i = Some p -> previews !! j = Some q ->
        MessagePreview.timestamp q < MessagePreview.timestamp p).
Proof.
  cbv zeta. split; [apply generateMessagePreviews_length |]. split.
  - intros i p Hp.
    destruct (generateMessagePreviews_lookup _ _ _ _ Hp)
      as (_ & _ & Hname & Havatar & Hts).
    split; [rewrite Hts; lia |]. split; [exact Hname |].
    split; [rewrite Hname; by apply nth_mod_In |].
    rewrite Havatar. apply getAvatarUrl_range.
  - intros i j p q Hij Hp Hq.
    destruct (generateMessagePreviews_lookup _ _ _ _ Hp) as (_ & _ & _ & _ & ->).
    destruct (generateMessagePreviews_lookup _ _ _ _ Hq) as (_ & _ & _ & _ & ->).
    lia.
Qed.

Lemma generateMessagePreviews_shape_witness :
  length (fst (generateMessagePreviews 3 demoState)) = 3%nat
  /\ exists p q,
       fst (generateMessagePreviews 3 demoState) !! 0%nat = Some p
       /\ fst (generateMessagePreviews 3 demoState) !! 2%nat = Some q
       /\ MessagePreview.timestamp q < MessagePreview.timestamp p.
Proof.
  destruct (generateMessagePreviews_shape 3 demoState) as (Hlen & _ & Hold).
  split; [exact Hlen |].
  assert (is_Some (fst (generateMessagePreviews 3 demoState) !! 0%nat)) as [p Hp]
    by (apply lookup_lt_is_Some; rewrite Hlen; lia).
  assert (is_Some (fst (generateMessagePreviews 3 demoState) !! 2%nat)) as [q Hq]
    by (apply lookup_lt_is_Some; rewrite Hlen; lia).
  exists p, q. split; [exact Hp |]. split; [exact Hq |].
  apply (Hold 0%nat 2%nat p q ltac:(lia) Hp Hq).
Defined.

(** X5: within one generated array the ids are pairwise different: the
    preview ids and the user ids of [generateMessagePreviews], the message
    ids of [generateChatMessages] (the lists use them as keys). *)
Theorem generated_ids_distinct (conversationId : string) (count : nat)
    (st : State) :
  NoDup (MessagePreview.id <$> fst (generateMessagePreviews count st))
  /\ NoDup ((fun p => User.id (MessagePreview.user p))
              <$> fst (generateMessagePreviews count st))
  /\ NoDup (ChatMessage.id
              <$> fst (generateChatMessages conversationId count st)).
Proof.
  split; [| split].
  - eapply NoDup_indexed; [apply indexed_id_inj |].
    intros i p Hp. by destruct (generateMessagePreviews_lookup _ _ _ _ Hp).
  - eapply NoDup_indexed; [apply indexed_id_inj |].
    intros i p Hp.
    by destruct (generateMessagePreviews_lookup _ _ _ _ Hp) as (_ & ? & _).
  - rewrite generateChatMessages_run.
    destruct (Date_now st) as [now s1]. destruct (generateId s1) as [cacheId s2].
    cbn [fst]. eapply NoDup_indexed; [apply indexed_id_inj |].
    intros i m. rewrite list_lookup_fmap.
    destruct (seq 0 count !! i) as [k |] eqn:E; [| discriminate].
    apply lookup_seq in E as [-> _]. by intros [= <-].
Qed.

Lemma Qfloor_scaled_range (r : Q) (n : positive) :
  (0 <= r)%Q -> (r < 1)%Q -> 0 <= Qfloor (r * inject_Z (Z.pos n)) < Z.pos n.
Proof.
  intros H0 H1. split.
  - change 0 with (Qfloor 0). apply Qfloor_resp_le.
    apply Qmult_le_0_compat; [exact H0 | done].
  - rewrite Zlt_Qlt. eapply Qle_lt_trans; [apply Qfloor_le |].
    rewrite <- (Qmult_1_l (inject_Z (Z.pos n))) at 2.
    apply Qmult_lt_compat_r; [done | exact H1].
Qed.

Lemma getRandomItem_In (arr : list string) (s : State) :
  arr <> [] ->
  (0 <= mathRandom (runtime s) (drawn s))%Q ->
  (mathRandom (runtime s) (drawn s) < 1)%Q ->
  In (fst (getRandomItem "" arr s)) arr.
Proof.
  intros Harr H0 H1. unfold getRandomItem, bind, Math_random, ret. cbn [fst].
  destruct arr as [| a arr]; [done |].
  set (len := length (a :: arr)).
  assert (Z.of_nat len = Z.pos (Pos.of_nat len)) as Hlen
    by (subst len; cbn [length]; lia).
  pose proof (Qfloor_scaled_range _ (Pos.of_nat len) H0 H1) as Hr.
  rewrite <- Hlen in Hr. unfold Math_floor. fold len.
  match goal with
  | |- context [Qfloor ?q <? 0] => destruct (Z.ltb_spec (Qfloor q) 0)
  end; [lia |].
  apply nth_In. fold len. lia.
Qed.

(** X4: when [Math.random] keeps to its range (0 included, 1 excluded),
    every generated preview has a [lastMessage] taken from
    [MESSAGE_SNIPPETS] and an [unreadCount] from 0 to 5, so that its row
    shows a badge exactly when the count is 1 to 5. *)
Theorem generateMessagePreviews_random_fields (count : nat) (st : State)
    (i : nat) (p : MessagePreview.t) :
  (forall n, (0 <= mathRandom (runtime st) n)%Q
             /\ (mathRandom (runtime st) n < 1)%Q) ->
  fst (generateMessagePreviews count st) !! i = Some p ->
  In (MessagePreview.lastMessage p) MESSAGE_SNIPPETS
  /\ 0 <= MessagePreview.unreadCount p <= 5
  /\ (showsBadge p = true <-> 1 <= MessagePreview.unreadCount p <= 5).
Proof.
  intros Hrand Hp.
  assert (In (MessagePreview.lastMessage p) MESSAGE_SNIPPETS
          /\ 0 <= MessagePreview.unreadCount p <= 5) as [Hin Hrange].
  { unfold generateMessagePreviews, bind at 1 2 in Hp.
    pose proof (pure_Date_now st) as (Hrt1 & _).
    destruct (Date_now st) as [now s1]. cbn [snd] in Hrt1.
    pose proof (pure_generateId s1) as (Hrt2 & _).
    destruct (generateId s1) as [cacheId s2]. cbn [snd] in Hrt2.
    unfold Array_from in Hp.
    eapply (Array_from_at_lookup (fun s => runtime s = runtime st)
              (fun _ q => In (MessagePreview.lastMessage q) MESSAGE_SNIPPETS
                          /\ 0 <= MessagePreview.unreadCount q <= 5)) in Hp;
      [exact Hp | | congruence].
    clear Hp. intros j s Hs.
    pose proof (getRandomItem_In MESSAGE_SNIPPETS s ltac:(done)) as Hitem.
    rewrite Hs in Hitem.
    specialize (Hitem (proj1 (Hrand _)) (proj2 (Hrand _))).
    pose proof (pure_getRandomItem "" MESSAGE_SNIPPETS s) as (Hrt3 & _).
    unfold bind, Math_random, ret.
    destruct (getRandomItem "" MESSAGE_SNIPPETS s) as [lastMessage s3].
    cbn [fst snd] in Hitem, Hrt3.
    assert (runtime s3 = runtime st) as Hs3 by congruence.
    destruct (Qlt_le_dec (7 # 10) (mathRandom (runtime s3) (drawn s3)));
      cbn [fst snd MessagePreview.lastMessage MessagePreview.unreadCount
           runtime drawn].
    - split; [| exact Hs3]. split; [exact Hitem |]. rewrite Hs3.
      pose proof (Qfloor_scaled_range _ 5%positive
                    (proj1 (Hrand (S (drawn s3))))
                    (proj2 (Hrand (S (drawn s3))))) as H5.
      unfold Math_floor. change (inject_Z 5) with 5%Q in H5. lia.
    - split; [| exact Hs3]. split; [exact Hitem | lia]. }
  split; [exact Hin |]. split; [exact Hrange |].
  unfold showsBadge. rewrite Z.ltb_lt. lia.
Qed.

Lemma demoRuntime_random_range (n : nat) :
  (0 <= mathRandom (runtime demoState) n)%Q
  /\ (mathRandom (runtime demoState) n < 1)%Q.
Proof.
  cbn. pose proof (Nat.mod_upper_bound n 10 ltac:(lia)).
  unfold Qle, Qlt. cbn. lia.
Qed.

Lemma generateMessagePreviews_random_fields_witness :
  exists p, fst (generateMessagePreviews 3 demoState) !! 1%nat = Some p
            /\ 0 <= MessagePreview.unreadCount p <= 5.
Proof.
  assert (is_Some (fst (generateMessagePreviews 3 demoState) !! 1%nat)) as [p Hp]
    by (apply lookup_lt_is_Some; rewrite generateMessagePreviews_length; lia).
  exists p. split; [exact Hp |].
  apply (generateMessagePreviews_random_fields 3 demoState 1 p
           demoRuntime_random_range Hp).
Defined.

(** ** The row label, the send button, the item count *)

(** X12: the label [formatTime] puts on a row depends on the age of the
    preview only: "Now" below one minute (also for a date in the future),
    then 1 to 59 minutes, 1 to 23 hours, 1 to 6 days, and the locale date
    from seven days on; a zero is never shown. *)
Theorem formatTime_label (toLocaleDateString : Z -> string) (date : Z)
    (st : State) :
  let diff := dateNow (runtime st) (clockReads st) - date in
  let label := fst (formatTime toLocaleDateString date st) in
  (diff < 60000 -> label = "Now")
  /\ (60000 <= diff < 3600000 ->
      exists m, 1 <= m <= 59 /\ label = toString m +:+ "m")
  /\ (3600000 <= diff < 86400000 ->
      exists h, 1 <= h <= 23 /\ label = toString h +:+ "h")
  /\ (86400000 <= diff < 7 * 86400000 ->
      exists d, 1 <= d <= 6 /\ label = toString d +:+ "d")
  /\ (7 * 86400000 <= diff -> label = toLocaleDateString date).
Proof.
  cbv zeta. unfold formatTime, bind, Date_now, ret. cbn [fst].
  set (diff := dateNow (runtime st) (clockReads st) - date).
  pose proof (Z.mul_div_le diff 60000 ltac:(lia)) as Hm1.
  pose proof (Z.mul_succ_div_gt diff 60000 ltac:(lia)) as Hm2.
  pose proof (Z.mul_div_le diff 3600000 ltac:(lia)) as Hh1.
  pose proof (Z.mul_succ_div_gt diff 3600000 ltac:(lia)) as Hh2.
  pose proof (Z.mul_div_le diff 86400000 ltac:(lia)) as Hd1.
  pose proof (Z.mul_succ_div_gt diff 86400000 ltac:(lia)) as Hd2.
  destruct (Z.ltb_spec (diff / 60000) 1);
    destruct (Z.ltb_spec (diff / 60000) 60);
    destruct (Z.ltb_spec (diff / 3600000) 24);
    destruct (Z.ltb_spec (diff / 86400000) 7);
    (repeat split; intros Hd; try lia; try reflexivity;
     eexists; (split; [| reflexivity]); lia).
Qed.

Lemma formatTime_label_witness :
  fst (formatTime (fun _ => "1/1/2024") (1700000000000 + 5) demoState) = "Now"
  /\ exists h, 1 <= h <= 23
       /\ fst (formatTime (fun _ => "1/1/2024")
                 (1700000000000 - 90 * 60000) demoState)
          = toString h +:+ "h".
Proof.
  destruct (formatTime_label (fun _ => "1/1/2024") (1700000000000 + 5) demoState)
    as (Hnow & _).
  destruct (formatTime_label (fun _ => "1/1/2024")
              (1700000000000 - 90 * 60000) demoState)
    as (_ & _ & Hh & _).
  split; [apply Hnow; cbn; lia | apply Hh; cbn; lia].
Defined.

(** X13: whatever buttons of the test screen are pressed, [itemCount]
    stays a multiple of 5 that is at least 5. *)
Theorem itemCount_invariant (presses : list ItemCountButton) :
  let itemCount := foldl pressItemCount initialItemCount presses in
  5 <= itemCount /\ itemCount mod 5 = 0.
Proof.
  cbv zeta.
  assert (forall n, 5 <= n /\ n mod 5 = 0 ->
            5 <= foldl pressItemCount n presses
            /\ foldl pressItemCount n presses mod 5 = 0) as H.
  { induction presses as [| b presses IH]; intros n Hn; [exact Hn |].
    cbn [foldl]. apply IH. destruct Hn as [Hn Hmod].
    apply Z.mod_divide in Hmod as [k ->]; [| lia].
    destruct b; cbn [pressItemCount].
    - split; [lia |]. destruct (Z.max_spec 5 (k * 5 - 5)) as [[_ ->] | [_ ->]].
      + replace (k * 5 - 5) with ((k - 1) * 5) by lia. apply Z.mod_mul. lia.
      + reflexivity.
    - split; [lia |]. replace (k * 5 + 5) with ((k + 1) * 5) by lia.
      apply Z.mod_mul. lia. }
  apply H. split; [unfold initialItemCount; lia | reflexivity].
Qed.

(** X11: the send handler and the send button agree: with [canSend]
    false, or with no conversation selected, [handleSendMessage] changes
    nothing and calls nothing; with [canSend] true and a conversation
    selected it empties the input and issues one [sendMessage] call with
    the trimmed text. *)
Theorem send_button_agrees (c : Convention) (a : App) :
  (canSend (inputText (sheet a)) = false \/ selectedConversation (sheet a) = None
   -> step c a PressSend = a)
  /\ (forall conversation,
        canSend (inputText (sheet a)) = true ->
        selectedConversation (sheet a) = Some conversation ->
        let a' := step c a PressSend in
        sheet a' = setInputText "" (sheet a)
        /\ inflight a'
           = (inflight a
              ++ [SendTask (MessagePreview.id conversation,
                            trim (inputText (sheet a)))])%list
        /\ fetchChatCalls a' = fetchChatCalls a
        /\ chatCache (service a') = chatCache (service a)
        /\ messageCache (service a') = messageCache (service a)).
Proof.
  unfold canSend. split.
  - intros H. cbn [step]. unfold handleSendMessage_call.
    destruct (trim (inputText (sheet a))) as [| ch t] eqn:E;
      [by destruct a |].
    destruct H as [H | H]; [discriminate H |]. rewrite H. by destruct a.
  - intros conversation Hcan Hsel. cbv zeta. cbn [step].
    unfold handleSendMessage_call. rewrite Hsel.
    destruct (trim (inputText (sheet a))) as [| ch t] eqn:E;
      [discriminate Hcan |].
    by cbn.
Qed.

Lemma send_button_agrees_witness :
  step Inverted (demoApp "   ") PressSend = demoApp "   "
  /\ inflight (step Inverted (demoApp " hi ") PressSend) = [SendTask ("c1", "hi")].
Proof.
  destruct (send_button_agrees Inverted (demoApp "   ")) as [Hblank _].
  destruct (send_button_agrees Inverted (demoApp " hi ")) as [_ Hsend].
  split.
  - apply Hblank. left. reflexivity.
  - apply (Hsend (demoPreview "c1") eq_refl eq_refl).
Defined.

(** ** The conversation sheet in step with the cache *)

Lemma fetchChatMessages_resume_hit conversationId count cursor sv allMessages :
  chatCache sv !! chatKey conversationId = Some allMessages ->
  fetchChatMessages_resume conversationId count cursor sv
  = (chatPage allMessages count cursor, sv).
Proof.
  intros H. unfold fetchChatMessages_resume, bind, chatCache_get, ret.
  rewrite H. cbv beta iota. rewrite H. reflexivity.
Qed.

Lemma fetchChatMessages_resume_miss conversationId count cursor sv :
  chatCache sv !! chatKey conversationId = None ->
  fetchChatMessages_resume conversationId count cursor sv
  = let '(generated, sv1) :=
      generateChatMessages conversationId (count * 3) sv in
    (chatPage generated count cursor,
     snd (chatCache_set (chatKey conversationId) generated sv1)).
Proof.
  intros H. unfold fetchChatMessages_resume, bind, chatCache_get, ret.
  rewrite H.
  destruct (generateChatMessages _ _ _) as [generated sv1].
  cbn -[chatPage]. rewrite lookup_insert_eq. reflexivity.
Qed.

Lemma sendMessage_resume_hit conversationId text sv allMessages :
  chatCache sv !! chatKey conversationId = Some allMessages ->
  let '(newMessage, sv') := sendMessage_resume conversationId text sv in
  chatCache sv' !! chatKey conversationId
  = Some (allMessages ++ [newMessage])%list.
Proof.
  intros H.
  unfold sendMessage_resume, bind, ret, generateId, bind, Math_random,
    Date_now, toString36, ret, chatCache_get, chatCache_set.
  cbn -[substring chatKey]. rewrite H. cbn -[substring chatKey].
  by rewrite lookup_insert_eq.
Qed.

Lemma filter_delete_length {A} (p : A -> bool) (l : list A) (n : nat) (x : A) :
  l !! n = Some x ->
  length (List.filter p (delete n l))
  = (length (List.filter p l) - (if p x then 1 else 0))%nat.
Proof.
  intros H. rewrite delete_take_drop.
  assert (List.filter p l
          = (List.filter p (take n l)
             ++ (if p x then [x] else []) ++ List.filter p (drop (S n) l))%list)
    as ->.
  { rewrite <- (take_drop_middle l n x H) at 1.
    rewrite List.filter_app. cbn [List.filter]. by destruct (p x). }
  rewrite !List.filter_app, !length_app.
  destruct (p x); cbn [length]; lia.
Qed.

Lemma filter_none_Forall {A} (p : A -> bool) (l : list A) :
  length (List.filter p l) = 0%nat -> Forall (fun x => p x = false) l.
Proof.
  induction l as [| x l IH]; cbn [List.filter]; [constructor |].
  destruct (p x) eqn:E; [discriminate |]. intros H. constructor; auto.
Qed.

Lemma Forall_delete_weak {A} (P : A -> Prop) (l : list A) (n : nat) :
  Forall P l -> Forall P (delete n l).
Proof.
  intros H. rewrite delete_take_drop. apply Forall_app.
  split; [by apply Forall_take | by apply Forall_drop].
Qed.

Lemma shown_send c text (sh : Sheet) (m : ChatMessage.t) :
  shown c (handleSendMessage_settle c text (Resolved m) sh)
  = (shown c sh ++ [m])%list.
Proof. destruct c; cbn -[reverse]; [apply reverse_cons | reflexivity]. Qed.

Lemma shown_loadMore c (sh : Sheet) (response : PaginatedResponse ChatMessage.t) :
  shown c (loadMoreChatMessages_settle c (Resolved response) sh)
  = (data response ++ shown c sh)%list.
Proof.
  destruct c; cbn -[reverse]; [| reflexivity].
  by rewrite reverse_app, reverse_involutive.
Qed.

Lemma shown_open c (sh : Sheet) (response : PaginatedResponse ChatMessage.t) :
  shown c (loadChatMessages_settle c (Resolved response) sh) = data response.
Proof. destruct c; cbn -[reverse]; [apply reverse_involutive | reflexivity]. Qed.

Lemma taskFor_same_cursor conversationId (sh sh' : Sheet) (l : list Task) :
  chatCursor sh' = chatCursor sh ->
  Forall (taskFor conversationId sh) l -> Forall (taskFor conversationId sh') l.
Proof.
  intros Hc H. eapply Forall_impl; [exact H |].
  intros [call | call | [cid text]]; cbn; by rewrite ?Hc.
Qed.

Lemma taskFor_sends conversationId (sh sh' : Sheet) (l : list Task) :
  Forall (fun t => isLoadMore t = false) l ->
  Forall (taskFor conversationId sh) l -> Forall (taskFor conversationId sh') l.
Proof.
  intros Hs Hl. induction Hl as [| t l Ht Hl IH]; [constructor |].
  inversion Hs as [| ? ? Hts Hls]; subst. constructor; [| by apply IH].
  destruct t as [call | call | [cid text]]; cbn in *; done.
Qed.

Lemma filter_lookup_pos {A} (p : A -> bool) (l : list A) (n : nat) (x : A) :
  l !! n = Some x -> p x = true -> (1 <= length (List.filter p l))%nat.
Proof.
  intros H Hp.
  assert (In x (List.filter p l)) as Hin.
  { apply List.filter_In. split; [| exact Hp].
    apply list_elem_of_In. by eapply list_elem_of_lookup_2. }
  destruct (List.filter p l); [destruct Hin | cbn; lia].
Qed.

(** One step that is not the opening of a conversation keeps the sheet in
    step with the cache. *)
Lemma inSync_step c conversation (a : App) (e : Event) :
  inSync c conversation a -> isPresent e = false ->
  inSync c conversation (step c a e).
Proof.
  intros (Hsel & Htasks & Hloads & allMessages & k & Hcache & Hk & Hshown & Hcur) He.
  destruct e as [conv | | text | | n fails]; [discriminate He | ..]; cbn [step].
  - (* EndReached *)
    destruct (loadMoreBlocked (sheet a)) eqn:Hb.
    + rewrite (loadMore_blocked _ Hb). unfold inSync; cbn [sheet service inflight].
      split; [done |]. split; [done |]. split; [done |]. by exists allMessages, k.
    + destruct (loadMore_open _ Hb) as (conv' & cursor & Hsel' & Hc & ->).
      rewrite Hsel in Hsel'. injection Hsel' as <-.
      assert (chatLoadingMoreRef (sheet a) = false) as Href
        by (unfold loadMoreBlocked in Hb; by destruct (chatLoadingMoreRef (sheet a))).
      rewrite Href in Hloads.
      unfold inSync; cbn [sheet service inflight]. split; [exact Hsel |]. split; [| split].
      * apply Forall_app. split.
        -- by apply (taskFor_same_cursor _ (sheet a)).
        -- constructor; [| constructor]. cbn. rewrite Hc. by eauto.
      * rewrite List.filter_app, length_app, Hloads. reflexivity.
      * exists allMessages, k. by cbn.
  - (* ChangeText *)
    unfold inSync; cbn [sheet service inflight]. split; [exact Hsel |]. split; [| split].
    + by apply (taskFor_same_cursor _ (sheet a)).
    + exact Hloads.
    + exists allMessages, k. repeat split; try done; by destruct c.
  - (* PressSend *)
    unfold handleSendMessage_call. rewrite Hsel.
    destruct (trim (inputText (sheet a))) as [| ch text] eqn:Et;
      unfold inSync; cbn [sheet service inflight].
    + split; [done |]. split; [done |]. split; [done |]. by exists allMessages, k.
    + split; [exact Hsel |]. split; [| split].
      * apply Forall_app. split.
        -- by apply (taskFor_same_cursor _ (sheet a)).
        -- constructor; [| constructor]. reflexivity.
      * rewrite List.filter_app, length_app. cbn. rewrite Hloads. lia.
      * exists allMessages, k. repeat split; try done; by destruct c.
  - (* TimerFires *)
    destruct (inflight a !! n) as [task |] eqn:En.
    2:{ split; [done |]. split; [done |]. split; [done |].
        by exists allMessages, k. }
    pose proof (Forall_lookup_1 _ _ _ _ Htasks En) as Htask.
    pose proof (filter_delete_length isLoadMore _ _ _ En) as Hdel.
    destruct task as [call | call | [cid text]]; cbn in Htask; [done | ..].
    + (* a load of older messages settles *)
      destruct Htask as [-> [cursor Hc]].
      pose proof (filter_lookup_pos isLoadMore _ _ _ En eq_refl) as Hpos.
      assert (chatLoadingMoreRef (sheet a) = true) as Href
        by (destruct (chatLoadingMoreRef (sheet a)); [done | lia]).
      rewrite Href in Hloads. cbn [isLoadMore] in Hdel. rewrite Hloads in Hdel.
      cbn [settleTask]. destruct fails.
      * unfold inSync; cbn [sheet service inflight]. split; [exact Hsel |]. split; [| split].
        -- apply Forall_delete_weak. by apply (taskFor_same_cursor _ (sheet a)).
        -- by rewrite Hdel.
        -- exists allMessages, k. repeat split; try done; by destruct c.
      * rewrite (fetchChatMessages_resume_hit _ _ _ _ _ Hcache).
        rewrite Hc in Hcur |- *. destruct Hcur as (-> & Hk0 & Hmore).
        rewrite (chatPage_at allMessages 20 _ (Z.of_nat k))
          by apply cursorIndex_toString.
        change (Z.min (Z.of_nat 20) 20) with 20.
        set (s := Z.max (Z.of_nat k - 20) 0).
        assert (0 <= s <= Z.of_nat k) as Hs by (subst s; lia).
        unfold inSync; cbn [sheet service inflight]. split; [exact Hsel |]. split; [| split].
        -- apply taskFor_sends with (sh := sheet a).
           ++ apply filter_none_Forall. by rewrite Hdel.
           ++ by apply Forall_delete_weak.
        -- by rewrite Hdel.
        -- exists allMessages, (Z.to_nat s). split; [exact Hcache |].
           split; [lia |]. split.
           ++ rewrite shown_loadMore, Hshown. cbn [data].
              rewrite <- (Nat2Z.id k) at 2. apply slice_then_drop. lia.
           ++ cbn. destruct (Z.ltb_spec 0 s).
              ** split; [f_equal; lia | split; [lia | done]].
              ** split; [lia | done].
    + (* a send settles *)
      subst cid. cbn [isLoadMore] in Hdel. rewrite Nat.sub_0_r in Hdel.
      cbn [settleTask]. destruct fails.
      * unfold inSync; cbn [sheet service inflight]. split; [exact Hsel |]. split; [| split].
        -- apply Forall_delete_weak. by apply (taskFor_same_cursor _ (sheet a)).
        -- by rewrite Hdel.
        -- exists allMessages, k. repeat split; try done; by destruct c.
      * pose proof (sendMessage_resume_hit _ text _ _ Hcache) as Hsent.
        destruct (sendMessage_resume _ _ _) as [newMessage sv'].
        unfold inSync; cbn [sheet service inflight]. split; [by destruct c |]. split; [| split].
        -- apply Forall_delete_weak.
           apply (taskFor_same_cursor _ (sheet a)); [by destruct c | done].
        -- rewrite Hdel, Hloads. by destruct c.
        -- exists (allMessages ++ [newMessage])%list, k. split; [exact Hsent |].
           split; [rewrite length_app; lia |]. split.
           ++ rewrite shown_send, Hshown. by rewrite drop_app_le.
           ++ by destruct c.
Qed.

Lemma inSync_run c conversation (events : list Event) :
  forall a, inSync c conversation a ->
            Forall (fun e => isPresent e = false) events ->
            inSync c conversation (run c a events).
Proof.
  unfold run. induction events as [| e events IH]; intros a Ha Hev; [exact Ha |].
  inversion Hev as [| ? ? He Hevs]; subst. cbn [foldl].
  apply IH; [by apply inSync_step | exact Hevs].
Qed.

(** X9: once the sheet is in step with the cache it stays so, whatever
    the order of scroll events, typing, sends and settled requests
    (resolved or rejected), as long as no conversation is opened: the
    sheet shows, oldest first, the cached history of the conversation from
    some index on with nothing repeated or left out, and all of it once
    [chatHasMore] is false. *)
Theorem sheet_follows_cache (c : Convention) (conversation : MessagePreview.t)
    (a : App) (events : list Event) :
  inSync c conversation a ->
  Forall (fun e => isPresent e = false) events ->
  let a' := run c a events in
  inSync c conversation a'
  /\ exists allMessages e,
       chatCache (service a') !! chatKey (MessagePreview.id conversation)
       = Some allMessages
       /\ shown c (sheet a') = drop e allMessages
       /\ (chatHasMore (sheet a') = false -> shown c (sheet a') = allMessages).
Proof.
  intros Ha Hev. cbv zeta.
  pose proof (inSync_run c conversation events a Ha Hev) as Ha'.
  split; [exact Ha' |].
  destruct Ha' as (_ & _ & _ & allMessages & e & Hcache & _ & Hshown & Hcur).
  exists allMessages, e. split; [exact Hcache |]. split; [exact Hshown |].
  intros Hmore. rewrite Hshown.
  destruct (chatCursor (sheet (run c a events))).
  - destruct Hcur as (_ & _ & Hcur). congruence.
  - by destruct Hcur as [-> _].
Qed.

(** X8: opening a conversation while nothing is in flight, once the load
    has resolved, leaves the sheet in step with the cache and showing the
    newest messages: the cached history without all but its last 20, the
    history being the one already cached or else 60 generated messages. *)
Theorem opening_shows_newest (c : Convention) (conversation : MessagePreview.t)
    (a : App) :
  inflight a = [] ->
  chatLoadingMoreRef (sheet a) = false ->
  let a' := run c a [Present conversation; TimerFires 0 false] in
  inSync c conversation a'
  /\ exists allMessages,
       chatCache (service a') !! chatKey (MessagePreview.id conversation)
       = Some allMessages
       /\ shown c (sheet a') = drop (length allMessages - 20) allMessages
       /\ match chatCache (service a) !! chatKey (MessagePreview.id conversation)
          with
          | Some cached => allMessages = cached
          | None => length allMessages = 60%nat
          end.
Proof.
  intros Hidle Href. cbv zeta. unfold run. cbn [foldl step].
  unfold loadChatMessages_call. rewrite Hidle. cbn [sheet service inflight app].
  cbn [lookup list_lookup settleTask].
  set (sv := snd (simulateLatency 200 300 (service a))).
  set (key := chatKey (MessagePreview.id conversation)).
  assert (chatCache sv = chatCache (service a)) as Hsv by reflexivity.
  assert (exists allMessages sv',
             fetchChatMessages_resume (MessagePreview.id conversation) 20 None sv
             = (chatPage allMessages 20 None, sv')
             /\ chatCache sv' !! key = Some allMessages
             /\ match chatCache (service a) !! key with
                | Some cached => allMessages = cached
                | None => length allMessages = 60%nat
                end) as (allMessages & sv' & -> & Hcache & Horigin).
  { rewrite <- Hsv. destruct (chatCache sv !! key) as [cached |] eqn:E.
    - exists cached, sv. by rewrite (fetchChatMessages_resume_hit _ _ _ _ _ E).
    - rewrite (fetchChatMessages_resume_miss _ _ _ _ E).
      pose proof (generateChatMessages_length (MessagePreview.id conversation)
                    (20 * 3) sv) as Hlen.
      destruct (generateChatMessages _ _ _) as [generated sv1].
      eexists generated, _. split; [reflexivity |].
      split; [apply lookup_insert_eq | exact Hlen]. }
  rewrite (chatPage_at allMessages 20 None _ eq_refl).
  change (Z.min (Z.of_nat 20) 20) with 20.
  set (L := length allMessages) in *.
  set (s := Z.max (Z.of_nat L - 20) 0).
  assert (Z.to_nat s = (L - 20)%nat) as Hs by (subst s; lia).
  assert (shown c
            (loadChatMessages_settle c
               (Resolved
                  {| data := slice allMessages (Int s) (Int (Z.of_nat L));
                     hasMore := 0 <? s;
                     nextCursor := if 0 <? s then Some (toString s) else None |})
               (setChatCursor None
                  (setChatMessages (fun _ => [])
                     (setChatLoading true
                        (setSelectedConversation (Some conversation) (sheet a))))))
          = drop (L - 20) allMessages) as Hshown.
  { rewrite shown_open. cbn [data]. rewrite slice_nonneg by lia.
    rewrite Hs. apply take_ge. rewrite length_drop. lia. }
  split.
  - unfold inSync. cbn [sheet service inflight delete list_delete].
    split; [by destruct c |]. split; [constructor |].
    split; [cbn; by rewrite Href |].
    exists allMessages, (L - 20)%nat. split; [exact Hcache |].
    split; [lia |]. split; [exact Hshown |].
    cbn. destruct (Z.ltb_spec 0 s).
    + split; [f_equal; lia | split; [lia | done]].
    + split; [lia | done].
  - exists allMessages. cbn [sheet service]. by repeat split.
Qed.

Lemma opening_shows_newest_witness :
  shown Inverted
    (sheet (run Inverted (demoApp "") [Present (demoPreview "c1");
                                        TimerFires 0 false]))
  = demoMessage <$> ["m0"; "m1"; "m2"; "m3"; "m4"].
Proof.
  destruct (opening_shows_newest Inverted (demoPreview "c1") (demoApp "")
              eq_refl eq_refl) as (_ & allMessages & Hcache & Hshown & Horigin).
  cbn in Horigin. rewrite Hshown, Horigin. reflexivity.
Defined.

Lemma demoApp_inSync typed :
  inSync Chronological (demoPreview "c1") (demoApp typed).
Proof.
  split; [reflexivity |]. split; [constructor |]. split; [reflexivity |].
  exists (demoMessage <$> ["m0"; "m1"; "m2"; "m3"; "m4"]), 3%nat.
  split; [reflexivity |]. split; [cbn; lia |].
  split; [reflexivity |]. cbn. split; [reflexivity | split; [lia | done]].
Qed.

Lemma sheet_follows_cache_witness :
  exists allMessages e,
    chatCache
      (service (run Chronological (demoApp " hi ")
                  [PressSend; EndReached; TimerFires 0 false;
                   TimerFires 0 true]))
    !! chatKey "c1" = Some allMessages
    /\ shown Chronological
         (sheet (run Chronological (demoApp " hi ")
                   [PressSend; EndReached; TimerFires 0 false;
                    TimerFires 0 true]))
       = drop e allMessages.
Proof.
  destruct (sheet_follows_cache Chronological (demoPreview "c1")
              (demoApp " hi ")
              [PressSend; EndReached; TimerFires 0 false; TimerFires 0 true]
              (demoApp_inSync _))
    as (_ & allMessages & e & Hcache & Hshown & _).
  - repeat constructor.
  - exists allMessages, e. by split.
Defined.

(** X10: with the sheet in step with the cache, nothing in flight and
    [chatHasMore] true, one scroll to the top followed by the resolved
    load issues exactly one [fetchChatMessages] call, with the sheet's
    cursor, and extends what is shown by the 20 next older messages (by
    all that is left if fewer). *)
Theorem loadOlder_reveals_page (c : Convention) (conversation : MessagePreview.t)
    (a : App) :
  inSync c conversation a ->
  inflight a = [] ->
  chatHasMore (sheet a) = true ->
  let a' := run c a [EndReached; TimerFires 0 false] in
  exists allMessages e,
    chatCache (service a) !! chatKey (MessagePreview.id conversation)
    = Some allMessages
    /\ chatCursor (sheet a) = Some (toString (Z.of_nat e))
    /\ shown c (sheet a) = drop e allMessages
    /\ shown c (sheet a') = drop (e - 20) allMessages
    /\ chatHasMore (sheet a') = negb (e <=? 20)%nat
    /\ fetchChatCalls a'
       = (fetchChatCalls a
          ++ [(MessagePreview.id conversation, 20%nat,
               Some (toString (Z.of_nat e)))])%list
    /\ inflight a' = []
    /\ chatCache (service a') = chatCache (service a).
Proof.
  intros (Hsel & _ & Hloads & allMessages & e & Hcache & He & Hshown & Hcur)
    Hidle Hmore.
  rewrite Hidle in Hloads. cbn in Hloads.
  assert (chatLoadingMoreRef (sheet a) = false) as Href
    by (by destruct (chatLoadingMoreRef (sheet a))).
  destruct (chatCursor (sheet a)) as [cursor |] eqn:Hc;
    [| destruct Hcur as [_ Hcur]; congruence].
  destruct Hcur as (-> & He0 & _).
  assert (truthy (Some (toString (Z.of_nat e))) = Some (toString (Z.of_nat e)))
    as Htruthy by apply toString_truthy.
  cbv zeta. exists allMessages, e.
  split; [exact Hcache |]. split; [reflexivity |]. split; [exact Hshown |].
  unfold run. cbn [foldl].
  assert (step c a EndReached
          = {| sheet := setChatLoadingMore true
                          (set_chatLoadingMoreRef true (sheet a));
               service := snd (simulateLatency 200 300 (service a));
               inflight :=
                 [LoadMoreTask (MessagePreview.id conversation, 20%nat,
                                Some (toString (Z.of_nat e)))];
               fetchChatCalls :=
                 (fetchChatCalls a
                  ++ [(MessagePreview.id conversation, 20%nat,
                       Some (toString (Z.of_nat e)))])%list |}) as ->.
  { cbn [step]. unfold loadMoreChatMessages_call.
    rewrite Href, Hmore, Hc, Htruthy, Hsel, Hidle. reflexivity. }
  cbn [step sheet service inflight lookup list_lookup settleTask delete
       list_delete].
  assert (chatCache (snd (simulateLatency 200 300 (service a)))
          !! chatKey (MessagePreview.id conversation) = Some allMessages)
    as Hcache' by exact Hcache.
  rewrite (fetchChatMessages_resume_hit _ _ _ _ _ Hcache').
  rewrite (chatPage_at allMessages 20 _ (Z.of_nat e))
    by apply cursorIndex_toString.
  change (Z.min (Z.of_nat 20) 20) with 20.
  set (s := Z.max (Z.of_nat e - 20) 0).
  assert (Z.to_nat s = (e - 20)%nat) as Hs by (subst s; lia).
  cbn [sheet service inflight fetchChatCalls].
  split; [| split; [| by repeat split]].
  - rewrite shown_loadMore.
    assert (shown c (setChatLoadingMore true
                       (set_chatLoadingMoreRef true (sheet a)))
            = shown c (sheet a)) as -> by (by destruct c).
    rewrite Hshown. cbn [data]. rewrite <- Hs.
    rewrite <- (Nat2Z.id e) at 2. apply slice_then_drop. subst s. lia.
  - cbn. destruct (Z.ltb_spec 0 s); destruct (Nat.leb_spec e 20);
      try reflexivity; subst s; lia.
Qed.

Lemma loadOlder_reveals_page_witness :
  shown Chronological
    (sheet (run Chronological (demoApp "") [EndReached; TimerFires 0 false]))
  = demoMessage <$> ["m0"; "m1"; "m2"; "m3"; "m4"]
  /\ chatHasMore
       (sheet (run Chronological (demoApp "") [EndReached; TimerFires 0 false]))
     = false.
Proof.
  destruct (loadOlder_reveals_page Chronological (demoPreview "c1") (demoApp "")
              (demoApp_inSync _) eq_refl eq_refl)
    as (allMessages & e & Hcache & Hcur & _ & Hshown & Hmore & _).
  injection Hcache as <-.
  assert (3%nat = e) as <-
    by (apply toString_of_nat_inj; by injection Hcur).
  split; [exact Hshown | exact Hmore].
Defined.

(** ** The messages sheet in step with the cache *)

Lemma fetchMessagePreviews_resume_hit count cursor sv allMessages :
  messageCache sv !! previewsKey count = Some allMessages ->
  fetchMessagePreviews_resume count cursor sv
  = (previewsPage allMessages count cursor, sv).
Proof.
  intros H. unfold fetchMessagePreviews_resume, bind, messageCache_get, ret.
  rewrite H. cbv beta iota. rewrite H. reflexivity.
Qed.

Lemma fetchMessagePreviews_resume_miss count cursor sv :
  messageCache sv !! previewsKey count = None ->
  fetchMessagePreviews_resume count cursor sv
  = let '(generated, sv1) := generateMessagePreviews (count * 3) sv in
    (previewsPage generated count cursor,
     snd (messageCache_set (previewsKey count) generated sv1)).
Proof.
  intros H. unfold fetchMessagePreviews_resume, bind, messageCache_get, ret.
  rewrite H.
  destruct (generateMessagePreviews _ _) as [generated sv1].
  cbn -[previewsPage]. rewrite lookup_insert_eq. reflexivity.
Qed.

(** What a resolved load of the next page leaves, from a sheet that shows
    [e] previews. *)
Lemma loadMore_resolved (n : nat) (allMessages : list MessagePreview.t)
    (e : nat) (sh : MessagesSheet) :
  (e < length allMessages)%nat ->
  messages sh = take e allMessages ->
  let e' := Nat.min (e + Nat.min n 20) (length allMessages) in
  let sh' :=
    loadMoreMessages_settle
      (Resolved (previewsPage allMessages n (Some (toString (Z.of_nat e))))) sh in
  messages sh' = take e' allMessages
  /\ messagesLoadingRef sh' = false
  /\ match messagesCursor sh' with
     | Some cursor =>
         cursor = toString (Z.of_nat e') /\ (e' < length allMessages)%nat
         /\ messagesHasMore sh' = true
     | None => e' = length allMessages /\ messagesHasMore sh' = false
     end.
Proof.
  intros He Hm. cbv zeta.
  rewrite (previewsPage_at allMessages n _ (Z.of_nat e))
    by apply cursorIndex_toString.
  set (end' := Z.min (Z.of_nat e + Z.min (Z.of_nat n) 20)
                 (Z.of_nat (length allMessages))).
  assert (Z.of_nat (Nat.min (e + Nat.min n 20) (length allMessages)) = end')
    as Hend by (subst end'; lia).
  cbn [loadMoreMessages_settle messages messagesLoadingRef messagesCursor
       messagesHasMore data hasMore nextCursor].
  split; [| split; [reflexivity |]].
  - rewrite Hm. rewrite <- (Nat2Z.id e) at 1.
    rewrite take_then_slice by (subst end'; lia). f_equal. lia.
  - destruct (Z.ltb_spec end' (Z.of_nat (length allMessages))).
    + split; [by rewrite Hend | split; [lia | done]].
    + split; [lia | done].
Qed.

(** One step that is not a change of the item count keeps the messages
    sheet in step with the cache. *)
Lemma listAt_step n allMessages e (a : ListApp) (ev : ListEvent) :
  listAt n allMessages e a -> isItemCount ev = false ->
  exists e', (e <= e')%nat /\ listAt n allMessages e' (listStep a ev).
Proof.
  intros (Hn & Hcache & He & Hm & Hcur & Hfl & Href) Hev.
  destruct ev as [n' | | k fails]; [discriminate Hev | ..]; cbn [listStep].
  - (* the end of the list is reached *)
    exists e. split; [lia |]. unfold loadMoreMessages_call.
    destruct (messagesLoadingRef (listSheet a)) eqn:Er.
    { list_state. rewrite ?Er, ?Em. repeat split; done. }
    destruct (messagesHasMore (listSheet a)) eqn:Em.
    2:{ list_state. rewrite ?Er, ?Em. repeat split; done. }
    destruct (messagesCursor (listSheet a)) as [cursor |] eqn:Ec.
    2:{ by destruct Hcur. }
    destruct Hcur as (-> & He' & _). rewrite toString_truthy.
    list_state. rewrite Hfl, Hn. repeat split; try done; by eauto.
  - (* a request settles *)
    rewrite Hfl. destruct (messagesLoadingRef (listSheet a)) eqn:Er.
    2:{ exists e. split; [lia |]. rewrite lookup_nil. list_state.
        rewrite ?Er. by repeat split. }
    destruct (Href eq_refl) as [cursor Ec]. rewrite Ec in Hcur, Hfl |- *.
    destruct Hcur as (-> & He' & Hmore).
    destruct k as [| k].
    2:{ exists e. split; [lia |].
        rewrite (lookup_ge_None_2 _ (S k)) by (cbn; lia). list_state.
        rewrite ?Er, ?Ec.
        repeat split; try done; by eauto. }
    cbn [lookup list_lookup settleListTask]. destruct fails.
    + exists e. split; [lia |]. list_state. rewrite ?Ec. by repeat split.
    + rewrite (fetchMessagePreviews_resume_hit _ _ _ _ Hcache).
      destruct (loadMore_resolved n allMessages e (listSheet a) He' Hm)
        as (Hm' & Hr' & Hc').
      exists (Nat.min (e + Nat.min n 20) (length allMessages)).
      split; [lia |]. unfold listAt.
      cbn [listSheet listService listInflight itemCount delete list_delete].
      rewrite Hr'. repeat split; try done; lia.
Qed.

Lemma listAt_run n allMessages (events : list ListEvent) :
  forall e a, listAt n allMessages e a ->
              Forall (fun ev => isItemCount ev = false) events ->
              exists e', (e <= e')%nat
                         /\ listAt n allMessages e' (listRun a events).
Proof.
  unfold listRun. induction events as [| ev events IH]; intros e a Ha Hev.
  - exists e. by split.
  - inversion Hev as [| ? ? Hev1 Hevs]; subst. cbn [foldl].
    destruct (listAt_step _ _ _ _ _ Ha Hev1) as (e1 & He1 & Ha1).
    destruct (IH e1 _ Ha1 Hevs) as (e2 & He2 & Ha2).
    exists e2. split; [lia | exact Ha2].
Qed.

Lemma listAt_complete n allMessages e (a : ListApp) :
  listAt n allMessages e a ->
  messages (listSheet a) = take e allMessages
  /\ (messagesHasMore (listSheet a) = false ->
      messages (listSheet a) = allMessages).
Proof.
  intros (_ & _ & He & Hm & Hcur & _). split; [exact Hm |].
  intros Hmore. destruct (messagesCursor (listSheet a)).
  - destruct Hcur as (_ & _ & Hcur). congruence.
  - destruct Hcur as [-> _]. rewrite Hm. by apply take_ge.
Qed.

(** X15: once the messages sheet is in step with the cache it stays so,
    whatever the order of scroll events and settled loads (resolved or
    rejected), as long as the item count does not change: it shows the
    first previews of the cached array, in order, never fewer than
    before, and the whole array once [messagesHasMore] is false. *)
Theorem list_follows_cache (n : nat) (allMessages : list MessagePreview.t)
    (e : nat) (a : ListApp) (events : list ListEvent) :
  listAt n allMessages e a ->
  Forall (fun ev => isItemCount ev = false) events ->
  let a' := listRun a events in
  exists e',
    (e <= e')%nat
    /\ listAt n allMessages e' a'
    /\ messages (listSheet a') = take e' allMessages
    /\ (messagesHasMore (listSheet a') = false ->
        messages (listSheet a') = allMessages).
Proof.
  intros Ha Hev. cbv zeta.
  destruct (listAt_run n allMessages events e a Ha Hev) as (e' & He' & Ha').
  exists e'. split; [exact He' |]. split; [exact Ha' |].
  by apply (listAt_complete n).
Qed.

(** X14: mounting the messages sheet, or changing its item count to [n],
    while nothing is in flight, once the load has resolved: one call
    [fetchMessagePreviews(n)] was made, the cache holds a newly generated
    array of [3 * n] previews, the sheet shows its first [min(n, 20)]
    and is in step with it; every cached conversation history is gone. *)
Theorem reload_shows_first_page (n : nat) (a : ListApp) :
  listInflight a = [] ->
  let a' := listRun a [ItemCount n; ListTimerFires 0 false] in
  exists allMessages,
    length allMessages = (3 * n)%nat
    /\ listAt n allMessages (Nat.min n 20) a'
    /\ messages (listSheet a') = take (Nat.min n 20) allMessages
    /\ chatCache (listService a') = ∅
    /\ previewsCalls a' = (previewsCalls a ++ [(n, None)])%list.
Proof.
  intros Hidle. cbv zeta. unfold listRun. cbn [foldl listStep].
  unfold loadMessages_call. rewrite Hidle.
  cbn [listSheet listService listInflight itemCount app lookup list_lookup
       settleListTask delete list_delete].
  set (sv := snd (simulateLatency 300 200 (snd (clearCache (listService a))))).
  assert (messageCache sv !! previewsKey n = None) as Hmiss
    by apply lookup_empty.
  assert (chatCache sv = ∅) as Hchat by reflexivity.
  rewrite (fetchMessagePreviews_resume_miss _ _ _ Hmiss).
  pose proof (generateMessagePreviews_length (n * 3) sv) as Hlen.
  pose proof (pure_generateMessagePreviews (n * 3) sv) as (_ & _ & Hgc).
  destruct (generateMessagePreviews (n * 3) sv) as [generated sv1].
  cbn [fst snd] in Hlen, Hgc.
  rewrite (previewsPage_at generated n None 0 eq_refl). rewrite Hlen.
  set (end' := Z.min (0 + Z.min (Z.of_nat n) 20) (Z.of_nat (n * 3))).
  assert (end' = Z.of_nat (Nat.min n 20)) as Hend by (subst end'; lia).
  assert (slice generated (Int 0) (Int end') = take (Nat.min n 20) generated)
    as Hdata.
  { rewrite slice_nonneg by lia. cbn [drop Z.to_nat]. f_equal. lia. }
  exists generated. split; [lia |].
  cbn [listSheet listService listInflight itemCount previewsCalls
       loadMessages_settle messages messagesCursor messagesHasMore
       messagesLoadingRef data hasMore nextCursor].
  split; [| split; [exact Hdata | split; [by rewrite <- Hchat, <- Hgc | done]]].
  unfold listAt.
  cbn [listSheet listService listInflight itemCount previewsCalls
       messages messagesCursor messagesHasMore messagesLoadingRef].
  split; [done |]. split; [apply lookup_insert_eq |]. split; [lia |].
  split; [exact Hdata |]. split; [| by split].
  destruct (Z.ltb_spec end' (Z.of_nat (n * 3))).
  - split; [by rewrite Hend | split; [lia | done]].
  - split; [lia | done].
Qed.

Lemma reload_shows_first_page_witness :
  exists allMessages,
    length allMessages = 60%nat
    /\ messages (listSheet (listRun demoListApp
                              [ItemCount 20; ListTimerFires 0 false]))
       = take 20 allMessages
    /\ chatCache (listService (listRun demoListApp
                                 [ItemCount 20; ListTimerFires 0 false])) = ∅.
Proof.
  destruct (reload_shows_first_page 20 demoListApp eq_refl)
    as (allMessages & Hlen & _ & Hm & Hchat & _).
  exists allMessages. by repeat split.
Defined.

Lemma demoListLoaded_listAt :
  listAt 2 (demoPreview <$> ["a"; "b"; "c"; "d"; "e"]) 2 demoListLoaded.
Proof.
  unfold listAt. cbn. repeat split; try done; lia.
Qed.

Lemma list_follows_cache_witness :
  exists e',
    messages (listSheet (listRun demoListLoaded
                           [ListEndReached; ListEndReached;
                            ListTimerFires 0 false; ListEndReached]))
    = take e' (demoPreview <$> ["a"; "b"; "c"; "d"; "e"]).
Proof.
  destruct (list_follows_cache 2 _ 2 demoListLoaded
              [ListEndReached; ListEndReached; ListTimerFires 0 false;
               ListEndReached] demoListLoaded_listAt)
    as (e' & _ & _ & Hm & _).
  - repeat constructor.
  - by exists e'.
Defined.

(** One round: the list reaches its end and the load, if one was issued,
    resolves. *)
Lemma listAt_round n allMessages e (a : ListApp) :
  listAt n allMessages e a ->
  messagesLoadingRef (listSheet a) = false ->
  let a' := listRun a [ListEndReached; ListTimerFires 0 false] in
  listAt n allMessages (Nat.min (e + Nat.min n 20) (length allMessages)) a'
  /\ messagesLoadingRef (listSheet a') = false.
Proof.
  intros (Hn & Hcache & He & Hm & Hcur & Hfl & Href) Er. cbv zeta.
  rewrite Er in Hfl. unfold listRun. cbn [foldl].
  destruct (messagesCursor (listSheet a)) as [cursor |] eqn:Ec.
  - destruct Hcur as (-> & He' & Hmore).
    assert (listStep a ListEndReached
            = {| listSheet :=
                   {| messagesLoadingRef := true;
                      messages := messages (listSheet a);
                      messagesLoading := true;
                      messagesHasMore := messagesHasMore (listSheet a);
                      messagesCursor := messagesCursor (listSheet a) |};
                 itemCount := itemCount a;
                 listService := snd (simulateLatency 300 200 (listService a));
                 listInflight :=
                   [LoadMoreMessagesTask (n, Some (toString (Z.of_nat e)))];
                 previewsCalls :=
                   (previewsCalls a ++ [(n, Some (toString (Z.of_nat e)))])%list
              |}) as ->.
    { cbn [listStep]. unfold loadMoreMessages_call.
      rewrite Er, Hmore, Ec, toString_truthy, Hfl, Hn. reflexivity. }
    cbn [listStep listSheet listService listInflight itemCount lookup
         list_lookup settleListTask delete list_delete].
    assert (messageCache (snd (simulateLatency 300 200 (listService a)))
            !! previewsKey n = Some allMessages) as Hcache' by exact Hcache.
    rewrite (fetchMessagePreviews_resume_hit _ _ _ _ Hcache').
    destruct (loadMore_resolved n allMessages e
                {| messagesLoadingRef := true;
                   messages := messages (listSheet a);
                   messagesLoading := true;
                   messagesHasMore := messagesHasMore (listSheet a);
                   messagesCursor := messagesCursor (listSheet a) |} He' Hm)
      as (Hm' & Hr' & Hc').
    split; [| exact Hr']. unfold listAt.
    cbn [listSheet listService listInflight itemCount].
    rewrite Hr'. repeat split; try done; lia.
  - destruct Hcur as [-> Hmore].
    assert (listStep a ListEndReached
            = {| listSheet := listSheet a; itemCount := itemCount a;
                 listService := listService a; listInflight := listInflight a;
                 previewsCalls := previewsCalls a |}) as ->.
    { cbn [listStep]. unfold loadMoreMessages_call. by rewrite Er, Hmore. }
    cbn [listStep listInflight]. rewrite Hfl. cbn [lookup list_lookup].
    split; [| exact Er]. unfold listAt.
    cbn [listSheet listService listInflight itemCount].
    rewrite Er, Ec, Nat.min_r by lia. by repeat split.
Qed.

Lemma listAt_rounds n allMessages (k : nat) :
  forall e a,
    listAt n allMessages e a ->
    messagesLoadingRef (listSheet a) = false ->
    let a' := listRun a (loadMoreRounds k) in
    listAt n allMessages
      (Nat.min (e + k * Nat.min n 20) (length allMessages)) a'
    /\ messagesLoadingRef (listSheet a') = false.
Proof.
  induction k as [| k IH]; intros e a Ha Er; cbv zeta.
  - unfold loadMoreRounds. cbn [replicate concat listRun foldl].
    pose proof Ha as (_ & _ & He & _). cbn [Nat.mul].
    rewrite Nat.add_0_r, Nat.min_l by lia. by split.
  - unfold loadMoreRounds, listRun. cbn [replicate concat app foldl].
    destruct (listAt_round _ _ _ _ Ha Er) as [Ha1 Er1].
    unfold listRun in Ha1, Er1. cbn [foldl] in Ha1, Er1.
    destruct (IH _ _ Ha1 Er1) as [Ha2 Er2].
    unfold loadMoreRounds, listRun in Ha2, Er2.
    split; [| exact Er2].
    replace (Nat.min (e + S k * Nat.min n 20) (length allMessages))
      with (Nat.min (Nat.min (e + Nat.min n 20) (length allMessages)
                     + k * Nat.min n 20) (length allMessages)) by lia.
    exact Ha2.
Qed.

(** X16: from a messages sheet in step with the cache and with no load in
    flight, [k] rounds of reaching the end of the list and having the load
    resolve show the first [e + k * min(n, 20)] previews of the cached
    array; once the rounds cover the array, the sheet shows all of it,
    with [messagesHasMore] false and no cursor. *)
Theorem list_loads_everything (n : nat) (allMessages : list MessagePreview.t)
    (e : nat) (a : ListApp) (k : nat) :
  listAt n allMessages e a ->
  messagesLoadingRef (listSheet a) = false ->
  let a' := listRun a (loadMoreRounds k) in
  messages (listSheet a') = take (e + k * Nat.min n 20) allMessages
  /\ ((length allMessages <= e + k * Nat.min n 20)%nat ->
      messages (listSheet a') = allMessages
      /\ messagesHasMore (listSheet a') = false
      /\ messagesCursor (listSheet a') = None).
Proof.
  intros Ha Er. cbv zeta.
  destruct (listAt_rounds n allMessages k e a Ha Er) as [Ha' _].
  destruct Ha' as (_ & _ & He' & Hm & Hcur & _). split.
  - rewrite Hm.
    destruct (Nat.min_spec (e + k * Nat.min n 20) (length allMessages))
      as [[_ ->] | [Hle ->]]; [reflexivity |].
    by rewrite !take_ge by lia.
  - intros Hcover. rewrite Nat.min_r in Hm, Hcur by lia.
    split; [rewrite Hm; by apply take_ge |].
    destruct (messagesCursor (listSheet (listRun a (loadMoreRounds k)))).
    + destruct Hcur as (_ & Hlt & _). lia.
    + by destruct Hcur.
Qed.

Lemma list_loads_everything_witness :
  messages (listSheet (listRun demoListLoaded (loadMoreRounds 2)))
  = demoPreview <$> ["a"; "b"; "c"; "d"; "e"]
  /\ messagesHasMore (listSheet (listRun demoListLoaded (loadMoreRounds 2)))
     = false.
Proof.
  destruct (list_loads_everything 2 _ 2 demoListLoaded 2
              demoListLoaded_listAt eq_refl) as [_ Hall].
  destruct Hall as (Hm & Hmore & _); [cbn; lia |]. by split.
Defined.

(** X17: [loadMessages] opens the guard of [loadMoreMessages] and leaves
    the old cursor in place: right after a change of the item count, with
    the reload still in flight (and even with an earlier load-more in
    flight), a sheet that had a cursor and [messagesHasMore] answers the
    next scroll event with a load-more call for the old cursor. *)
Theorem reload_reopens_guard (n : nat) (a : ListApp) (cursor : string) :
  messagesHasMore (listSheet a) = true ->
  truthy (messagesCursor (listSheet a)) = Some cursor ->
  let a' := listRun a [ItemCount n; ListEndReached] in
  previewsCalls a'
  = (previewsCalls a ++ [(n, None); (n, Some cursor)])%list
  /\ listInflight a'
     = (listInflight a
        ++ [LoadMessagesTask (n, None);
            LoadMoreMessagesTask (n, Some cursor)])%list.
Proof.
  intros Hmore Hcur. cbv zeta. unfold listRun. cbn [foldl listStep].
  unfold loadMessages_call, loadMoreMessages_call.
  cbn [listSheet itemCount messagesLoadingRef messagesHasMore messagesCursor].
  rewrite Hmore, Hcur. cbn [previewsCalls listInflight].
  by rewrite <- !app_assoc.
Qed.

Lemma reload_reopens_guard_witness :
  previewsCalls (listRun (listStep demoListLoaded ListEndReached)
                   [ItemCount 2; ListEndReached])
  = [(2%nat, Some "2"); (2%nat, None); (2%nat, Some "2")].
Proof.
  apply (reload_reopens_guard 2 (listStep demoListLoaded ListEndReached) "2"
           eq_refl eq_refl).
Defined.

Lemma cursor_round_trip_witness :
  (truthy (Some "2") = Some "2" /\ parseInt "2" = Int (Z.min (0 + 2) 5))
  /\ (truthy (Some "3") = Some "3" /\ parseInt "3" = Int (Z.max (5 - 2) 0)).
Proof.
  destruct (cursor_round_trip "c1" 2 None demoLoaded) as [[_ Hfwd] [_ Hbwd]].
  split.
  - apply (Hfwd 0 "2" eq_refl); [unfold MAX_SAFE_INTEGER; lia | reflexivity].
  - apply (Hbwd 5 "3" eq_refl); [unfold MAX_SAFE_INTEGER; lia | reflexivity].
Defined.

Lemma previewsKey_inj (n m : nat) : previewsKey n = previewsKey m -> n = m.
Proof.
  unfold previewsKey. intros H. apply append_inj_l in H.
  by apply toString_of_nat_inj.
Qed.

(** X18: cache entries do not interfere: different item counts have
    different preview keys and different conversations different chat
    keys, and a fetch or a send for one key leaves the entry of every
    other key, and the other cache, as it was. *)
Theorem cache_entries_isolated (n m : nat) (conversationId other text : string)
    (cursor : option string) (st : State) :
  (n <> m ->
   previewsKey n <> previewsKey m
   /\ messageCache (snd (fetchMessagePreviews n cursor st)) !! previewsKey m
      = messageCache st !! previewsKey m)
  /\ (conversationId <> other ->
      chatKey conversationId <> chatKey other
      /\ chatCache (snd (fetchChatMessages conversationId n cursor st))
         !! chatKey other
         = chatCache st !! chatKey other
      /\ chatCache (snd (sendMessage conversationId text st)) !! chatKey other
         = chatCache st !! chatKey other)
  /\ chatCache (snd (fetchMessagePreviews n cursor st)) = chatCache st
  /\ messageCache (snd (fetchChatMessages conversationId n cursor st))
     = messageCache st
  /\ messageCache (snd (sendMessage conversationId text st)) = messageCache st.
Proof.
  pose proof (fetchMessagePreviews_backing n cursor st) as Hp.
  pose proof (fetchChatMessages_backing conversationId n cursor st) as Hc.
  pose proof (sendMessage_caches conversationId text st) as Hs.
  destruct (fetchMessagePreviews n cursor st) as [page1 st1].
  destruct (fetchChatMessages conversationId n cursor st) as [page2 st2].
  destruct (sendMessage conversationId text st) as [newMessage st3].
  destruct Hp as (_ & _ & Hp & Hpc). destruct Hc as (_ & _ & Hc & Hcm).
  destruct Hs as (_ & Hs & Hsm). cbn [snd].
  split; [| split; [| by repeat split]].
  - intros Hne.
    assert (previewsKey n <> previewsKey m) as Hk
      by (intros H; by apply previewsKey_inj in H).
    split; [exact Hk |]. by apply Hp.
  - intros Hne.
    assert (chatKey conversationId <> chatKey other) as Hk
      by (intros H; by apply chatKey_inj in H).
    split; [exact Hk |]. split; [by apply Hc | by apply Hs].
Qed.

Lemma cache_entries_isolated_witness :
  messageCache (snd (fetchMessagePreviews 3 None demoLoaded)) !! previewsKey 2
  = messageCache demoLoaded !! previewsKey 2
  /\ chatCache (snd (sendMessage "c2" "hi" demoLoaded)) !! chatKey "c1"
     = chatCache demoLoaded !! chatKey "c1".
Proof.
  destruct (cache_entries_isolated 3 2 "c2" "c1" "hi" None demoLoaded)
    as (Hp & Hc & _).
  split; [apply Hp; lia | apply Hc; discriminate].
Defined.
